(* ===================================================================== *)
(* tauri-action: project discovery, configuration merge and asset naming *)
(*                                                                       *)
(* A shallow embedding of src/utils.ts and src/init-project.ts:          *)
(* getAssetName, getPackageJson, getTauriDir, getWorkspaceDir,           *)
(* getTargetDir, usesYarn, usesPnpm, execCommand, getConfig, getInfo and *)
(* initProject.                                                          *)
(*  - JavaScript strings are [string]; the few String.prototype methods  *)
(*    the sources call are written out in module [Str].                  *)
(*  - Node's [path] module is embedded in its POSIX flavour ([Path]).    *)
(*  - Values produced by JSON.parse / JSON5.parse / the TOML parser are   *)
(*    the inductive [value]; objects are insertion-ordered property      *)
(*    lists.                                                             *)
(*  - The file system is a finite map from paths to nodes; functions     *)
(*    that only read take it as an argument, initProject threads it.     *)
(*  - Exceptions and process.exit are the constructors of [outcome].     *)
(*  - The third-party parsers, the glob walker and the child-process      *)
(*    runner are Variables of the Section that holds the embedding.      *)
(*  - console.log / console.error output is not part of the state.       *)
(* ===================================================================== *)

From Stdlib Require Import ZArith Ascii String List Lia.
From stdpp Require Import base option list strings gmap fin_maps.

Local Open Scope string_scope.
Local Open Scope list_scope.

(* --------------------------------------------------------------------- *)
(* String.prototype methods used by the sources                          *)
(* --------------------------------------------------------------------- *)
Module Str.

Definition eqb (a b : string) : bool := String.eqb a b.

Definition isEmpty (s : string) : bool :=
  match s with EmptyString => true | _ => false end.

(* s.includes(sub) *)
Fixpoint includes (s sub : string) : bool :=
  String.prefix sub s ||
  match s with
  | EmptyString => false
  | String _ r => includes r sub
  end.

(* s.endsWith(suf) *)
Fixpoint endsWith (s suf : string) : bool :=
  String.eqb s suf ||
  match s with
  | EmptyString => false
  | String _ r => endsWith r suf
  end.

(* s.slice(n) *)
Fixpoint drop (n : nat) (s : string) : string :=
  match n, s with
  | O, _ => s
  | S _, EmptyString => EmptyString
  | S m, String _ r => drop m r
  end.

(* s.replace(pat, rep) with a string pattern: the first occurrence only;
   the empty pattern matches at position 0. *)
Fixpoint replace (s pat rep : string) : string :=
  if String.prefix pat s then rep +:+ drop (String.length pat) s
  else match s with
       | EmptyString => EmptyString
       | String c r => String c (replace r pat rep)
       end.

(* s.replace(/ /g, '-') : every occurrence of one character *)
Fixpoint replaceAllChar (s : string) (c d : ascii) : string :=
  match s with
  | EmptyString => EmptyString
  | String x r =>
      String (if Ascii.eqb x c then d else x) (replaceAllChar r c d)
  end.

(* s[s.length - 1] *)
Fixpoint lastChar (s : string) : option ascii :=
  match s with
  | EmptyString => None
  | String c EmptyString => Some c
  | String _ r => lastChar r
  end.

(* s.split(c) for a one-character separator *)
Fixpoint split (c : ascii) (s : string) : list string :=
  match s with
  | EmptyString => [EmptyString]
  | String x r =>
      if Ascii.eqb x c then EmptyString :: split c r
      else match split c r with
           | [] => [String x EmptyString]
           | h :: t => String x h :: t
           end
  end.

(* parts.join(sepStr) *)
Fixpoint join (sepStr : string) (parts : list string) : string :=
  match parts with
  | [] => EmptyString
  | [p] => p
  | p :: rest => p +:+ sepStr +:+ join sepStr rest
  end.

End Str.

(* --------------------------------------------------------------------- *)
(* Node's path module, POSIX flavour (path.sep = "/")                    *)
(* --------------------------------------------------------------------- *)
Module Path.

Definition sepChar : ascii := "/"%char.
Definition sep : string := "/".

Definition isAbsolute (p : string) : bool :=
  match p with
  | String c _ => Ascii.eqb c sepChar
  | EmptyString => false
  end.

Definition hasTrailingSep (p : string) : bool :=
  match Str.lastChar p with
  | Some c => Ascii.eqb c sepChar
  | None => false
  end.

(* The segment stack of normalizeString: [acc] is the stack, top first. *)
Fixpoint normSegs (allowAboveRoot : bool) (segs acc : list string)
  : list string :=
  match segs with
  | [] => rev acc
  | s :: rest =>
      if Str.eqb s "" || Str.eqb s "." then normSegs allowAboveRoot rest acc
      else if Str.eqb s ".." then
        match acc with
        | top :: acc' =>
            if Str.eqb top ".." then
              normSegs allowAboveRoot rest
                (if allowAboveRoot then ".." :: acc else acc)
            else normSegs allowAboveRoot rest acc'
        | [] =>
            normSegs allowAboveRoot rest
              (if allowAboveRoot then [".."] else [])
        end
      else normSegs allowAboveRoot rest (s :: acc)
  end.

Definition normalizeString (p : string) (allowAboveRoot : bool) : string :=
  Str.join sep (normSegs allowAboveRoot (Str.split sepChar p) []).

Definition normalize (p : string) : string :=
  if Str.isEmpty p then "."
  else
    let isAbs := isAbsolute p in
    let trailing := hasTrailingSep p in
    let body := normalizeString p (negb isAbs) in
    if Str.isEmpty body then
      (if isAbs then "/" else if trailing then "./" else ".")
    else
      let body' := if trailing then body +:+ "/" else body in
      if isAbs then "/" +:+ body' else body'.

Definition join (args : list string) : string :=
  let joined :=
    Str.join sep (List.filter (fun a => negb (Str.isEmpty a)) args) in
  if Str.isEmpty joined then "." else normalize joined.

(* The right-to-left scan of path.resolve; [rargs] is the argument list
   reversed, the working directory is consulted when it runs out. *)
Fixpoint resolveScan (cwd : string) (rargs : list string) (acc : string)
  : string * bool :=
  match rargs with
  | [] =>
      if Str.isEmpty cwd then (acc, false)
      else (cwd +:+ "/" +:+ acc, isAbsolute cwd)
  | p :: rest =>
      if Str.isEmpty p then resolveScan cwd rest acc
      else
        let acc' := p +:+ "/" +:+ acc in
        if isAbsolute p then (acc', true) else resolveScan cwd rest acc'
  end.

Definition resolve (cwd : string) (args : list string) : string :=
  let '(resolvedPath, resolvedAbsolute) := resolveScan cwd (rev args) "" in
  let body := normalizeString resolvedPath (negb resolvedAbsolute) in
  if resolvedAbsolute then "/" +:+ body
  else if Str.isEmpty body then "." else body.

(* The last non-empty segment: trailing separators are skipped. *)
Fixpoint lastSegment (segs : list string) (cur : string) : string :=
  match segs with
  | [] => cur
  | s :: rest => lastSegment rest (if Str.isEmpty s then cur else s)
  end.

Definition basename (p : string) : string :=
  lastSegment (Str.split sepChar p) "".

(* [splitLastDot s] = Some (before, "." ++ after) at the last dot of s *)
Fixpoint splitLastDot (s : string) : option (string * string) :=
  match s with
  | EmptyString => None
  | String c r =>
      match splitLastDot r with
      | Some (pre, ext) => Some (String c pre, ext)
      | None =>
          if Ascii.eqb c "."%char then Some (EmptyString, s) else None
      end
  end.

Definition extname (p : string) : string :=
  let base := basename p in
  match splitLastDot base with
  | None => ""
  | Some (pre, ext) =>
      if Str.isEmpty pre then ""
      else if Str.eqb base ".." then ""
      else ext
  end.

End Path.

(* --------------------------------------------------------------------- *)
(* utils.ts: constants and getAssetName                                  *)
(* --------------------------------------------------------------------- *)

Definition extensions : list string :=
  [ ".app.tar.gz.sig";
    ".app.tar.gz";
    ".dmg";
    ".AppImage.tar.gz.sig";
    ".AppImage.tar.gz";
    ".AppImage";
    ".deb";
    ".msi.zip.sig";
    ".msi.zip";
    ".msi" ].

(* exts[0] || path.extname(assetPath) : no element of [extensions] is the
   empty string, so the || falls through only on an empty array. *)
Definition assetExt (assetPath : string) : string :=
  let basename := Path.basename assetPath in
  let exts := List.filter (fun s => Str.includes basename s) extensions in
  match exts with
  | e :: _ => if Str.isEmpty e then Path.extname assetPath else e
  | [] => Path.extname assetPath
  end.

Definition assetArch (assetPath ext : string) : string :=
  if Str.eqb ext ".app.tar.gz.sig" || Str.eqb ext ".app.tar.gz" then
    if Str.includes assetPath "universal-apple-darwin" then "_universal"
    else if Str.includes assetPath "aarch64-apple-darwin" then "_aarch64"
    else "_x64"
  else "".

Definition getAssetName (assetPath : string) : string :=
  let basename := Path.basename assetPath in
  let ext := assetExt assetPath in
  let filename := Str.replace basename ext "" in
  let arch := assetArch assetPath ext in
  if Str.includes assetPath (Path.sep +:+ "debug" +:+ Path.sep)
  then filename +:+ "-debug" +:+ arch +:+ ext
  else filename +:+ arch +:+ ext.

(* --------------------------------------------------------------------- *)
(* JavaScript values, as the parsers produce them                        *)
(* --------------------------------------------------------------------- *)

(* An array is an object whose own properties are its indices; numbers
   are only ever tested for truthiness by the sources. *)
#[warnings="-register-all"]
Inductive value : Type :=
| VUndef
| VNull
| VBool (b : bool)
| VNum (n : Z)
| VStr (s : string)
| VObj (isArray : bool) (props : list (string * value)).

Module Js.

Definition truthy (v : value) : bool :=
  match v with
  | VUndef | VNull => false
  | VBool b => b
  | VNum n => negb (Z.eqb n 0)
  | VStr s => negb (Str.isEmpty s)
  | VObj _ _ => true
  end.

Definition isNullish (v : value) : bool :=
  match v with VUndef | VNull => true | _ => false end.

Fixpoint lookup (k : string) (ps : list (string * value)) : value :=
  match ps with
  | [] => VUndef
  | (k', v) :: rest => if Str.eqb k' k then v else lookup k rest
  end.

(* Own-property read o[k] on a non-nullish o.  The keys the sources read
   (package, version, tauri, bundle, ...) are not properties of any
   prototype, so primitives answer undefined. *)
Definition get (k : string) (o : value) : value :=
  match o with
  | VObj _ ps => lookup k ps
  | _ => VUndef
  end.

(* a || b on already evaluated operands *)
Definition or (a b : value) : value := if truthy a then a else b.

(* o?.k *)
Definition optGet (k : string) (o : value) : value :=
  if isNullish o then VUndef else get k o.

(* obj[k] = v on a property list: overwrite in place or append *)
Fixpoint setProp (k : string) (v : value) (ps : list (string * value))
  : list (string * value) :=
  match ps with
  | [] => [(k, v)]
  | (k', v') :: rest =>
      if Str.eqb k' k then (k, v) :: rest
      else (k', v') :: setProp k v rest
  end.

(* decimal property names of the characters of a spread string *)
Definition digit (n : nat) : ascii := ascii_of_nat (48 + n).

Fixpoint decimalAux (fuel n : nat) (acc : string) : string :=
  match fuel with
  | O => acc
  | S f =>
      let acc' := String (digit (n mod 10)) acc in
      if Nat.eqb (n / 10) 0 then acc' else decimalAux f (n / 10) acc'
  end.

Definition decimal (n : nat) : string := decimalAux (S n) n "".

Fixpoint indexed (i : nat) (s : string) : list (string * value) :=
  match s with
  | EmptyString => []
  | String c r => (decimal i, VStr (String c EmptyString)) :: indexed (S i) r
  end.

(* the own enumerable properties copied by { ...o } *)
Definition spread (o : value) : list (string * value) :=
  match o with
  | VObj _ ps => ps
  | VStr s => indexed 0 s
  | _ => []
  end.

End Js.

(* --------------------------------------------------------------------- *)
(* Outcomes: a returned value, a thrown error, or process.exit(code)     *)
(* --------------------------------------------------------------------- *)

Inductive error : Type :=
| SyntaxError (msg : string)
| TypeError (msg : string)
| SystemError (code path : string)
| ChildProcessError (exitCode : Z).

Inductive outcome (A : Type) : Type :=
| Ret (a : A)
| Throw (e : error)
| Exit (code : Z).
Arguments Ret {A} a.
Arguments Throw {A} e.
Arguments Exit {A} code.

#[global] Instance outcome_ret : MRet outcome := @Ret.
#[global] Instance outcome_bind : MBind outcome :=
  fun A B (k : A -> outcome B) (m : outcome A) =>
    match m with
    | Ret a => k a
    | Throw e => Throw e
    | Exit c => Exit c
    end.

Definition ofParse (r : error + value) : outcome value :=
  match r with
  | inl e => Throw e
  | inr v => Ret v
  end.

(* o.k : reading a property of undefined or null throws *)
Definition member (k : string) (o : value) : outcome value :=
  if Js.isNullish o then Throw (TypeError "Cannot read properties")
  else Ret (Js.get k o).

(* o.k = v in strict mode *)
Definition assign (k : string) (v : value) (o : value) : outcome value :=
  match o with
  | VObj a ps => Ret (VObj a (Js.setProp k v ps))
  | VUndef | VNull => Throw (TypeError "Cannot set properties")
  | _ => Throw (TypeError "Cannot create property")
  end.

(* --------------------------------------------------------------------- *)
(* The file system                                                       *)
(* --------------------------------------------------------------------- *)

Inductive node : Type :=
| File (contents : string)
| Dir.

Abbreviation fsT := (gmap string node).

(* --------------------------------------------------------------------- *)
(* Records of types.ts                                                   *)
(* --------------------------------------------------------------------- *)

Record Runner : Type := {
  runnerCommand : string;
  runnerArgs : list string }.

Record BuildOptions : Type := {
  iconPath : option string;
  bundleIdentifier : option string }.

Record Info : Type := {
  tauriPath : option string;
  name : value;
  version : value;
  wixLanguage : value }.

Record Application : Type := {
  app_tauriPath : string;
  app_runner : Runner;
  app_name : value;
  app_version : value;
  app_wixLanguage : value }.

Record ExecaOptions : Type := {
  opt_cwd : option string;
  opt_stdio : string;
  opt_env : list (string * string) }.

(* An operation that may rewrite the file system. *)
Definition io (A : Type) : Type := fsT -> outcome A * fsT.

Definition ioRet {A} (a : A) : io A := fun fs => (Ret a, fs).

Definition ioBind {A B} (m : io A) (k : A -> io B) : io B :=
  fun fs =>
    match m fs with
    | (Ret a, fs') => k a fs'
    | (Throw e, fs') => (Throw e, fs')
    | (Exit c, fs') => (Exit c, fs')
    end.

(* a step that only reads the file system *)
Definition ioRead {A} (m : fsT -> outcome A) : io A := fun fs => (m fs, fs).

(* a step that touches no file at all *)
Definition ioPure {A} (m : outcome A) : io A := fun fs => (m, fs).

Notation "'let*' x ':=' m 'in' k" := (ioBind m (fun x => k))
  (at level 10, x pattern, m at level 100, k at level 200).

(* s?.endsWith(suf) *)
Definition callEndsWith (v : value) (suf : string) : outcome bool :=
  match v with
  | VUndef | VNull => Ret false
  | VStr s => Ret (Str.endsWith s suf)
  | _ => Throw (TypeError "endsWith is not a function")
  end.

(* s.replace(/ /g, '-') *)
Definition callReplaceSpaces (v : value) : outcome value :=
  match v with
  | VUndef | VNull => Throw (TypeError "Cannot read properties")
  | VStr s => Ret (VStr (Str.replaceAllChar s " " "-"))
  | _ => Throw (TypeError "replace is not a function")
  end.

(* path.join(dir, v) where v has passed the endsWith test *)
Definition pathArg (v : value) : string :=
  match v with
  | VStr s => s
  | _ => ""
  end.

(* --------------------------------------------------------------------- *)
(* utils.ts and init-project.ts                                          *)
(* --------------------------------------------------------------------- *)
Section Action.

(* process.cwd() and process.env *)
Variable cwd : string.
Variable env : gmap string string.

(* JSON.parse, JSON5.parse, @iarna/toml's parse; JSON.stringify(v, null, 2) *)
Variable JSON_parse : string -> error + value.
Variable JSON5_parse : string -> error + value.
Variable parseToml : string -> error + value.
Variable JSON_stringify : value -> string.

(* glob-gitignore's sync(pattern, { cwd, ignore }) on a file system; the
   ignore object is the list of the patterns added to it *)
Variable globSync : fsT -> string -> string -> list string -> list string.

(* execa(command, args, options): the child process may rewrite the file
   system, and rejects on a non-zero exit *)
Variable execa :
  string -> list value -> ExecaOptions -> fsT -> outcome unit * fsT.

(** fs.existsSync / readFileSync / writeFileSync *)

Definition fsKey (p : string) : string := Path.resolve cwd [p].

Definition existsSync (fs : fsT) (p : string) : bool :=
  match fs !! fsKey p with
  | Some _ => true
  | None => false
  end.

Definition readFileSync (fs : fsT) (p : string) : outcome string :=
  match fs !! fsKey p with
  | Some (File c) => Ret c
  | Some Dir => Throw (SystemError "EISDIR" p)
  | None => Throw (SystemError "ENOENT" p)
  end.

(* the map holds files and the directories known to it; a write creates or
   replaces the file and fails only on a directory *)
Definition writeFileSync (p data : string) (fs : fsT) : outcome unit * fsT :=
  match fs !! fsKey p with
  | Some Dir => (Throw (SystemError "EISDIR" p), fs)
  | _ => (Ret tt, <[fsKey p := File data]> fs)
  end.

(** getPackageJson *)
Definition getPackageJson (root : string) (fs : fsT) : outcome value :=
  let packageJsonPath := Path.join [root; "package.json"] in
  if existsSync fs packageJsonPath then
    packageJsonString ← readFileSync fs packageJsonPath;
    packageJson ← ofParse (JSON_parse packageJsonString);
    Ret packageJson
  else Ret VNull.

(** getTauriDir *)
Definition getTauriDir (root : string) (fs : fsT) : outcome (option string) :=
  let gitignorePath := Path.join [root; ".gitignore"] in
  ignoreRules ←
    (if existsSync fs gitignorePath then
       rules ← readFileSync fs gitignorePath; Ret [rules]
     else Ret ["node_modules"; "target"]);
  let paths := globSync fs "**/tauri.conf.json" root ignoreRules in
  match paths with
  | tauriConfPath :: _ =>
      if Str.isEmpty tauriConfPath then Ret None
      else Ret (Some (Path.resolve cwd [root; tauriConfPath; ".."]))
  | [] => Ret None
  end.

(** getTargetDir *)

(* the loop condition: dir.length && dir[dir.length - 1] !== sep *)
Definition walkable (dir : string) : bool :=
  negb (Str.isEmpty dir) && negb (Path.hasTrailingSep dir).

(* one pass through the loop body: Some r when the body returns or
   throws, None when it falls through to the next directory *)
Definition cargoConfigAt (fs : fsT) (dir : string) : option (outcome value) :=
  let cargoConfigPath := Path.join [dir; ".cargo/config"] in
  let cargoConfigPath :=
    if negb (existsSync fs cargoConfigPath)
    then Path.join [dir; ".cargo/config.toml"] else cargoConfigPath in
  if existsSync fs cargoConfigPath then
    match readFileSync fs cargoConfigPath with
    | Ret contents =>
        match parseToml contents with
        | inr cargoConfig =>
            match member "build" cargoConfig with
            | Ret build =>
                if Js.truthy (Js.optGet "target-dir" build)
                then Some (member "target-dir" build)
                else None
            | Throw e => Some (Throw e)
            | Exit c => Some (Exit c)
            end
        | inl e => Some (Throw e)
        end
    | Throw e => Some (Throw e)
    | Exit c => Some (Exit c)
    end
  else None.

(* the while loop; None when the fuel runs out before the loop ends *)
Fixpoint targetDirLoop (fuel : nat) (fs : fsT) (def dir : string)
  : option (outcome value) :=
  match fuel with
  | O => None
  | S fuel' =>
      if walkable dir then
        match cargoConfigAt fs dir with
        | Some r => Some r
        | None =>
            targetDirLoop fuel' fs def (Path.normalize (Path.join [dir; ".."]))
        end
      else Some (Ret (VStr def))
  end.

Definition getTargetDir (fuel : nat) (fs : fsT) (crateDir : string)
  : option (outcome value) :=
  let def := Path.join [crateDir; "target"] in
  if bool_decide (is_Some (env !! "CARGO_TARGET_DIR")) then
    Some (Ret (VStr (default def (env !! "CARGO_TARGET_DIR"))))
  else targetDirLoop fuel fs def crateDir.

(** execCommand *)
Definition execCommand (command : string) (args : list value)
    (cwdOpt : option string) (fs : fsT) : outcome unit * fsT :=
  execa command args
    {| opt_cwd := cwdOpt; opt_stdio := "inherit";
       opt_env := [("FORCE_COLOR", "0")] |} fs.

(** _getJson5Config *)
Definition _getJson5Config (contents : string) : value :=
  match JSON5_parse contents with
  | inr config => config
  | inl _ => VNull
  end.

(** getConfig *)
Definition getConfig (path : string) (fs : fsT) : outcome value :=
  contents ← readFileSync fs path;
  match JSON_parse contents with
  | inr config => Ret config
  | inl e =>
      let json5Conf := _getJson5Config contents in
      json5Conf ←
        (match json5Conf with
         | VNull =>
             sibling ←
               readFileSync fs (Path.join [path; ".."; "tauri.conf.json5"]);
             Ret (_getJson5Config sibling)
         | _ => Ret json5Conf
         end);
      if Js.truthy json5Conf then Ret json5Conf else Throw e
  end.

(** getInfo *)

(* lines 190-198: the candidates taken from the config's package table *)
Definition configCandidates (tauriDir : string) (pkg : value) (fs : fsT)
  : outcome (value * value) :=
  if Js.truthy pkg then
    let name := Js.get "productName" pkg in
    let version := Js.get "version" pkg in
    pointer ← callEndsWith version ".json";
    if (pointer : bool) then
      let packageJsonPath := Path.join [tauriDir; pathArg version] in
      contents ← readFileSync fs packageJsonPath;
      parsed ← ofParse (JSON_parse contents);
      version ← member "version" parsed;
      Ret (name, version)
    else Ret (name, version)
  else Ret (VUndef, VUndef).

(* lines 199-206: the gaps filled from Cargo.toml *)
Definition manifestFill (tauriDir : string) (name version : value) (fs : fsT)
  : outcome (value * value) :=
  if negb (Js.truthy name && Js.truthy version) then
    let manifestPath := Path.join [tauriDir; "Cargo.toml"] in
    contents ← readFileSync fs manifestPath;
    cargoManifest ← ofParse (parseToml contents);
    name ←
      (if Js.truthy name then Ret name
       else package ← member "package" cargoManifest; member "name" package);
    version ←
      (if Js.truthy version then Ret version
       else package ← member "package" cargoManifest;
            member "version" package);
    Ret (name, version)
  else Ret (name, version).

(* config.tauri?.bundle?.windows?.wix?.language *)
Definition wixLanguageOf (config : value) : outcome value :=
  tauri ← member "tauri" config;
  Ret (Js.optGet "language" (Js.optGet "wix" (Js.optGet "windows"
         (Js.optGet "bundle" tauri)))).

Definition getInfo (root : string) (inConfigPath : option string) (fs : fsT)
  : outcome Info :=
  tauriDir ← getTauriDir root fs;
  match tauriDir with
  | Some tauriDir =>
      let configPath :=
        default (Path.join [tauriDir; "tauri.conf.json"]) inConfigPath in
      config ← getConfig configPath fs;
      package ← member "package" config;
      '(name, version) ← configCandidates tauriDir package fs;
      '(name, version) ← manifestFill tauriDir name version fs;
      language ← wixLanguageOf config;
      let wixLanguage :=
        if Js.truthy language then language else VStr "en-US" in
      if negb (Js.truthy name && Js.truthy version) then Exit 1
      else
        Ret {| tauriPath := Some tauriDir;
               name := name;
               version := version;
               wixLanguage := wixLanguage |}
  | None =>
      packageJson ← getPackageJson root fs;
      appName ←
        (if Js.truthy packageJson then
           callReplaceSpaces
             (Js.or (Js.get "displayName" packageJson)
                    (Js.get "name" packageJson))
         else Ret (VStr "app"));
      let version :=
        if Js.truthy packageJson then Js.get "version" packageJson
        else VStr "0.1.0" in
      Ret {| tauriPath := None;
             name := appName;
             version := version;
             wixLanguage := VStr "en-US" |}
  end.

(** initProject *)

(* lines 35-45 *)
Definition mergePackage (info : Info) (packageJson config : value)
  : outcome value :=
  package ← member "package" config;
  let pkgConfig := Js.setProp "version" (version info) (Js.spread package) in
  let productName := Js.optGet "productName" packageJson in
  let pkgConfig :=
    if Js.truthy productName
    then Js.setProp "productName" productName pkgConfig else pkgConfig in
  assign "package" (VObj false pkgConfig) config.

(* lines 47-58 *)
Definition mergeIdentifier (bundleIdentifier : option string)
    (config : value) : outcome value :=
  match bundleIdentifier with
  | Some identifier =>
      if Str.isEmpty identifier then Ret config
      else
        tauri ← member "tauri" config;
        let bundle :=
          VObj false
            (Js.setProp "identifier" (VStr identifier)
               (Js.spread (Js.optGet "bundle" tauri))) in
        assign "tauri"
          (VObj false (Js.setProp "bundle" bundle (Js.spread tauri))) config
  | None => Ret config
  end.

Definition initProject (root : string) (runner : Runner) (info : Info)
    (options : BuildOptions) : io Application :=
  let* packageJson := ioRead (getPackageJson root) in
  let* tauriPath := ioRead (getTauriDir root) in
  let* _ :=
    execCommand (runnerCommand runner)
      (map VStr (runnerArgs runner)
         ++ [VStr "init"; VStr "--ci"; VStr "--app-name"; name info])
      (Some root) in
  match tauriPath with
  | None => ioPure (Exit 1)
  | Some tauriPath =>
      let configPath := Path.join [tauriPath; "tauri.conf.json"] in
      let* config := ioRead (getConfig configPath) in
      let* config := ioPure (mergePackage info packageJson config) in
      let* config :=
        ioPure (mergeIdentifier (bundleIdentifier options) config) in
      let* _ := writeFileSync configPath (JSON_stringify config) in
      let app :=
        {| app_tauriPath := tauriPath;
           app_runner := runner;
           app_name := name info;
           app_version := version info;
           app_wixLanguage := wixLanguage info |} in
      let* _ :=
        (match iconPath options with
         | Some icon =>
             if Str.isEmpty icon then ioRet tt
             else
               execCommand (runnerCommand runner)
                 (map VStr (runnerArgs runner)
                    ++ [VStr "icon"; VStr (Path.join [root; icon])])
                 (Some root)
         | None => ioRet tt
         end) in
      ioRet app
  end.

(** usesYarn / usesPnpm *)
Definition usesYarn (root : string) (fs : fsT) : bool :=
  existsSync fs (Path.join [root; "yarn.lock"]).

Definition usesPnpm (root : string) (fs : fsT) : bool :=
  existsSync fs (Path.join [root; "pnpm-lock.yaml"]).

(** getWorkspaceDir *)

(* members.some((m) => resolve(dir, m) === rootPath) over the elements of
   an array, in index order; path.resolve rejects an argument that is not
   a string *)
Fixpoint someMember (dir rootPath : string) (elems : list (string * value))
  : outcome bool :=
  match elems with
  | [] => Ret false
  | (_, VStr m) :: rest =>
      if Str.eqb (Path.resolve cwd [dir; m]) rootPath then Ret true
      else someMember dir rootPath rest
  | _ :: _ => Throw (TypeError "The paths argument must be of type string")
  end.

(* members.some(...) on a truthy value: only arrays have the method *)
Definition callSome (dir rootPath : string) (members : value) : outcome bool :=
  match members with
  | VObj true elems => someMember dir rootPath elems
  | _ => Throw (TypeError "members.some is not a function")
  end.

(* one pass through the loop body: Some r when the body returns or
   throws, None when it falls through to the next directory *)
Definition workspaceAt (fs : fsT) (rootPath dir : string)
  : option (outcome (option string)) :=
  let manifestPath := Path.join [dir; "Cargo.toml"] in
  if existsSync fs manifestPath then
    match readFileSync fs manifestPath with
    | Ret contents =>
        match parseToml contents with
        | inr toml =>
            match member "workspace" toml with
            | Ret workspace =>
                if Js.truthy (Js.optGet "members" workspace) then
                  match members ← member "members" workspace;
                        callSome dir rootPath members with
                  | Ret true => Some (Ret (Some dir))
                  | Ret false => None
                  | Throw e => Some (Throw e)
                  | Exit c => Some (Exit c)
                  end
                else None
            | Throw e => Some (Throw e)
            | Exit c => Some (Exit c)
            end
        | inl e => Some (Throw e)
        end
    | Throw e => Some (Throw e)
    | Exit c => Some (Exit c)
    end
  else None.

(* the while loop; None when the fuel runs out before the loop ends *)
Fixpoint workspaceLoop (fuel : nat) (fs : fsT) (rootPath dir : string)
  : option (outcome (option string)) :=
  match fuel with
  | O => None
  | S fuel' =>
      if walkable dir then
        match workspaceAt fs rootPath dir with
        | Some r => Some r
        | None =>
            workspaceLoop fuel' fs rootPath
              (Path.normalize (Path.join [dir; ".."]))
        end
      else Some (Ret None)
  end.

Definition getWorkspaceDir (fuel : nat) (fs : fsT) (dir : string)
  : option (outcome (option string)) :=
  workspaceLoop fuel fs dir dir.

End Action.

(* --------------------------------------------------------------------- *)
(* Reference collaborators                                               *)
(*                                                                       *)
(* Small executable stand-ins for the libraries the Section abstracts,   *)
(* used to run the embedding on concrete repositories.  They cover the   *)
(* fragment of each format that the examples contain.                    *)
(* --------------------------------------------------------------------- *)
Module Ref.

Definition nl : ascii := ascii_of_nat 10.
Definition quote : ascii := ascii_of_nat 34.

Definition isSpace (c : ascii) : bool :=
  Ascii.eqb c " "%char || Ascii.eqb c nl
  || Ascii.eqb c (ascii_of_nat 9) || Ascii.eqb c (ascii_of_nat 13).

Definition isDigit (c : ascii) : bool :=
  let n := nat_of_ascii c in Nat.leb 48 n && Nat.leb n 57.

Fixpoint skipWs (s : string) : string :=
  match s with
  | String c r => if isSpace c then skipWs r else s
  | EmptyString => s
  end.

(* the characters up to the closing quote; a backslash keeps the next
   character as it is *)
Fixpoint readString (s : string) : option (string * string) :=
  match s with
  | EmptyString => None
  | String c r =>
      if Ascii.eqb c quote then Some (EmptyString, r)
      else if Ascii.eqb c "\"%char then
        match r with
        | String d r' =>
            match readString r' with
            | Some (t, rest) => Some (String d t, rest)
            | None => None
            end
        | EmptyString => None
        end
      else
        match readString r with
        | Some (t, rest) => Some (String c t, rest)
        | None => None
        end
  end.

Fixpoint readDigits (s : string) (acc : Z) : Z * string :=
  match s with
  | String c r =>
      if isDigit c
      then readDigits r (10 * acc + Z.of_nat (nat_of_ascii c - 48))%Z
      else (acc, s)
  | EmptyString => (acc, s)
  end.

Definition readNumber (s : string) : option (value * string) :=
  match s with
  | String c r =>
      if Ascii.eqb c "-"%char then
        match r with
        | String d _ =>
            if isDigit d
            then let '(n, rest) := readDigits r 0 in Some (VNum (- n), rest)
            else None
        | EmptyString => None
        end
      else if isDigit c
      then let '(n, rest) := readDigits s 0 in Some (VNum n, rest)
      else None
  | EmptyString => None
  end.

Fixpoint hasKey (k : string) (ps : list (string * value)) : bool :=
  match ps with
  | [] => false
  | (k', _) :: rest => Str.eqb k' k || hasKey k rest
  end.

Fixpoint dropKey (k : string) (ps : list (string * value))
  : list (string * value) :=
  match ps with
  | [] => []
  | (k', v) :: rest =>
      if Str.eqb k' k then dropKey k rest else (k', v) :: dropKey k rest
  end.

(* a member in front of the members parsed after it: a later duplicate
   supplies the value *)
Definition consMember (k : string) (v : value) (later : list (string * value))
  : list (string * value) :=
  (k, if hasKey k later then Js.lookup k later else v) :: dropKey k later.

Fixpoint pValue (fuel : nat) (s : string) : option (value * string) :=
  match fuel with
  | O => None
  | S f =>
      match skipWs s with
      | String c r =>
          if Ascii.eqb c "{"%char then
            match skipWs r with
            | String d r' =>
                if Ascii.eqb d "}"%char then Some (VObj false [], r')
                else
                  match pMembers f r with
                  | Some (ps, rest) => Some (VObj false ps, rest)
                  | None => None
                  end
            | EmptyString => None
            end
          else if Ascii.eqb c "["%char then
            match skipWs r with
            | String d r' =>
                if Ascii.eqb d "]"%char then Some (VObj true [], r')
                else
                  match pElems f r 0 with
                  | Some (ps, rest) => Some (VObj true ps, rest)
                  | None => None
                  end
            | EmptyString => None
            end
          else if Ascii.eqb c quote then
            match readString r with
            | Some (t, rest) => Some (VStr t, rest)
            | None => None
            end
          else if String.prefix "true" (String c r)
          then Some (VBool true, Str.drop 4 (String c r))
          else if String.prefix "false" (String c r)
          then Some (VBool false, Str.drop 5 (String c r))
          else if String.prefix "null" (String c r)
          then Some (VNull, Str.drop 4 (String c r))
          else readNumber (String c r)
      | EmptyString => None
      end
  end
with pMembers (fuel : nat) (s : string)
  : option (list (string * value) * string) :=
  match fuel with
  | O => None
  | S f =>
      match skipWs s with
      | String c r =>
          if Ascii.eqb c quote then
            match readString r with
            | Some (k, r1) =>
                match skipWs r1 with
                | String c2 r2 =>
                    if Ascii.eqb c2 ":"%char then
                      match pValue f r2 with
                      | Some (v, r3) =>
                          match skipWs r3 with
                          | String c4 r4 =>
                              if Ascii.eqb c4 ","%char then
                                match pMembers f r4 with
                                | Some (ps, rest) =>
                                    Some (consMember k v ps, rest)
                                | None => None
                                end
                              else if Ascii.eqb c4 "}"%char
                              then Some ([(k, v)], r4)
                              else None
                          | EmptyString => None
                          end
                      | None => None
                      end
                    else None
                | EmptyString => None
                end
            | None => None
            end
          else None
      | EmptyString => None
      end
  end
with pElems (fuel : nat) (s : string) (i : nat)
  : option (list (string * value) * string) :=
  match fuel with
  | O => None
  | S f =>
      match pValue f s with
      | Some (v, r1) =>
          match skipWs r1 with
          | String c r2 =>
              if Ascii.eqb c ","%char then
                match pElems f r2 (S i) with
                | Some (ps, rest) => Some ((Js.decimal i, v) :: ps, rest)
                | None => None
                end
              else if Ascii.eqb c "]"%char
              then Some ([(Js.decimal i, v)], r2)
              else None
          | EmptyString => None
          end
      | None => None
      end
  end.

(* strict JSON: one value, then only white space *)
Definition parseJson (s : string) : error + value :=
  match pValue (2 * String.length s + 2) s with
  | Some (v, rest) =>
      if Str.isEmpty (skipWs rest) then inr v
      else inl (SyntaxError "Unexpected non-whitespace character after JSON")
  | None => inl (SyntaxError "Unexpected token in JSON")
  end.

(* relaxed JSON: line comments are blanked out before the strict parse *)
Fixpoint stripComments (inString inComment : bool) (s : string) : string :=
  match s with
  | EmptyString => EmptyString
  | String c r =>
      if inComment then
        if Ascii.eqb c nl then String c (stripComments false false r)
        else stripComments false true r
      else if inString then
        String c (stripComments (negb (Ascii.eqb c quote)) false r)
      else if String.prefix "//" s then stripComments false true r
      else String c (stripComments (Ascii.eqb c quote) false r)
  end.

Definition parseJson5 (s : string) : error + value :=
  match parseJson (stripComments false false s) with
  | inr v => inr v
  | inl _ => inl (SyntaxError "JSON5: invalid character")
  end.

(* TOML: [table] headers and key = "string" lines *)
Fixpoint trimRight (s : string) : string :=
  match s with
  | EmptyString => EmptyString
  | String c r =>
      match trimRight r with
      | EmptyString => if isSpace c then EmptyString else String c EmptyString
      | t => String c t
      end
  end.

Definition trim (s : string) : string := trimRight (skipWs s).

Fixpoint readUntil (stop : ascii) (s : string) : option (string * string) :=
  match s with
  | EmptyString => None
  | String c r =>
      if Ascii.eqb c stop then Some (EmptyString, r)
      else match readUntil stop r with
           | Some (t, rest) => Some (String c t, rest)
           | None => None
           end
  end.

Inductive tomlLine : Type :=
| TBlank
| THeader (table : string)
| TPair (key : string) (val : string)
| TBad.

Definition classify (line : string) : tomlLine :=
  match trim line with
  | EmptyString => TBlank
  | String c r =>
      if Ascii.eqb c "#"%char then TBlank
      else if Ascii.eqb c "["%char then
        match readUntil "]"%char r with
        | Some (t, EmptyString) => THeader (trim t)
        | _ => TBad
        end
      else
        match readUntil "="%char (String c r) with
        | Some (k, v) =>
            match skipWs v with
            | String q v' =>
                if Ascii.eqb q quote then
                  match readString v' with
                  | Some (str, EmptyString) => TPair (trim k) str
                  | _ => TBad
                  end
                else TBad
            | EmptyString => TBad
            end
        | None => TBad
        end
  end.

(* [doc] is the document so far, [table] the open table if any *)
Fixpoint tomlLines (lines : list string) (table : option string)
    (doc : list (string * value)) : error + value :=
  match lines with
  | [] => inr (VObj false doc)
  | l :: rest =>
      match classify l with
      | TBlank => tomlLines rest table doc
      | THeader t =>
          tomlLines rest (Some t)
            (if hasKey t doc then doc else Js.setProp t (VObj false []) doc)
      | TPair k v =>
          match table with
          | None => tomlLines rest table (Js.setProp k (VStr v) doc)
          | Some t =>
              tomlLines rest table
                (Js.setProp t
                   (VObj false
                      (Js.setProp k (VStr v) (Js.spread (Js.lookup t doc))))
                   doc)
          end
      | TBad => inl (SyntaxError "TOML: unexpected character")
      end
  end.

Definition parseToml (s : string) : error + value :=
  tomlLines (Str.split nl s) None [].

(* JSON.stringify(v, null, 2) *)
Definition showZ (n : Z) : string :=
  match n with
  | Z0 => "0"
  | Zpos p => Js.decimal (Pos.to_nat p)
  | Zneg p => "-" +:+ Js.decimal (Pos.to_nat p)
  end.

Fixpoint escape (s : string) : string :=
  match s with
  | EmptyString => EmptyString
  | String c r =>
      if Ascii.eqb c quote || Ascii.eqb c "\"%char
      then String "\"%char (String c (escape r))
      else String c (escape r)
  end.

Definition quoted (s : string) : string :=
  String quote (escape s) +:+ String quote EmptyString.

Definition isUndef (v : value) : bool :=
  match v with VUndef => true | _ => false end.

Fixpoint show (indent : string) (v : value) : string :=
  match v with
  | VUndef | VNull => "null"
  | VBool true => "true"
  | VBool false => "false"
  | VNum n => showZ n
  | VStr s => quoted s
  | VObj isArray ps =>
      let inner := indent +:+ "  " in
      let items :=
        (fix go (ps : list (string * value)) : list string :=
           match ps with
           | [] => []
           | (k, x) :: rest =>
               if isArray then (inner +:+ show inner x) :: go rest
               else if isUndef x then go rest
               else (inner +:+ quoted k +:+ ": " +:+ show inner x) :: go rest
           end) ps in
      match items with
      | [] => if isArray then "[]" else "{}"
      | _ =>
          (if isArray then "[" else "{") +:+ String nl EmptyString
          +:+ Str.join ("," +:+ String nl EmptyString) items
          +:+ String nl EmptyString +:+ indent
          +:+ (if isArray then "]" else "}")
      end
  end.

Definition stringify (v : value) : string := show "" v.

(* glob **/<file> under cwd, skipping any directory named by a line of
   the ignore patterns *)
Fixpoint stripPrefix (p s : string) : option string :=
  match p, s with
  | EmptyString, _ => Some s
  | String a p', String b s' =>
      if Ascii.eqb a b then stripPrefix p' s' else None
  | String _ _, EmptyString => None
  end.

Definition ruleNames (rules : list string) : list string :=
  List.filter (fun r => negb (Str.isEmpty r))
    (List.map trim (List.concat (List.map (Str.split nl) rules))).

Definition ignored (names : list string) (rel : string) : bool :=
  existsb (fun seg => existsb (Str.eqb seg) names)
    (Str.split Path.sepChar rel).

Definition globSync (fs : fsT) (pattern cwd : string) (rules : list string)
  : list string :=
  match stripPrefix "**/" pattern with
  | Some file =>
      omap (fun '(path, n) =>
              match n, stripPrefix (cwd +:+ "/") path with
              | File _, Some rel =>
                  if Str.eqb (Path.basename rel) file
                     && negb (ignored (ruleNames rules) rel)
                  then Some rel else None
              | _, _ => None
              end)
           (map_to_list fs)
  | None => []
  end.

(* a scripted child process: init writes [created] into the file system,
   any other sub-command exits with [otherExit] *)
Definition hasArg (a : string) (args : list value) : bool :=
  existsb (fun v => match v with VStr s => Str.eqb s a | _ => false end) args.

Definition execa (created : list (string * string)) (otherExit : Z)
    (command : string) (args : list value) (options : ExecaOptions)
    (fs : fsT) : outcome unit * fsT :=
  if hasArg "init" args then
    (Ret tt,
     foldr (fun '(path, contents) acc => <[path := File contents]> acc)
           fs created)
  else if Z.eqb otherExit 0 then (Ret tt, fs)
  else (Throw (ChildProcessError otherExit), fs).

(* single quotes stand for double quotes in the example documents *)
Definition dq (s : string) : string := Str.replaceAllChar s "'"%char quote.

Definition files (l : list (string * string)) : fsT :=
  list_to_map (List.map (fun '(path, contents) => (path, File contents)) l).

End Ref.

(* TOML with arrays of strings as values, for workspace manifests *)
Module RefArr.

(* the elements after an opening bracket, numbered from [i] *)
Fixpoint readElems (fuel : nat) (s : string) (i : nat)
  : option (list (string * value)) :=
  match fuel with
  | O => None
  | S f =>
      match Ref.skipWs s with
      | String c r =>
          if Ascii.eqb c "]"%char then
            if Str.isEmpty (Ref.skipWs r) then Some [] else None
          else if Ascii.eqb c ","%char then readElems f r i
          else if Ascii.eqb c Ref.quote then
            match Ref.readString r with
            | Some (t, rest) =>
                match readElems f rest (S i) with
                | Some elems => Some ((Js.decimal i, VStr t) :: elems)
                | None => None
                end
            | None => None
            end
          else None
      | EmptyString => None
      end
  end.

Definition readValue (s : string) : option value :=
  match Ref.skipWs s with
  | String c r =>
      if Ascii.eqb c Ref.quote then
        match Ref.readString r with
        | Some (t, rest) =>
            if Str.isEmpty (Ref.skipWs rest) then Some (VStr t) else None
        | None => None
        end
      else if Ascii.eqb c "["%char then
        match readElems (S (String.length r)) r 0 with
        | Some elems => Some (VObj true elems)
        | None => None
        end
      else None
  | EmptyString => None
  end.

Inductive line : Type :=
| Blank
| Header (table : string)
| Pair (key : string) (val : value)
| Bad.

Definition classify (l : string) : line :=
  match Ref.trim l with
  | EmptyString => Blank
  | String c r =>
      if Ascii.eqb c "#"%char then Blank
      else if Ascii.eqb c "["%char then
        match Ref.readUntil "]"%char r with
        | Some (t, EmptyString) => Header (Ref.trim t)
        | _ => Bad
        end
      else
        match Ref.readUntil "="%char (String c r) with
        | Some (k, v) =>
            match readValue v with
            | Some val => Pair (Ref.trim k) val
            | None => Bad
            end
        | None => Bad
        end
  end.

Fixpoint lines (ls : list string) (table : option string)
    (doc : list (string * value)) : error + value :=
  match ls with
  | [] => inr (VObj false doc)
  | l :: rest =>
      match classify l with
      | Blank => lines rest table doc
      | Header t =>
          lines rest (Some t)
            (if Ref.hasKey t doc then doc else Js.setProp t (VObj false []) doc)
      | Pair k v =>
          match table with
          | None => lines rest table (Js.setProp k v doc)
          | Some t =>
              lines rest table
                (Js.setProp t
                   (VObj false (Js.setProp k v (Js.spread (Js.lookup t doc))))
                   doc)
          end
      | Bad => inl (SyntaxError "TOML: unexpected character")
      end
  end.

Definition parseToml (s : string) : error + value :=
  lines (Str.split Ref.nl s) None [].

(* a child process that always fails *)
Definition failing (exitCode : Z) (command : string) (args : list value)
    (options : ExecaOptions) (fs : fsT) : outcome unit * fsT :=
  (Throw (ChildProcessError exitCode), fs).

End RefArr.

(* ===================================================================== *)
(* Vocabulary of the statements                                          *)
(* ===================================================================== *)

Definition isAppBundle (ext : string) : bool :=
  Str.eqb ext ".app.tar.gz.sig" || Str.eqb ext ".app.tar.gz".

Definition debugSegment : string := "/debug/".

Fixpoint hasChar (c : ascii) (s : string) : bool :=
  match s with
  | EmptyString => false
  | String x r => Ascii.eqb x c || hasChar c r
  end.

(* a segment of a normalized path *)
Definition cleanSeg (s : string) : Prop :=
  s <> "" /\ s <> "." /\ s <> ".." /\ hasChar Path.sepChar s = false.

(* the absolute path with the given segments *)
Definition absPath (segs : list string) : string :=
  "/" +:+ Str.join Path.sep segs.

(* the segment stack of normalizeString before it is reversed *)
Fixpoint segStack (allowAboveRoot : bool) (segs acc : list string)
  : list string :=
  match segs with
  | [] => acc
  | s :: rest =>
      if Str.eqb s "" || Str.eqb s "." then segStack allowAboveRoot rest acc
      else if Str.eqb s ".." then
        match acc with
        | top :: acc' =>
            if Str.eqb top ".." then
              segStack allowAboveRoot rest
                (if allowAboveRoot then ".." :: acc else acc)
            else segStack allowAboveRoot rest acc'
        | [] =>
            segStack allowAboveRoot rest
              (if allowAboveRoot then [".."] else [])
        end
      else segStack allowAboveRoot rest (s :: acc)
  end.

Definition parentDir (dir : string) : string :=
  Path.normalize (Path.join [dir; ".."]).

(* the [k]-th directory visited by an upward walk from [dir] *)
Fixpoint ancestor (k : nat) (dir : string) : string :=
  match k with
  | O => dir
  | S k' => ancestor k' (parentDir dir)
  end.

(* the absolute path whose segments are [stack], innermost first *)
Definition absOfStack (stack : list string) : string := absPath (rev stack).

Definition packageJsonPath (root : string) : string :=
  Path.join [root; "package.json"].

(* step 6 of the resolver: the configured installer language or en-US *)
Definition resolvedLanguage (config : value) : value :=
  let language :=
    Js.optGet "language" (Js.optGet "wix" (Js.optGet "windows"
      (Js.optGet "bundle" (Js.get "tauri" config)))) in
  if Js.truthy language then language else VStr "en-US".

Definition targetDirVar : string := "CARGO_TARGET_DIR".

(* C1 as the specification states it: a local config override beats the
   environment override *)
Definition local_config_wins (cwd : string) (env : gmap string string)
    (parseToml : string -> error + value) (fs : fsT) (crateDir : string)
  : Prop :=
  forall t fuel,
    walkable crateDir = true ->
    cargoConfigAt cwd parseToml fs crateDir = Some (Ret t) ->
    is_Some (env !! targetDirVar) ->
    getTargetDir cwd env parseToml (S fuel) fs crateDir = Some (Ret t).

(* the sibling that getConfig falls back to *)
Definition json5Sibling (path : string) : string :=
  Path.join [path; ".."; "tauri.conf.json5"].

Definition leadingDigit (k : string) : bool :=
  match k with
  | String c _ => Ref.isDigit c
  | EmptyString => false
  end.

(* config.tauri?.bundle *)
Definition bundleOf (config : value) : value :=
  Js.optGet "bundle" (Js.get "tauri" config).

Definition initArgs (runner : Runner) (info : Info) : list value :=
  map VStr (runnerArgs runner)
    ++ [VStr "init"; VStr "--ci"; VStr "--app-name"; name info].

Definition iconArgs (runner : Runner) (root icon : string) : list value :=
  map VStr (runnerArgs runner) ++ [VStr "icon"; VStr (Path.join [root; icon])].

Definition applicationOf (tauriPath : string) (runner : Runner) (info : Info)
  : Application :=
  {| app_tauriPath := tauriPath;
     app_runner := runner;
     app_name := name info;
     app_version := version info;
     app_wixLanguage := wixLanguage info |}.

Definition configPathOf (tauriPath : string) : string :=
  Path.join [tauriPath; "tauri.conf.json"].

(* a path segment as Str.split and the segment stack produce it *)
Definition goodSeg (s : string) : Prop :=
  s <> "" /\ hasChar Path.sepChar s = false.

(* the config file getInfo reads: inConfigPath ?? join(tauriDir, ...) *)
Definition nativeConfigPath (tauriDir : string) (inConfigPath : option string)
  : string :=
  default (Path.join [tauriDir; "tauri.conf.json"]) inConfigPath.

(* a value that is neither nullish nor a string *)
Definition notStringLike (v : value) : bool :=
  match v with
  | VBool _ | VNum _ | VObj _ _ => true
  | _ => false
  end.

(* a normalized path whose last segment is [name] *)
Definition namedPath (name p : string) : Prop :=
  exists pre segs,
    p = pre +:+ Str.join Path.sep (segs ++ [name])
    /\ (pre = "" \/ pre = "/")
    /\ Forall goodSeg segs.

(* a directory that does not declare a workspace: no Cargo.toml, or one
   without workspace.members *)
Definition declaresNoWorkspace (cwd : string)
    (parseToml : string -> error + value) (fs : fsT) (dir : string) : Prop :=
  existsSync cwd fs (Path.join [dir; "Cargo.toml"]) = false
  \/ exists contents toml,
       readFileSync cwd fs (Path.join [dir; "Cargo.toml"]) = Ret contents
       /\ parseToml contents = inr toml
       /\ Js.isNullish toml = false
       /\ Js.truthy (Js.optGet "members" (Js.get "workspace" toml)) = false.

(* the non-empty segments of a path, as written *)
Definition pathSegments (p : string) : list string :=
  List.filter (fun s => negb (Str.isEmpty s)) (Str.split Path.sepChar p).

(* [sub] occurs in [s] at an offset below [n] *)
Fixpoint occursBefore (n : nat) (s sub : string) : bool :=
  match n with
  | O => false
  | S m =>
      String.prefix sub s ||
      match s with
      | EmptyString => false
      | String _ r => occursBefore m r sub
      end
  end.

(* the architecture tag that goes with a suffix, from the markers in the
   path *)
Definition archTag (assetPath suffix : string) : string :=
  if isAppBundle suffix then
    if Str.includes assetPath "universal-apple-darwin" then "_universal"
    else if Str.includes assetPath "aarch64-apple-darwin" then "_aarch64"
    else "_x64"
  else "".

Definition debugTag (assetPath : string) : string :=
  if Str.includes assetPath debugSegment then "-debug" else "".

(* what getInfo answers without a native project and without a manifest *)
Definition defaultInfo : Info :=
  {| tauriPath := None;
     name := VStr "app";
     version := VStr "0.1.0";
     wixLanguage := VStr "en-US" |}.


(* C10 as the specification states it: a manifest file that is present and
   declares neither displayName nor name makes getInfo throw *)
Definition nameless_manifest_throws (cwd : string)
    (JSON_parse JSON5_parse parseToml : string -> error + value)
    (globSync : fsT -> string -> string -> list string -> list string)
    (root : string) (fs : fsT) : Prop :=
  forall contents manifest,
    getTauriDir cwd globSync root fs = Ret None ->
    readFileSync cwd fs (packageJsonPath root) = Ret contents ->
    JSON_parse contents = inr manifest ->
    Js.get "displayName" manifest = VUndef ->
    Js.get "name" manifest = VUndef ->
    exists e,
      getInfo cwd JSON_parse JSON5_parse parseToml globSync root None fs
        = Throw e.

(* --------------------------------------------------------------------- *)
(* Sample inputs                                                         *)
(* --------------------------------------------------------------------- *)

Module TargetDirExample.

Definition crateDir : string := "/repo/src-tauri".

Definition env : gmap string string := {[ targetDirVar := "/from/env" ]}.

Definition fs : fsT :=
  Ref.files
    [("/repo/src-tauri/.cargo/config.toml",
      Ref.dq "[build]
target-dir = '/from/config'
")].

End TargetDirExample.

Module ConfigExample.

Definition path : string := "/repo/src-tauri/tauri.conf.json".

(* a config that neither parser accepts, and no tauri.conf.json5 *)
Definition fs : fsT := Ref.files [(path, "{")].

End ConfigExample.

(* --------------------------------------------------------------------- *)
Module Sample.

Definition root : string := "/repo".
Definition tauriDir : string := "/repo/src-tauri".

Definition cargoToml : string := Ref.dq "[package]
name = 'demo'
version = '0.9.0'
".

(* the config delegates its version to a package.json *)
Definition pointerConfig : string :=
  Ref.dq "{'package': {'version': 'sub/package.json'}}".

Definition fsPointer : fsT :=
  Ref.files
    [("/repo/src-tauri/tauri.conf.json", pointerConfig);
     ("/repo/src-tauri/sub/package.json", Ref.dq "{'version': '2.3.4'}");
     ("/repo/src-tauri/Cargo.toml", cargoToml)].

(* the config sets a version and nothing else *)
Definition versionOnlyConfig : string :=
  Ref.dq "{'package': {'version': '1.0.0'}}".

Definition fsVersionOnly : fsT :=
  Ref.files
    [("/repo/src-tauri/tauri.conf.json", versionOnlyConfig);
     ("/repo/src-tauri/Cargo.toml", cargoToml)].

(* no native project, a JS manifest *)
Definition fsManifest : fsT :=
  Ref.files
    [("/repo/package.json",
      Ref.dq "{'name': 'my app', 'version': '1.2.3'}")].

(* no native project, a JS manifest without displayName and name *)
Definition fsNameless : fsT :=
  Ref.files [("/repo/package.json", Ref.dq "{'version': '1.2.3'}")].

(* a project to initialise *)
Definition oldConfig : string :=
  Ref.dq "{'package': {'version': '0.0.0'}, 'tauri': {'bundle': {'identifier': 'com.tauri.dev', 'windows': {'wix': {'language': 'fr-FR'}}}}}".

Definition fsProject : fsT :=
  Ref.files
    [("/repo/package.json", Ref.dq "{'name': 'demo'}");
     ("/repo/src-tauri/tauri.conf.json", oldConfig)].

Definition runner : Runner :=
  {| runnerCommand := "npx"; runnerArgs := ["tauri"] |}.

Definition info : Info :=
  {| tauriPath := None;
     name := VStr "demo";
     version := VStr "1.2.3";
     wixLanguage := VStr "en-US" |}.

Definition options : BuildOptions :=
  {| iconPath := Some "icon.png";
     bundleIdentifier := Some "com.example.demo" |}.

(* the init command creates the native project *)
Definition created : list (string * string) :=
  [("/repo/src-tauri/tauri.conf.json", oldConfig)].

Definition fsBare : fsT :=
  Ref.files [("/repo/package.json", Ref.dq "{'name': 'demo'}")].

(* the stages of the merge on fsProject *)
Definition packageJson : value := VObj false [("name", VStr "demo")].

Definition loadedConfig : value :=
  Eval vm_compute in
    match Ref.parseJson oldConfig with inr v => v | inl _ => VUndef end.

Definition packageMerged : value :=
  Eval vm_compute in
    match mergePackage info packageJson loadedConfig with
    | Ret v => v
    | _ => VUndef
    end.

Definition merged : value :=
  Eval vm_compute in
    match mergeIdentifier (bundleIdentifier options) packageMerged with
    | Ret v => v
    | _ => VUndef
    end.

Definition fsRewritten : fsT :=
  <["/repo/src-tauri/tauri.conf.json" := File (Ref.stringify merged)]>
    fsProject.

End Sample.

(* further sample repositories *)
Module More.

Definition noEnv : gmap string string := ∅.
Definition noFiles : fsT := ∅.

(* a workspace root listing the crate, the crate without a manifest *)
Definition fsWorkspace : fsT :=
  Ref.files
    [("/repo/Cargo.toml", Ref.dq "[workspace]
members = ['src-tauri']
")].




(* a config with a productName and a version, and no Cargo.toml *)
Definition completeConfig : string :=
  Ref.dq "{'package': {'productName': 'Demo', 'version': '1.0.0'}}".

Definition fsComplete : fsT :=
  Ref.files [("/repo/src-tauri/tauri.conf.json", completeConfig)].

(* a config whose version is a number *)
Definition fsNumericVersion : fsT :=
  Ref.files
    [("/repo/src-tauri/tauri.conf.json", Ref.dq "{'package': {'version': 1}}")].

(* an empty config, without and with a Cargo.toml that lacks a version *)
Definition fsEmptyConfig : fsT :=
  Ref.files [("/repo/src-tauri/tauri.conf.json", "{}")].

Definition fsNoVersion : fsT :=
  Ref.files
    [("/repo/src-tauri/tauri.conf.json", "{}");
     ("/repo/src-tauri/Cargo.toml", Ref.dq "[package]
name = 'demo'
")].

(* a package.json that does not parse *)
Definition fsBrokenManifest : fsT := Ref.files [("/repo/package.json", "{")].

(* a package.json that holds the JSON value null *)
Definition fsNullManifest : fsT := Ref.files [("/repo/package.json", "null")].



(* build outputs *)
Definition macBundle : string :=
  "/repo/src-tauri/target/aarch64-apple-darwin/debug/bundle/macos/MyApp.app.tar.gz".

Definition macSignature : string :=
  "/repo/src-tauri/target/universal-apple-darwin/release/bundle/macos/MyApp.app.tar.gz.sig".

Definition debPackage : string :=
  "/repo/src-tauri/target/debug/bundle/deb/my-app_1.0.0_amd64.deb".

Definition debuggerPackage : string :=
  "/repo/src-tauri/target/release/bundle/deb/my.debugger_1.0.0_amd64.deb".

(* a project whose JS manifest names the product *)
Definition productJson : value :=
  VObj false [("name", VStr "demo"); ("productName", VStr "Demo App")].

Definition fsProduct : fsT :=
  Ref.files
    [("/repo/package.json",
      Ref.dq "{'name': 'demo', 'productName': 'Demo App'}");
     ("/repo/src-tauri/tauri.conf.json", Sample.oldConfig)].

Definition optionsNoIcon : BuildOptions :=
  {| iconPath := None; bundleIdentifier := Some "com.example.demo" |}.

Definition packageMerged : value :=
  Eval vm_compute in
    match mergePackage Sample.info productJson Sample.loadedConfig with
    | Ret v => v
    | _ => VUndef
    end.

Definition merged : value :=
  Eval vm_compute in
    match mergeIdentifier (bundleIdentifier optionsNoIcon) packageMerged with
    | Ret v => v
    | _ => VUndef
    end.

Definition fsMerged : fsT :=
  <["/repo/src-tauri/tauri.conf.json" := File (Ref.stringify merged)]>
    fsProduct.

End More.

(* --------------------------------------------------------------------- *)
(* Proof steps                                                           *)
(* --------------------------------------------------------------------- *)

Ltac run := vm_compute; reflexivity.

(* ===================================================================== *)
(* Properties                                                            *)
(* ===================================================================== *)

(* --------------------------------------------------------------------- *)
(* Artifact naming                                                       *)
(* --------------------------------------------------------------------- *)
Section AssetName.

(* the head of a filter is the first element that passes, and everything
   in front of it fails *)
Lemma filter_head_first {A} (f : A -> bool) (l : list A) :
  match List.filter f l with
  | x :: _ =>
      exists pre post,
        l = pre ++ x :: post /\ f x = true /\ Forall (fun y => f y = false) pre
  | [] => Forall (fun y => f y = false) l
  end.
Proof.
  induction l as [|a l IH]; simpl.
  - constructor.
  - destruct (f a) eqn:Ha.
    + exists [], l. repeat split; [assumption | constructor].
    + destruct (List.filter f l) as [|x xs].
      * constructor; assumption.
      * destruct IH as (pre & post & -> & Hx & Hpre).
        exists (a :: pre), post. repeat split; [assumption |].
        constructor; assumption.
Qed.

Lemma extensions_nonempty e : In e extensions -> Str.isEmpty e = false.
Proof.
  unfold extensions. simpl.
  intros H; repeat (destruct H as [<- | H]; [reflexivity |]); contradiction.
Qed.

Lemma assetExt_first (assetPath : string) :
  (exists pre post,
      extensions = pre ++ assetExt assetPath :: post
      /\ Str.includes (Path.basename assetPath) (assetExt assetPath) = true
      /\ Forall (fun s => Str.includes (Path.basename assetPath) s = false) pre)
  \/ (Forall (fun s => Str.includes (Path.basename assetPath) s = false)
        extensions
      /\ assetExt assetPath = Path.extname assetPath).
Proof.
  unfold assetExt.
  pose proof (filter_head_first
                (fun s => Str.includes (Path.basename assetPath) s)
                extensions) as H.
  cbv zeta.
  destruct (List.filter _ extensions) as [|e es].
  - right. split; [exact H | reflexivity].
  - left. destruct H as (pre & post & Heq & He & Hpre).
    assert (Str.isEmpty e = false) as ->.
    { apply extensions_nonempty. rewrite Heq. apply in_or_app.
      right; left; reflexivity. }
    exists pre, post. auto.
Qed.

Lemma assetArch_tag (assetPath ext : string) :
  assetArch assetPath ext =
    if isAppBundle ext then
      if Str.includes assetPath "universal-apple-darwin" then "_universal"
      else if Str.includes assetPath "aarch64-apple-darwin" then "_aarch64"
      else "_x64"
    else "".
Proof. reflexivity. Qed.

(** occurrences of one string in another *)

Lemma app_cons c a b : String c a +:+ b = String c (a +:+ b).
Proof. reflexivity. Qed.

Lemma app_empty_r a : a +:+ "" = a.
Proof.
  induction a as [|c a IH]; [reflexivity |]. rewrite app_cons, IH.
  reflexivity.
Qed.

Lemma hasChar_app c a b : hasChar c (a +:+ b) = hasChar c a || hasChar c b.
Proof.
  induction a as [|x a IH]; [reflexivity |].
  change (String x a +:+ b) with (String x (a +:+ b)).
  simpl. rewrite IH. apply orb_assoc.
Qed.

Lemma prefix_occurs p : forall s,
  String.prefix p s = true <-> exists b, s = p +:+ b.
Proof.
  induction p as [|c p IH]; intros s.
  - split; [intros _; exists s; reflexivity | intros _; destruct s; reflexivity].
  - destruct s as [|x s]; simpl.
    + split; [discriminate | intros [b Hb]; discriminate Hb].
    + destruct (Ascii.ascii_dec c x) as [-> | Hne].
      * rewrite IH. split; intros [b Hb]; exists b.
        -- rewrite app_cons, Hb. reflexivity.
        -- rewrite app_cons in Hb. injection Hb as ->. reflexivity.
      * split; [discriminate |].
        intros [b Hb]. rewrite app_cons in Hb. congruence.
Qed.

Lemma includes_unfold s sub :
  Str.includes s sub =
    String.prefix sub s ||
    match s with
    | EmptyString => false
    | String _ r => Str.includes r sub
    end.
Proof. destruct s; reflexivity. Qed.

(* s.includes(sub) holds exactly when sub occurs somewhere in s *)
Lemma includes_occurs sub : forall s,
  Str.includes s sub = true <-> exists a b, s = a +:+ sub +:+ b.
Proof.
  induction s as [|x s IH]; rewrite includes_unfold.
  - rewrite orb_false_r, prefix_occurs. split.
    + intros [b Hb]. exists "", b. exact Hb.
    + intros (a & b & H). destruct a as [|c a]; [| discriminate H].
      exists b. exact H.
  - rewrite orb_true_iff, prefix_occurs, IH. split.
    + intros [[b Hb] | (a & b & H)].
      * exists "", b. exact Hb.
      * exists (String x a), b. rewrite app_cons, H. reflexivity.
    + intros (a & b & H). destruct a as [|c a].
      * left. exists b. exact H.
      * right. rewrite app_cons in H. injection H as -> ->. eauto.
Qed.

Lemma no_occurrence s sub :
  Str.includes s sub = false -> forall a b, s <> a +:+ sub +:+ b.
Proof.
  intros H a b Hs.
  assert (Str.includes s sub = true) as Ht by (apply includes_occurs; eauto).
  congruence.
Qed.

Lemma not_includes s sub :
  (forall a b, s <> a +:+ sub +:+ b) -> Str.includes s sub = false.
Proof.
  intros H. destruct (Str.includes s sub) eqn:E; [| reflexivity].
  apply includes_occurs in E as (a & b & Hs). destruct (H a b Hs).
Qed.

Lemma occursBefore_none n : forall s sub a b,
  occursBefore n s sub = false -> s = a +:+ sub +:+ b -> n <= String.length a.
Proof.
  induction n as [|n IH]; intros s sub a b Hocc Hs; [lia |].
  simpl in Hocc. apply orb_false_iff in Hocc as [Hpre Hrest].
  destruct a as [|c a].
  - exfalso.
    assert (String.prefix sub s = true) as Ht
      by (apply prefix_occurs; exists b; exact Hs).
    congruence.
  - rewrite app_cons in Hs. subst s. simpl.
    specialize (IH _ _ a b Hrest eq_refl). lia.
Qed.

Lemma occurs_hasChar c s sub a b :
  s = a +:+ sub +:+ b -> hasChar c sub = true -> hasChar c s = true.
Proof.
  intros -> H. rewrite !hasChar_app, H. rewrite orb_true_r. reflexivity.
Qed.

Lemma app_inv_head x : forall a y z,
  x +:+ y = a +:+ z -> String.length x <= String.length a ->
  exists a', a = x +:+ a' /\ y = a' +:+ z.
Proof.
  induction x as [|c x IH]; intros a y z H Hlen.
  - exists a. split; [reflexivity | exact H].
  - destruct a as [|d a]; [simpl in Hlen; lia |].
    rewrite !app_cons in H. injection H as -> H.
    destruct (IH a y z H) as (a' & -> & ->); [simpl in Hlen; lia |].
    exists a'. split; reflexivity.
Qed.

(** String.prototype.replace with a string pattern *)

Lemma replace_unfold s pat rep :
  Str.replace s pat rep =
    if String.prefix pat s then rep +:+ Str.drop (String.length pat) s
    else match s with
         | EmptyString => EmptyString
         | String c r => String c (Str.replace r pat rep)
         end.
Proof. destruct s; reflexivity. Qed.

Lemma drop_app p : forall b, Str.drop (String.length p) (p +:+ b) = b.
Proof. induction p as [|c p IH]; intros b; [reflexivity | simpl; apply IH]. Qed.

Lemma replace_empty s : Str.replace s "" "" = s.
Proof. rewrite replace_unfold. destruct s; reflexivity. Qed.

(* the pattern is cut out where it first occurs, wherever that is *)
Lemma replace_at stem : forall e rest rep,
  (forall a b, stem +:+ e +:+ rest = a +:+ e +:+ b ->
               String.length stem <= String.length a) ->
  Str.replace (stem +:+ e +:+ rest) e rep = stem +:+ rep +:+ rest.
Proof.
  induction stem as [|c stem IH]; intros e rest rep Hfirst;
    rewrite replace_unfold.
  - change ("" +:+ e +:+ rest) with (e +:+ rest).
    assert (String.prefix e (e +:+ rest) = true) as ->
      by (apply prefix_occurs; eauto).
    rewrite drop_app. reflexivity.
  - destruct (String.prefix e (String c stem +:+ e +:+ rest)) eqn:Hpre.
    + apply prefix_occurs in Hpre as [b Hb].
      specialize (Hfirst "" b Hb). simpl in Hfirst. lia.
    + rewrite !app_cons. f_equal. apply IH.
      intros a b Hab.
      specialize (Hfirst (String c a) b). rewrite !app_cons in Hfirst.
      rewrite Hab in Hfirst. specialize (Hfirst eq_refl).
      simpl in Hfirst. lia.
Qed.

(** the suffix getAssetName settles on *)

Lemma filter_first {A} (f : A -> bool) (l : list A) : forall i x,
  l !! i = Some x ->
  (forall j y, j < i -> l !! j = Some y -> f y = false) ->
  f x = true ->
  exists rest, List.filter f l = x :: rest.
Proof.
  induction l as [|a l IH]; intros i x Hi Hbefore Hx; [discriminate |].
  destruct i as [|i]; simpl in *.
  - injection Hi as ->. rewrite Hx. eauto.
  - rewrite (Hbefore 0 a) by (lia || reflexivity).
    apply (IH i x Hi); [| exact Hx].
    intros j y Hj Hy. apply (Hbefore (S j) y); [lia | exact Hy].
Qed.

Lemma lookup_In {A} (l : list A) i x : l !! i = Some x -> In x l.
Proof.
  revert i. induction l as [|a l IH]; intros i H; [discriminate |].
  destruct i as [|i]; simpl in *; [left; congruence | right; eauto].
Qed.

Lemma extensions_dotted s : In s extensions -> hasChar "." s = true.
Proof.
  unfold extensions. simpl.
  intros H; repeat (destruct H as [<- | H]; [reflexivity |]); contradiction.
Qed.

Lemma extensions_specific_first i j e s :
  extensions !! i = Some e -> extensions !! j = Some s -> i < j ->
  forall a b, s <> a +:+ e +:+ b.
Proof.
  intros Hi Hj Hlt. apply no_occurrence. revert Hi Hj Hlt.
  unfold extensions.
  do 10 (destruct i as [|i]; [intros [= <-];
    do 10 (destruct j as [|j]; [intros [= <-] ?; first [lia | reflexivity] |]);
    discriminate |]).
  discriminate.
Qed.

Lemma assetExt_listed assetPath i e :
  extensions !! i = Some e ->
  (forall j s, j < i -> extensions !! j = Some s ->
     forall a b, Path.basename assetPath <> a +:+ s +:+ b) ->
  (exists a b, Path.basename assetPath = a +:+ e +:+ b) ->
  assetExt assetPath = e.
Proof.
  intros Hi Hbefore Hocc. unfold assetExt. cbv zeta.
  destruct (filter_first (fun s => Str.includes (Path.basename assetPath) s)
              extensions i e Hi) as [rest ->].
  - intros j y Hj Hy. apply not_includes. exact (Hbefore j y Hj Hy).
  - apply includes_occurs, Hocc.
  - rewrite (extensions_nonempty e (lookup_In _ _ _ Hi)). reflexivity.
Qed.

Lemma assetExt_unlisted assetPath :
  (forall s a b, In s extensions -> Path.basename assetPath <> a +:+ s +:+ b) ->
  assetExt assetPath = Path.extname assetPath.
Proof.
  intros Hnone. unfold assetExt. cbv zeta.
  assert (List.filter (fun s => Str.includes (Path.basename assetPath) s)
            extensions = []) as ->; [| reflexivity].
  assert (forall l, (forall s, In s l -> In s extensions) ->
            List.filter (fun s => Str.includes (Path.basename assetPath) s) l
            = []) as Hall.
  { induction l as [|s l IH]; intros Hsub; [reflexivity |]. simpl.
    rewrite (not_includes _ s)
      by (intros a b; apply Hnone, Hsub; left; reflexivity).
    apply IH. intros t Ht. apply Hsub. right. exact Ht. }
  apply Hall. auto.
Qed.

(** path.extname *)

Lemma splitLastDot_none s :
  hasChar "." s = false -> Path.splitLastDot s = None.
Proof.
  induction s as [|c s IH]; [reflexivity |]. simpl.
  intros H. apply orb_false_iff in H as [Hc Hs].
  rewrite IH by assumption. rewrite Hc. reflexivity.
Qed.

Lemma splitLastDot_last stem x :
  hasChar "." x = false ->
  Path.splitLastDot (stem +:+ "." +:+ x) = Some (stem, "." +:+ x).
Proof.
  intros Hx. induction stem as [|c stem IH].
  - change ("" +:+ "." +:+ x) with (String "." x). simpl.
    rewrite splitLastDot_none by assumption. reflexivity.
  - rewrite app_cons. simpl. rewrite IH. reflexivity.
Qed.

Lemma extname_last assetPath stem x :
  Path.basename assetPath = stem +:+ "." +:+ x ->
  stem <> "" -> x <> "" -> hasChar "." x = false ->
  Path.extname assetPath = "." +:+ x.
Proof.
  intros Hbase Hstem Hx Hdot. unfold Path.extname. cbv zeta.
  rewrite Hbase, splitLastDot_last by assumption.
  destruct stem as [|c stem]; [congruence |].
  cbv beta iota delta [Str.isEmpty].
  destruct (Str.eqb (String c stem +:+ "." +:+ x) "..") eqn:E; [| reflexivity].
  apply String.eqb_eq in E. exfalso.
  destruct stem as [|d stem].
  - change (String c "" +:+ "." +:+ x) with (String c (String "." x)) in E.
    injection E as _ E. congruence.
  - rewrite !app_cons in E. injection E as _ _ E.
    destruct stem; discriminate E.
Qed.

Lemma extname_dotless assetPath :
  hasChar "." (Path.basename assetPath) = false -> Path.extname assetPath = "".
Proof.
  intros H. unfold Path.extname. cbv zeta.
  rewrite splitLastDot_none by assumption. reflexivity.
Qed.

(** the name put together *)

Lemma getAssetName_tags assetPath :
  getAssetName assetPath =
    Str.replace (Path.basename assetPath) (assetExt assetPath) ""
    +:+ debugTag assetPath
    +:+ archTag assetPath (assetExt assetPath)
    +:+ assetExt assetPath.
Proof.
  unfold getAssetName, debugTag. cbv zeta.
  change (Path.sep +:+ "debug" +:+ Path.sep) with debugSegment.
  rewrite assetArch_tag. fold (archTag assetPath (assetExt assetPath)).
  destruct (Str.includes assetPath debugSegment); reflexivity.
Qed.

Lemma archTag_unlisted assetPath x :
  hasChar "." x = false -> archTag assetPath ("." +:+ x) = "".
Proof.
  intros Hx. unfold archTag, isAppBundle.
  change ("." +:+ x) with (String "." x).
  destruct (Str.eqb (String "." x) ".app.tar.gz.sig") eqn:E1.
  { apply String.eqb_eq in E1. injection E1 as ->. discriminate Hx. }
  destruct (Str.eqb (String "." x) ".app.tar.gz") eqn:E2.
  { apply String.eqb_eq in E2. injection E2 as ->. discriminate Hx. }
  reflexivity.
Qed.

(* a listed entry occurs in the basename: the first such entry of the list
   is cut out at its first occurrence and appended after the tags *)
Lemma named_listed assetPath i e front back :
  extensions !! i = Some e ->
  (forall j s, j < i -> extensions !! j = Some s ->
     forall a b, Path.basename assetPath <> a +:+ s +:+ b) ->
  Path.basename assetPath = front +:+ e +:+ back ->
  (forall a b, Path.basename assetPath = a +:+ e +:+ b ->
     String.length front <= String.length a) ->
  getAssetName assetPath =
    (front +:+ back) +:+ debugTag assetPath +:+ archTag assetPath e +:+ e.
Proof.
  intros Hi Hbefore Hbase Hfirst.
  rewrite getAssetName_tags.
  rewrite (assetExt_listed assetPath i e Hi Hbefore) by eauto.
  rewrite Hbase, replace_at; [reflexivity |].
  rewrite <- Hbase. exact Hfirst.
Qed.

(* the basename ends in a listed entry and no listed entry occurs before
   it: the name is stem, tags, suffix *)
Lemma named_by_suffix assetPath e stem :
  In e extensions ->
  Path.basename assetPath = stem +:+ e ->
  (forall s a b, In s extensions ->
     Path.basename assetPath = a +:+ s +:+ b ->
     String.length stem <= String.length a) ->
  getAssetName assetPath =
    stem +:+ debugTag assetPath +:+ archTag assetPath e +:+ e.
Proof.
  intros Hin Hbase Hocc.
  apply list_elem_of_In, list_elem_of_lookup_1 in Hin as [i Hi].
  rewrite (named_listed assetPath i e stem "").
  - rewrite app_empty_r. reflexivity.
  - exact Hi.
  - intros j s Hj Hs a b Hab.
    pose proof (Hocc s a b (lookup_In _ _ _ Hs) Hab) as Hlen.
    rewrite Hbase in Hab.
    destruct (app_inv_head stem a e (s +:+ b) Hab Hlen) as (a' & _ & He).
    exact (extensions_specific_first j i s e Hs Hi Hj a' b He).
  - rewrite app_empty_r. exact Hbase.
  - intros a b Hab. exact (Hocc e a b (lookup_In _ _ _ Hi) Hab).
Qed.

(* no listed entry occurs: the extension of the file takes its place *)
Lemma named_by_extension assetPath stem x :
  (forall s a b, In s extensions -> Path.basename assetPath <> a +:+ s +:+ b) ->
  Path.basename assetPath = stem +:+ "." +:+ x ->
  stem <> "" -> x <> "" -> hasChar "." x = false ->
  (forall a b, Path.basename assetPath = a +:+ ("." +:+ x) +:+ b ->
     String.length stem <= String.length a) ->
  getAssetName assetPath = stem +:+ debugTag assetPath +:+ "." +:+ x.
Proof.
  intros Hnone Hbase Hstem Hx Hdot Hfirst.
  rewrite getAssetName_tags, (assetExt_unlisted _ Hnone).
  rewrite (extname_last assetPath stem x) by assumption.
  rewrite archTag_unlisted by assumption.
  pose proof (replace_at stem ("." +:+ x) "" "") as Hrep.
  rewrite !app_empty_r in Hrep.
  rewrite Hbase. change (stem +:+ "." +:+ x) with (stem +:+ ("." +:+ x)).
  rewrite Hrep; [reflexivity |].
  intros a b Hab. apply (Hfirst a b). rewrite Hbase. exact Hab.
Qed.

Lemma named_without_extension assetPath :
  hasChar "." (Path.basename assetPath) = false ->
  getAssetName assetPath = Path.basename assetPath +:+ debugTag assetPath.
Proof.
  intros Hdot.
  assert (forall s a b, In s extensions ->
            Path.basename assetPath <> a +:+ s +:+ b) as Hnone.
  { intros s a b Hin Hs.
    rewrite (occurs_hasChar "." _ s a b Hs (extensions_dotted s Hin)) in Hdot.
    discriminate. }
  rewrite getAssetName_tags, (assetExt_unlisted _ Hnone).
  rewrite extname_dotless by assumption.
  rewrite replace_empty. unfold archTag. simpl.
  rewrite app_empty_r. reflexivity.
Qed.

End AssetName.

(** C7. The suffix list runs from the most specific entry to the least: no
    entry occurs inside a later one.  When the basename ends in a listed
    entry and no listed entry occurs before it, getAssetName answers stem,
    -debug when the path has a /debug/ segment, the architecture tag
    (_universal, else _aarch64, else _x64, by markers in the whole path)
    for .app.tar.gz and .app.tar.gz.sig only, and the suffix; when no
    listed entry occurs at all the extension of the file stands in for the
    suffix.  So a debug build of MyApp.app.tar.gz under an ARM64 target
    directory is named MyApp-debug_aarch64.app.tar.gz, and MyApp.msi keeps
    its name.  But the entry is looked for anywhere in the basename, first
    listed entry first, and is cut out where it first occurs:
    my.debugger_1.0.0_amd64.deb, which ends in the listed suffix .deb, is
    named myugger_1.0.0_amd64.deb.deb, and App.msi.tar.gz, which ends in no
    listed suffix, is named App.tar.gz.msi. *)
Theorem getAssetName_matches_anywhere :
  (forall i j e s a b,
      extensions !! i = Some e -> extensions !! j = Some s -> i < j ->
      s <> a +:+ e +:+ b)
  /\ (forall assetPath e stem,
        In e extensions ->
        Path.basename assetPath = stem +:+ e ->
        (forall s a b, In s extensions ->
           Path.basename assetPath = a +:+ s +:+ b ->
           String.length stem <= String.length a) ->
        getAssetName assetPath =
          stem +:+ debugTag assetPath +:+ archTag assetPath e +:+ e)
  /\ (forall assetPath stem x,
        (forall s a b, In s extensions ->
           Path.basename assetPath <> a +:+ s +:+ b) ->
        Path.basename assetPath = stem +:+ "." +:+ x ->
        stem <> "" -> x <> "" -> hasChar "." x = false ->
        (forall a b, Path.basename assetPath = a +:+ ("." +:+ x) +:+ b ->
           String.length stem <= String.length a) ->
        getAssetName assetPath = stem +:+ debugTag assetPath +:+ "." +:+ x)
  /\ (forall assetPath,
        hasChar "." (Path.basename assetPath) = false ->
        getAssetName assetPath = Path.basename assetPath +:+ debugTag assetPath)
  /\ (forall assetPath,
        Path.basename assetPath = "MyApp.app.tar.gz" ->
        Str.includes assetPath debugSegment = true ->
        Str.includes assetPath "aarch64-apple-darwin" = true ->
        Str.includes assetPath "universal-apple-darwin" = false ->
        getAssetName assetPath = "MyApp-debug_aarch64.app.tar.gz")
  /\ (forall assetPath,
        Path.basename assetPath = "MyApp.msi" ->
        Str.includes assetPath debugSegment = false ->
        getAssetName assetPath = "MyApp.msi")
  /\ (forall assetPath i e front back,
        extensions !! i = Some e ->
        (forall j s, j < i -> extensions !! j = Some s ->
           forall a b, Path.basename assetPath <> a +:+ s +:+ b) ->
        Path.basename assetPath = front +:+ e +:+ back ->
        (forall a b, Path.basename assetPath = a +:+ e +:+ b ->
           String.length front <= String.length a) ->
        getAssetName assetPath =
          (front +:+ back) +:+ debugTag assetPath +:+ archTag assetPath e
          +:+ e)
  /\ (Path.basename More.debuggerPackage = "my.debugger_1.0.0_amd64" +:+ ".deb"
      /\ getAssetName More.debuggerPackage = "myugger_1.0.0_amd64.deb.deb")
  /\ (Path.basename "/x/App.msi.tar.gz" = "App.msi.tar" +:+ ".gz"
      /\ getAssetName "/x/App.msi.tar.gz" = "App.tar.gz.msi").
Proof.
  split; [intros i j e s a b Hi Hj Hlt;
          exact (extensions_specific_first i j e s Hi Hj Hlt a b) |].
  split; [exact named_by_suffix |].
  split; [exact named_by_extension |].
  split; [exact named_without_extension |].
  split.
  { intros assetPath Hbase Hdebug Harm Huni.
    rewrite (named_by_suffix assetPath ".app.tar.gz" "MyApp").
    - unfold debugTag, archTag. rewrite Hdebug, Huni, Harm. reflexivity.
    - unfold extensions. simpl. tauto.
    - exact Hbase.
    - intros s a b Hin Hab. rewrite Hbase in Hab.
      apply (occursBefore_none (String.length "MyApp") _ _ a b) in Hab;
        [exact Hab |].
      clear Hab. revert s Hin. apply (proj1 (List.Forall_forall _ extensions)).
      repeat constructor. }
  split.
  { intros assetPath Hbase Hdebug.
    rewrite (named_by_suffix assetPath ".msi" "MyApp").
    - unfold debugTag. rewrite Hdebug. reflexivity.
    - unfold extensions. simpl. tauto.
    - exact Hbase.
    - intros s a b Hin Hab. rewrite Hbase in Hab.
      apply (occursBefore_none (String.length "MyApp") _ _ a b) in Hab;
        [exact Hab |].
      clear Hab. revert s Hin. apply (proj1 (List.Forall_forall _ extensions)).
      repeat constructor. }
  split; [exact named_listed |].
  split; split; reflexivity.
Qed.

Lemma getAssetName_matches_anywhere_witness :
  getAssetName More.macBundle = "MyApp-debug_aarch64.app.tar.gz"
  /\ getAssetName More.macSignature = "MyApp_universal.app.tar.gz.sig"
  /\ getAssetName "MyApp.msi" = "MyApp.msi"
  /\ getAssetName More.debPackage = "my-app_1.0.0_amd64-debug.deb"
  /\ getAssetName "/repo/target/debug/notes.txt" = "notes-debug.txt"
  /\ getAssetName "/repo/target/debug/LICENSE" = "LICENSE-debug"
  /\ getAssetName More.debuggerPackage = "myugger_1.0.0_amd64.deb.deb".
Proof.
  pose proof getAssetName_matches_anywhere
    as (_ & Hsuffix & Hextension & Hbare & Hmac & Hmsi & Hlisted & _).
  split; [apply (Hmac More.macBundle); reflexivity |].
  split.
  { rewrite (Hsuffix More.macSignature ".app.tar.gz.sig" "MyApp").
    - reflexivity.
    - unfold extensions. simpl. tauto.
    - reflexivity.
    - intros s a b Hin Hab.
      apply (occursBefore_none (String.length "MyApp") _ _ a b) in Hab;
        [exact Hab |].
      clear Hab. revert s Hin. apply (proj1 (List.Forall_forall _ extensions)).
      repeat constructor. }
  split; [apply (Hmsi "MyApp.msi"); reflexivity |].
  split.
  { rewrite (Hsuffix More.debPackage ".deb" "my-app_1.0.0_amd64").
    - reflexivity.
    - unfold extensions. simpl. tauto.
    - reflexivity.
    - intros s a b Hin Hab.
      apply (occursBefore_none (String.length "my-app_1.0.0_amd64") _ _ a b)
        in Hab; [exact Hab |].
      clear Hab. revert s Hin. apply (proj1 (List.Forall_forall _ extensions)).
      repeat constructor. }
  split.
  { rewrite (Hextension "/repo/target/debug/notes.txt" "notes" "txt").
    - reflexivity.
    - intros s a b Hin. apply no_occurrence. revert s Hin.
      apply (proj1 (List.Forall_forall _ extensions)). repeat constructor.
    - reflexivity.
    - discriminate.
    - discriminate.
    - reflexivity.
    - intros a b Hab.
      apply (occursBefore_none (String.length "notes") _ _ a b) in Hab;
        [exact Hab | reflexivity]. }
  split; [apply (Hbare "/repo/target/debug/LICENSE"); reflexivity |].
  rewrite (Hlisted More.debuggerPackage 6 ".deb" "my"
             "ugger_1.0.0_amd64.deb").
  - reflexivity.
  - reflexivity.
  - intros j s Hj Hs. apply no_occurrence.
    do 6 (destruct j as [|j]; [injection Hs as <-; reflexivity |]). lia.
  - reflexivity.
  - intros a b Hab.
    apply (occursBefore_none (String.length "my") _ _ a b) in Hab;
      [exact Hab | reflexivity].
Defined.

(* --------------------------------------------------------------------- *)
(* The upward walk of parent directories                                 *)
(* --------------------------------------------------------------------- *)
Section PathFacts.

Lemma normSegs_stack b segs acc :
  Path.normSegs b segs acc = rev (segStack b segs acc).
Proof.
  revert acc. induction segs as [|s rest IH]; intros acc; simpl.
  - reflexivity.
  - destruct (Str.eqb s "" || Str.eqb s "."); [apply IH |].
    destruct (Str.eqb s ".."); [| apply IH].
    destruct acc as [|top acc']; [apply IH |].
    destruct (Str.eqb top ".."); apply IH.
Qed.

Lemma segStack_app b l1 l2 acc :
  segStack b (l1 ++ l2) acc = segStack b l2 (segStack b l1 acc).
Proof.
  revert acc. induction l1 as [|s rest IH]; intros acc; simpl.
  - reflexivity.
  - destruct (Str.eqb s "" || Str.eqb s "."); [apply IH |].
    destruct (Str.eqb s ".."); [| apply IH].
    destruct acc as [|top acc']; [apply IH |].
    destruct (Str.eqb top ".."); apply IH.
Qed.

Lemma eqb_false_neq a b : Str.eqb a b = false -> a <> b.
Proof. unfold Str.eqb. apply String.eqb_neq. Qed.

Lemma neq_eqb_false a b : a <> b -> Str.eqb a b = false.
Proof. unfold Str.eqb. apply String.eqb_neq. Qed.

(* below the root the stack only ever holds clean segments *)
Lemma segStack_clean segs acc :
  Forall (fun s => hasChar Path.sepChar s = false) segs ->
  Forall cleanSeg acc ->
  Forall cleanSeg (segStack false segs acc).
Proof.
  revert acc. induction segs as [|s rest IH]; intros acc Hsegs Hacc; simpl.
  - exact Hacc.
  - inversion Hsegs as [|? ? Hs Hrest]; subst.
    destruct (Str.eqb s "") eqn:E1; simpl; [apply IH; assumption |].
    destruct (Str.eqb s ".") eqn:E2; simpl; [apply IH; assumption |].
    destruct (Str.eqb s "..") eqn:E3.
    + destruct acc as [|top acc']; [apply IH; assumption |].
      inversion Hacc; subst.
      destruct (Str.eqb top ".."); apply IH; assumption.
    + apply IH; [assumption |]. constructor; [| assumption].
      repeat split; auto using eqb_false_neq.
Qed.

Lemma segStack_length b segs acc :
  length (segStack b segs acc) <= length segs + length acc.
Proof.
  revert acc. induction segs as [|s rest IH]; intros acc; simpl.
  - lia.
  - destruct (Str.eqb s "" || Str.eqb s ".").
    { specialize (IH acc). lia. }
    destruct (Str.eqb s "..").
    + destruct acc as [|top acc'].
      * destruct b; [specialize (IH [".."]) | specialize (IH [])];
          simpl in *; lia.
      * destruct (Str.eqb top "..").
        -- destruct b;
             [specialize (IH (".." :: top :: acc'))
             | specialize (IH (top :: acc'))]; simpl in *; lia.
        -- specialize (IH acc'). simpl in *. lia.
    + specialize (IH (s :: acc)). simpl in *. lia.
Qed.

(* clean segments are pushed as they are *)
Lemma segStack_push b segs acc :
  Forall cleanSeg segs -> segStack b segs acc = rev segs ++ acc.
Proof.
  revert acc. induction segs as [|s rest IH]; intros acc H; simpl.
  - reflexivity.
  - inversion H as [|? ? (H1 & H2 & H3 & _) Hrest]; subst.
    rewrite (neq_eqb_false _ _ H1), (neq_eqb_false _ _ H2),
      (neq_eqb_false _ _ H3). simpl.
    rewrite IH by assumption. rewrite <- app_assoc. reflexivity.
Qed.

(** Str.split and Str.join *)

Lemma split_nonempty c s : Str.split c s <> [].
Proof.
  destruct s as [|x r]; simpl; [discriminate |].
  destruct (Ascii.eqb x c); [discriminate |].
  destruct (Str.split c r); discriminate.
Qed.

Lemma split_app_sep c a b :
  Str.split c (a +:+ String c b) = Str.split c a ++ Str.split c b.
Proof.
  induction a as [|x a IH]; simpl.
  - rewrite Ascii.eqb_refl. reflexivity.
  - destruct (Ascii.eqb x c); [rewrite IH; reflexivity |].
    rewrite IH.
    destruct (Str.split c a) eqn:E; [| reflexivity].
    exfalso. exact (split_nonempty _ _ E).
Qed.

Lemma split_noSep c s : hasChar c s = false -> Str.split c s = [s].
Proof.
  induction s as [|x r IH]; simpl; [reflexivity |].
  intros H. apply orb_false_iff in H as [Hx Hr].
  rewrite Hx, IH by assumption. reflexivity.
Qed.

Lemma split_hasChar c s :
  Forall (fun t => hasChar c t = false) (Str.split c s).
Proof.
  induction s as [|x r IH]; simpl.
  - repeat constructor.
  - destruct (Ascii.eqb x c) eqn:E.
    + constructor; [reflexivity | exact IH].
    + destruct (Str.split c r) as [|h t].
      * repeat constructor. simpl. rewrite E. reflexivity.
      * inversion IH; subst. constructor; [| assumption].
        simpl. rewrite E. assumption.
Qed.

Lemma split_length c s : length (Str.split c s) <= S (String.length s).
Proof.
  induction s as [|x r IH]; simpl; [lia |].
  destruct (Ascii.eqb x c); simpl; [lia |].
  destruct (Str.split c r); simpl in *; lia.
Qed.

Lemma join_cons_cons sepStr p q rest :
  Str.join sepStr (p :: q :: rest)
  = p +:+ sepStr +:+ Str.join sepStr (q :: rest).
Proof. reflexivity. Qed.

Lemma split_join segs :
  segs <> [] ->
  Forall (fun t => hasChar Path.sepChar t = false) segs ->
  Str.split Path.sepChar (Str.join Path.sep segs) = segs.
Proof.
  induction segs as [|p rest IH]; [congruence |].
  intros _ H. inversion H as [|? ? Hp Hrest]; subst.
  destruct rest as [|q rest].
  - simpl. apply split_noSep. assumption.
  - rewrite join_cons_cons.
    change (Path.sep +:+ Str.join Path.sep (q :: rest))
      with (String Path.sepChar (Str.join Path.sep (q :: rest))).
    rewrite split_app_sep, split_noSep by assumption.
    rewrite IH by (assumption || discriminate). reflexivity.
Qed.

(** the last character *)

Lemma lastChar_app a b :
  b <> "" -> Str.lastChar (a +:+ b) = Str.lastChar b.
Proof.
  intros Hb. induction a as [|x a IH]; simpl; [reflexivity |].
  rewrite IH. destruct (a +:+ b) eqn:E; [| reflexivity].
  destruct a as [|y a'];
    [change (b = "") in E; congruence
    | change (String y (a' +:+ b) = "") in E; discriminate].
Qed.

Lemma lastChar_noSep s :
  s <> "" -> hasChar Path.sepChar s = false ->
  exists c, Str.lastChar s = Some c /\ Ascii.eqb c Path.sepChar = false.
Proof.
  induction s as [|x r IH]; [congruence |].
  intros _ H. simpl in H. apply orb_false_iff in H as [Hx Hr].
  destruct r as [|y r'].
  - exists x. split; [reflexivity | assumption].
  - destruct IH as (c & Hc & Hne); [discriminate | assumption |].
    exists c. split; [| assumption]. simpl in *. exact Hc.
Qed.

Lemma lastChar_join segs :
  segs <> [] -> Forall cleanSeg segs ->
  exists c,
    Str.lastChar (Str.join Path.sep segs) = Some c
    /\ Ascii.eqb c Path.sepChar = false.
Proof.
  induction segs as [|p rest IH]; [congruence |].
  intros _ H. inversion H as [|? ? (Hp & _ & _ & Hs) Hrest]; subst.
  destruct rest as [|q rest].
  - simpl. apply lastChar_noSep; assumption.
  - destruct IH as (c & Hc & Hne); [discriminate | assumption |].
    exists c. split; [| assumption].
    rewrite join_cons_cons, lastChar_app, lastChar_app; try assumption.
    + intros E. rewrite E in Hc. discriminate.
    + discriminate.
Qed.

(** the parent directory, as the loops compute it *)

Lemma join_empty_iff segs :
  Forall cleanSeg segs ->
  Str.isEmpty (Str.join Path.sep segs) = match segs with [] => true | _ => false end.
Proof.
  destruct segs as [|p rest]; [reflexivity |].
  intros H. inversion H as [|? ? (Hp & _) _]; subst.
  destruct rest; simpl; destruct p; simpl; congruence.
Qed.

Lemma normalize_absPath segs :
  Forall cleanSeg segs -> Path.normalize (absPath segs) = absPath segs.
Proof.
  intros Hclean. destruct segs as [|p rest]; [reflexivity |].
  assert (Forall (fun t => hasChar Path.sepChar t = false) (p :: rest)) as Hns.
  { eapply Forall_impl; [exact Hclean |]. intros t Ht. apply Ht. }
  destruct (lastChar_join (p :: rest)) as (c & Hc & Hne);
    [discriminate | assumption |].
  unfold Path.normalize, absPath.
  change ("/" +:+ Str.join Path.sep (p :: rest))
    with (String Path.sepChar (Str.join Path.sep (p :: rest))).
  cbv beta iota zeta delta [Str.isEmpty Path.isAbsolute negb].
  rewrite Ascii.eqb_refl.
  assert (Path.hasTrailingSep
            (String Path.sepChar (Str.join Path.sep (p :: rest))) = false)
    as ->.
  { unfold Path.hasTrailingSep.
    change (String Path.sepChar (Str.join Path.sep (p :: rest)))
      with ("/" +:+ Str.join Path.sep (p :: rest)).
    rewrite lastChar_app, Hc; [exact Hne |].
    intros E. rewrite E in Hc. discriminate. }
  assert (Path.normalizeString
            (String Path.sepChar (Str.join Path.sep (p :: rest))) false
          = Str.join Path.sep (p :: rest)) as ->.
  { unfold Path.normalizeString.
    change (String Path.sepChar (Str.join Path.sep (p :: rest)))
      with ("" +:+ String Path.sepChar (Str.join Path.sep (p :: rest))).
    rewrite split_app_sep, split_join by (assumption || discriminate).
    rewrite normSegs_stack.
    change (segStack false (Str.split Path.sepChar "" ++ p :: rest) [])
      with (segStack false (p :: rest) []).
    rewrite segStack_push, app_nil_r, rev_involutive by assumption.
    reflexivity. }
  pose proof (join_empty_iff (p :: rest) Hclean) as Hj. simpl in Hj.
  destruct (Str.join Path.sep (p :: rest)); [discriminate | reflexivity].
Qed.

Lemma parentDir_absolute dir :
  Path.isAbsolute dir = true ->
  parentDir dir
  = absOfStack (tail (segStack false (Str.split Path.sepChar dir) []))
  /\ Forall cleanSeg (tail (segStack false (Str.split Path.sepChar dir) [])).
Proof.
  intros Habs.
  set (stack := segStack false (Str.split Path.sepChar dir) []).
  assert (Forall cleanSeg stack) as Hstack.
  { apply segStack_clean; [apply split_hasChar | constructor]. }
  assert (Forall cleanSeg (tail stack)) as Htail.
  { destruct stack; [constructor | inversion Hstack; assumption]. }
  split; [| exact Htail].
  assert (Path.join [dir; ".."] = absOfStack (tail stack)) as Hjoin.
  { destruct dir as [|c d']; [discriminate |].
    unfold Path.join.
    change (List.filter (fun a => negb (Str.isEmpty a)) [String c d'; ".."])
      with [String c d'; ".."].
    change (Str.join Path.sep [String c d'; ".."])
      with (String c (d' +:+ String Path.sepChar "..")).
    cbv beta iota zeta delta [Str.isEmpty Path.normalize negb].
    change (Path.isAbsolute (String c (d' +:+ String Path.sepChar "..")))
      with (Path.isAbsolute (String c d')).
    rewrite Habs.
    assert (Path.hasTrailingSep (String c (d' +:+ String Path.sepChar ".."))
            = false) as ->.
    { unfold Path.hasTrailingSep.
      change (String c (d' +:+ String Path.sepChar ".."))
        with (String c d' +:+ "/..").
      rewrite lastChar_app by discriminate. reflexivity. }
    assert (Path.normalizeString
              (String c (d' +:+ String Path.sepChar "..")) false
            = Str.join Path.sep (rev (tail stack))) as ->.
    { unfold Path.normalizeString.
      change (String c (d' +:+ String Path.sepChar ".."))
        with (String c d' +:+ String Path.sepChar "..").
      rewrite split_app_sep, normSegs_stack, segStack_app.
      fold stack. f_equal. f_equal.
      destruct stack as [|top rest]; [reflexivity |].
      inversion Hstack as [|? ? (_ & _ & Htop & _) _]; subst.
      simpl. rewrite (neq_eqb_false _ _ Htop). reflexivity. }
    pose proof (join_empty_iff (rev (tail stack))) as Hj.
    unfold Str.isEmpty in Hj.
    rewrite Hj by (apply Forall_rev; exact Htail).
    unfold absOfStack, absPath.
    destruct (rev (tail stack)); reflexivity. }
  unfold parentDir. rewrite Hjoin. unfold absOfStack.
  apply normalize_absPath, Forall_rev, Htail.
Qed.

Lemma split_absOfStack stack :
  Forall cleanSeg stack ->
  segStack false (Str.split Path.sepChar (absOfStack stack)) [] = stack.
Proof.
  intros Hclean. unfold absOfStack, absPath.
  assert (Forall cleanSeg (rev stack)) as Hrev by (apply Forall_rev, Hclean).
  destruct (rev stack) as [|p rest] eqn:E.
  - apply (f_equal (@rev string)) in E. rewrite rev_involutive in E.
    subst stack. reflexivity.
  - change ("/" +:+ Str.join Path.sep (p :: rest))
      with ("" +:+ String Path.sepChar (Str.join Path.sep (p :: rest))).
    rewrite split_app_sep, split_join.
    + change (segStack false (Str.split Path.sepChar "" ++ p :: rest) [])
        with (segStack false (p :: rest) []).
      rewrite segStack_push, app_nil_r by assumption.
      rewrite <- E. apply rev_involutive.
    + discriminate.
    + eapply Forall_impl; [exact Hrev |]. intros t Ht. apply Ht.
Qed.

Lemma parentDir_absOfStack stack :
  Forall cleanSeg stack -> parentDir (absOfStack stack) = absOfStack (tail stack).
Proof.
  intros Hclean.
  destruct (parentDir_absolute (absOfStack stack)) as [Heq _];
    [reflexivity |].
  rewrite Heq, split_absOfStack by assumption. reflexivity.
Qed.

End PathFacts.

(* --------------------------------------------------------------------- *)
(* Info resolution                                                       *)
(* --------------------------------------------------------------------- *)

Lemma bind_Ret {A B} (a : A) (k : A -> outcome B) : (Ret a ≫= k) = k a.
Proof. reflexivity. Qed.

Lemma bind_Throw {A B} (e : error) (k : A -> outcome B) :
  (Throw e ≫= k) = Throw e.
Proof. reflexivity. Qed.

Ltac ret_steps := repeat (rewrite bind_Ret; cbv beta iota).

Lemma get_defined_object k o :
  Js.get k o <> VUndef -> exists isArray props, o = VObj isArray props.
Proof. destruct o; simpl; try congruence. eauto. Qed.

Lemma get_truthy_object k o :
  Js.truthy (Js.get k o) = true -> Js.isNullish o = false.
Proof. destruct o; simpl; congruence. Qed.

Lemma get_truthy_truthy k o :
  Js.truthy (Js.get k o) = true -> Js.truthy o = true.
Proof. destruct o; simpl; congruence. Qed.

Lemma member_get k o :
  Js.isNullish o = false -> member k o = Ret (Js.get k o).
Proof. unfold member. intros ->. reflexivity. Qed.

Lemma member_object k isArray props :
  member k (VObj isArray props) = Ret (Js.lookup k props).
Proof. reflexivity. Qed.

Section InfoFacts.

Variable cwd : string.
Variable JSON_parse JSON5_parse parseToml : string -> error + value.
Variable globSync : fsT -> string -> string -> list string -> list string.

#[local] Abbreviation getTauriDir' := (getTauriDir cwd globSync).
#[local] Abbreviation getPackageJson' := (getPackageJson cwd JSON_parse).
#[local] Abbreviation getConfig' := (getConfig cwd JSON_parse JSON5_parse).
#[local] Abbreviation configCandidates' := (configCandidates cwd JSON_parse).
#[local] Abbreviation manifestFill' := (manifestFill cwd parseToml).
#[local] Abbreviation getInfo' :=
  (getInfo cwd JSON_parse JSON5_parse parseToml globSync).

Lemma readFileSync_exists fs p c :
  readFileSync cwd fs p = Ret c -> existsSync cwd fs p = true.
Proof.
  unfold readFileSync, existsSync.
  destruct (fs !! fsKey cwd p) as [[|]|]; congruence.
Qed.


Lemma getPackageJson_present root fs contents manifest :
  readFileSync cwd fs (packageJsonPath root) = Ret contents ->
  JSON_parse contents = inr manifest ->
  getPackageJson' root fs = Ret manifest.
Proof.
  intros Hread Hparse. unfold getPackageJson. fold (packageJsonPath root).
  rewrite (readFileSync_exists _ _ _ Hread), Hread, bind_Ret, Hparse.
  reflexivity.
Qed.

(* the else branch of getInfo, lines 222-234 *)
Lemma getInfo_fallback root inConfigPath fs :
  getTauriDir' root fs = Ret None ->
  getInfo' root inConfigPath fs =
    (packageJson ← getPackageJson' root fs;
     appName ←
       (if Js.truthy packageJson then
          callReplaceSpaces
            (Js.or (Js.get "displayName" packageJson)
                   (Js.get "name" packageJson))
        else Ret (VStr "app"));
     Ret {| tauriPath := None;
            name := appName;
            version := if Js.truthy packageJson
                       then Js.get "version" packageJson else VStr "0.1.0";
            wixLanguage := VStr "en-US" |}).
Proof. intros H. unfold getInfo. rewrite H. reflexivity. Qed.

(* the then branch of getInfo, lines 184-221, once the config is read *)
Lemma getInfo_native root inConfigPath fs tauriDir config package :
  getTauriDir' root fs = Ret (Some tauriDir) ->
  getConfig' (default (Path.join [tauriDir; "tauri.conf.json"]) inConfigPath)
    fs = Ret config ->
  member "package" config = Ret package ->
  getInfo' root inConfigPath fs =
    ('(name, version) ← configCandidates' tauriDir package fs;
     '(name, version) ← manifestFill' tauriDir name version fs;
     if negb (Js.truthy name && Js.truthy version) then Exit 1
     else Ret {| tauriPath := Some tauriDir;
                 name := name;
                 version := version;
                 wixLanguage := resolvedLanguage config |}).
Proof.
  intros Hdir Hcfg Hpkg. unfold getInfo.
  rewrite Hdir, bind_Ret, Hcfg, bind_Ret, Hpkg, bind_Ret.
  assert (wixLanguageOf config =
          Ret (Js.optGet "language" (Js.optGet "wix" (Js.optGet "windows"
                 (Js.optGet "bundle" (Js.get "tauri" config)))))) as Hlang.
  { unfold wixLanguageOf, member in *.
    destruct (Js.isNullish config); [discriminate | reflexivity]. }
  destruct (configCandidates' tauriDir package fs) as [[n0 v0] | |];
    [| reflexivity | reflexivity].
  ret_steps.
  destruct (manifestFill' tauriDir n0 v0 fs) as [[n1 v1] | |];
    [| reflexivity | reflexivity].
  ret_steps. rewrite Hlang. reflexivity.
Qed.

(* Cargo.toml only fills what the config left unset *)
Lemma manifestFill_keeps tauriDir name version fs name' version' :
  manifestFill' tauriDir name version fs = Ret (name', version') ->
  (Js.truthy name = true -> name' = name)
  /\ (Js.truthy version = true -> version' = version).
Proof.
  unfold manifestFill.
  destruct (Js.truthy name) eqn:Hn, (Js.truthy version) eqn:Hv; simpl;
    try (intros [= <- <-]; split; congruence);
    destruct (readFileSync cwd fs (Path.join [tauriDir; "Cargo.toml"]));
    simpl; try discriminate;
    destruct (parseToml a) as [e | cargo]; simpl; try discriminate;
    destruct (member "package" cargo) as [package | |]; simpl;
    try discriminate.
  - destruct (member "version" package); simpl; try discriminate.
    intros [= <- <-]. split; congruence.
  - destruct (member "name" package); simpl; try discriminate.
    intros [= <- <-]. split; congruence.
  - destruct (member "name" package); simpl; try discriminate.
    destruct (member "version" package); simpl; try discriminate.
    intros [= <- <-]. split; congruence.
Qed.

(* the else branch once package.json is read *)
Lemma getInfo_of_manifest root inConfigPath fs contents manifest :
  getTauriDir' root fs = Ret None ->
  readFileSync cwd fs (packageJsonPath root) = Ret contents ->
  JSON_parse contents = inr manifest ->
  getInfo' root inConfigPath fs =
    (appName ←
       (if Js.truthy manifest then
          callReplaceSpaces
            (Js.or (Js.get "displayName" manifest) (Js.get "name" manifest))
        else Ret (VStr "app"));
     Ret {| tauriPath := None;
            name := appName;
            version := if Js.truthy manifest
                       then Js.get "version" manifest else VStr "0.1.0";
            wixLanguage := VStr "en-US" |}).
Proof.
  intros Hdir Hread Hparse.
  rewrite getInfo_fallback by assumption.
  rewrite (getPackageJson_present _ _ _ _ Hread Hparse), bind_Ret.
  reflexivity.
Qed.


(** C10 (as the code has it). With no native-project directory and a JS
    manifest file present, what decides is the value the file parses to.
    A truthy value (any object) whose displayName is falsy and whose name
    is undefined or null makes getInfo throw a TypeError: the hyphen
    substitution is applied to an absent value; and whatever name getInfo
    returns for a truthy manifest is the hyphenated displayName or name,
    never the default.  A falsy value (null, false, 0, the empty string)
    is treated like a missing file: nothing is thrown and the answer is
    the "app" default. *)
Theorem getInfo_manifest_without_name_throws
    root inConfigPath fs contents manifest :
  getTauriDir' root fs = Ret None ->
  readFileSync cwd fs (packageJsonPath root) = Ret contents ->
  JSON_parse contents = inr manifest ->
  (Js.truthy manifest = true ->
   Js.truthy (Js.get "displayName" manifest) = false ->
   Js.isNullish (Js.get "name" manifest) = true ->
   getInfo' root inConfigPath fs = Throw (TypeError "Cannot read properties"))
  /\ (Js.truthy manifest = true ->
      forall info,
        getInfo' root inConfigPath fs = Ret info ->
        exists s,
          name info = VStr (Str.replaceAllChar s " " "-")
          /\ (Js.get "displayName" manifest = VStr s /\ s <> ""
              \/ Js.truthy (Js.get "displayName" manifest) = false
                 /\ Js.get "name" manifest = VStr s))
  /\ (Js.truthy manifest = false ->
      getInfo' root inConfigPath fs = Ret defaultInfo).
Proof.
  intros Hdir Hread Hparse.
  pose proof (getInfo_of_manifest root inConfigPath fs contents manifest
                Hdir Hread Hparse) as Heq.
  split; [| split].
  - intros Htruthy Hdn Hn. rewrite Heq, Htruthy. unfold Js.or. rewrite Hdn.
    destruct (Js.get "name" manifest); try discriminate Hn; reflexivity.
  - intros Htruthy info Hinfo. rewrite Heq, Htruthy in Hinfo.
    unfold Js.or in Hinfo.
    destruct (Js.truthy (Js.get "displayName" manifest)) eqn:Hdn.
    + destruct (Js.get "displayName" manifest) as [| | | | d |] eqn:Hd;
        simpl in Hinfo; try discriminate Hinfo.
      injection Hinfo as <-. exists d. split; [reflexivity |].
      left. split; [reflexivity |]. intros ->. discriminate Hdn.
    + destruct (Js.get "name" manifest) as [| | | | n |] eqn:Hn;
        simpl in Hinfo; try discriminate Hinfo.
      injection Hinfo as <-. exists n. split; [reflexivity |].
      right. split; reflexivity.
  - intros Hfalsy. rewrite Heq, Hfalsy. reflexivity.
Qed.

(** C4. When the config's package table sets only a version (a plain
    version string) and Cargo.toml sets both name and version, getInfo
    takes the version from the config and the name from Cargo.toml; and in
    every run a name or version obtained from the config is the one
    returned, whatever Cargo.toml holds. *)
Theorem getInfo_precedence root inConfigPath fs tauriDir config :
  getTauriDir' root fs = Ret (Some tauriDir) ->
  getConfig' (default (Path.join [tauriDir; "tauri.conf.json"]) inConfigPath)
    fs = Ret config ->
  (forall v manifestContents cargoManifest manifestName manifestVersion,
      Js.get "productName" (Js.get "package" config) = VUndef ->
      Js.get "version" (Js.get "package" config) = VStr v ->
      Str.isEmpty v = false ->
      Str.endsWith v ".json" = false ->
      readFileSync cwd fs (Path.join [tauriDir; "Cargo.toml"])
        = Ret manifestContents ->
      parseToml manifestContents = inr cargoManifest ->
      Js.get "name" (Js.get "package" cargoManifest) = manifestName ->
      Js.get "version" (Js.get "package" cargoManifest) = manifestVersion ->
      Js.truthy manifestName = true ->
      Js.truthy manifestVersion = true ->
      getInfo' root inConfigPath fs =
        Ret {| tauriPath := Some tauriDir;
               name := manifestName;
               version := VStr v;
               wixLanguage := resolvedLanguage config |})
  /\ (forall package name0 version0 info,
        member "package" config = Ret package ->
        configCandidates' tauriDir package fs = Ret (name0, version0) ->
        getInfo' root inConfigPath fs = Ret info ->
        (Js.truthy name0 = true -> name info = name0)
        /\ (Js.truthy version0 = true -> version info = version0)).
Proof.
  intros Hdir Hcfg. split.
  - intros v mc cargo mname mversion Hpn Hver Hne Hjson Hread Hparse
      Hmn Hmv Htn Htv.
    destruct (get_defined_object "version" (Js.get "package" config))
      as (pa & pprops & Hpkg); [congruence |].
    destruct (get_defined_object "package" config) as (ca & cprops & ->);
      [congruence |].
    simpl in Hpkg.
    rewrite (getInfo_native _ _ _ _ _ _ Hdir Hcfg (member_object _ _ _)), Hpkg.
    simpl in Hpn, Hver. rewrite Hpkg in Hpn, Hver. simpl in Hpn, Hver.
    unfold configCandidates. simpl Js.truthy. cbv iota.
    simpl Js.get. rewrite Hpn, Hver. simpl callEndsWith.
    rewrite bind_Ret, Hjson, bind_Ret. cbv beta iota.
    unfold manifestFill. simpl Js.truthy. simpl negb. cbv iota.
    rewrite Hread, bind_Ret, Hparse. simpl ofParse. rewrite bind_Ret.
    subst mname mversion.
    rewrite (member_get "package" cargo)
      by (eapply get_truthy_object, get_truthy_truthy; eassumption).
    ret_steps.
    rewrite (member_get "name") by (eapply get_truthy_object; eassumption).
    rewrite Hne. simpl negb. cbv iota. ret_steps.
    rewrite Htn. simpl. rewrite Hne. reflexivity.
  - intros package name0 version0 info Hpkg Hcand Hinfo.
    rewrite (getInfo_native _ _ _ _ _ _ Hdir Hcfg Hpkg) in Hinfo.
    rewrite Hcand, bind_Ret in Hinfo. cbv beta iota in Hinfo.
    destruct (manifestFill' tauriDir name0 version0 fs)
      as [[name1 version1] | |] eqn:Hfill; try discriminate Hinfo.
    rewrite bind_Ret in Hinfo. cbv beta iota in Hinfo.
    destruct (negb (Js.truthy name1 && Js.truthy version1));
      try discriminate Hinfo.
    injection Hinfo as <-. simpl.
    exact (manifestFill_keeps _ _ _ _ _ _ Hfill).
Qed.

(** C5. A config version ending in ".json" is a path relative to the
    project directory: the file there is read and its version field is
    the resolved version, which getInfo returns once the name resolves. *)
Theorem getInfo_version_pointer
    root inConfigPath fs tauriDir config pointer contents manifest :
  getTauriDir' root fs = Ret (Some tauriDir) ->
  getConfig' (default (Path.join [tauriDir; "tauri.conf.json"]) inConfigPath)
    fs = Ret config ->
  Js.get "version" (Js.get "package" config) = VStr pointer ->
  Str.endsWith pointer ".json" = true ->
  readFileSync cwd fs (Path.join [tauriDir; pointer]) = Ret contents ->
  JSON_parse contents = inr manifest ->
  Js.isNullish manifest = false ->
  configCandidates' tauriDir (Js.get "package" config) fs =
    Ret (Js.get "productName" (Js.get "package" config),
         Js.get "version" manifest)
  /\ (forall name1 version1,
        Js.truthy (Js.get "version" manifest) = true ->
        manifestFill' tauriDir
          (Js.get "productName" (Js.get "package" config))
          (Js.get "version" manifest) fs
          = Ret (name1, version1) ->
        Js.truthy name1 = true ->
        getInfo' root inConfigPath fs =
          Ret {| tauriPath := Some tauriDir;
                 name := name1;
                 version := Js.get "version" manifest;
                 wixLanguage := resolvedLanguage config |}).
Proof.
  intros Hdir Hcfg Hver Hjson Hread Hparse Hobj.
  assert (configCandidates' tauriDir (Js.get "package" config) fs =
          Ret (Js.get "productName" (Js.get "package" config),
               Js.get "version" manifest))
    as Hcand.
  { unfold configCandidates.
    rewrite (get_truthy_truthy "version" (Js.get "package" config))
      by (rewrite Hver; simpl; destruct pointer; [discriminate | reflexivity]).
    rewrite Hver. simpl callEndsWith. rewrite Hjson. ret_steps.
    simpl pathArg. rewrite Hread. ret_steps. rewrite Hparse.
    simpl ofParse. ret_steps.
    rewrite (member_get "version" manifest) by exact Hobj.
    ret_steps. reflexivity. }
  split; [exact Hcand |].
  intros name1 version1 Htruthy Hfill Hname.
  assert (member "package" config = Ret (Js.get "package" config)) as Hpkg.
  { apply member_get. destruct config; simpl in *; congruence. }
  rewrite (getInfo_native _ _ _ _ _ _ Hdir Hcfg Hpkg), Hcand. ret_steps.
  rewrite Hfill. ret_steps.
  destruct (manifestFill_keeps _ _ _ _ _ _ Hfill) as [_ Hkeep].
  rewrite (Hkeep Htruthy), Hname, Htruthy. reflexivity.
Qed.

End InfoFacts.

(* --------------------------------------------------------------------- *)
(* The build-output directory                                            *)
(* --------------------------------------------------------------------- *)

Section TargetDirFacts.

Variable cwd : string.
Variable env : gmap string string.
Variable parseToml : string -> error + value.

#[local] Abbreviation cargoConfigAt' := (cargoConfigAt cwd parseToml).
#[local] Abbreviation targetDirLoop' := (targetDirLoop cwd parseToml).
#[local] Abbreviation getTargetDir' := (getTargetDir cwd env parseToml).

Lemma getTargetDir_env_set fuel fs crateDir v :
  env !! targetDirVar = Some v ->
  getTargetDir' fuel fs crateDir = Some (Ret (VStr v)).
Proof.
  intros H. unfold getTargetDir. fold targetDirVar. rewrite H.
  rewrite bool_decide_eq_true_2 by eauto. reflexivity.
Qed.

Lemma getTargetDir_env_unset fuel fs crateDir :
  env !! targetDirVar = None ->
  getTargetDir' fuel fs crateDir
  = targetDirLoop' fuel fs (Path.join [crateDir; "target"]) crateDir.
Proof.
  intros H. unfold getTargetDir. fold targetDirVar. rewrite H.
  rewrite bool_decide_eq_false_2; [reflexivity |].
  intros [x Hx]. discriminate.
Qed.

(* the nearest directory with a usable config decides *)
Lemma targetDirLoop_nearest fs def k : forall dir r fuel,
  (forall j, j < k ->
     walkable (ancestor j dir) = true
     /\ cargoConfigAt' fs (ancestor j dir) = None) ->
  walkable (ancestor k dir) = true ->
  cargoConfigAt' fs (ancestor k dir) = Some r ->
  k < fuel ->
  targetDirLoop' fuel fs def dir = Some r.
Proof.
  induction k as [|k IH]; intros dir r fuel Hbefore Hwalk Hcfg Hfuel;
    (destruct fuel as [|fuel]; [lia |]); simpl in *.
  - rewrite Hwalk, Hcfg. reflexivity.
  - destruct (Hbefore 0) as [Hw0 Hc0]; [lia |]. simpl in Hw0, Hc0.
    rewrite Hw0, Hc0.
    apply IH; [| assumption | assumption | lia].
    intros j Hj. apply (Hbefore (S j)). lia.
Qed.

(* whatever the loop returns is the default or comes from a config on
   the way up *)
Lemma targetDirLoop_result fs def fuel : forall dir r,
  targetDirLoop' fuel fs def dir = Some r ->
  r = Ret (VStr def)
  \/ exists k, cargoConfigAt' fs (ancestor k dir) = Some r.
Proof.
  induction fuel as [|fuel IH]; intros dir r H; simpl in H; [discriminate |].
  destruct (walkable dir).
  - destruct (cargoConfigAt' fs dir) as [r' |] eqn:Hcfg.
    + right. exists 0. simpl. congruence.
    + destruct (IH _ _ H) as [-> | [k Hk]]; [left; reflexivity |].
      right. exists (S k). exact Hk.
  - left. congruence.
Qed.

(* from a normalized absolute path the loop ends after one pass per
   segment *)
Lemma targetDirLoop_total_stack fs def stack : forall fuel,
  Forall cleanSeg stack ->
  length stack < fuel ->
  is_Some (targetDirLoop' fuel fs def (absOfStack stack)).
Proof.
  induction stack as [|top rest IH]; intros fuel Hclean Hfuel;
    (destruct fuel as [|fuel]; [simpl in Hfuel; lia |]); simpl.
  - eexists. reflexivity.
  - destruct (walkable (absOfStack (top :: rest))); [| eauto].
    destruct (cargoConfigAt' fs (absOfStack (top :: rest))); [eauto |].
    fold (parentDir (absOfStack (top :: rest))).
    rewrite parentDir_absOfStack by assumption. simpl tail.
    inversion Hclean; subst.
    apply IH; [assumption | simpl in Hfuel; lia].
Qed.

Lemma targetDirLoop_total fs def dir fuel :
  Path.isAbsolute dir = true ->
  String.length dir + 2 < fuel ->
  is_Some (targetDirLoop' fuel fs def dir).
Proof.
  intros Habs Hfuel. destruct fuel as [|fuel]; [lia |]. simpl.
  destruct (walkable dir); [| eauto].
  destruct (cargoConfigAt' fs dir); [eauto |].
  fold (parentDir dir).
  destruct (parentDir_absolute dir Habs) as [-> Hclean].
  apply targetDirLoop_total_stack; [assumption |].
  pose proof (segStack_length false (Str.split Path.sepChar dir) []) as H1.
  pose proof (split_length Path.sepChar dir) as H2.
  destruct (segStack false (Str.split Path.sepChar dir) []);
    simpl in *; lia.
Qed.

(** C1 (as the code has it). getTargetDir consults CARGO_TARGET_DIR
    first and returns it whenever it is set, whatever the config files
    say.  Only when the variable is unset does the nearest
    .cargo/config(.toml) with a build.target-dir, walking upward, decide;
    and only when the walk from an absolute directory finds none is the
    answer <crateDir>/target. *)
Theorem getTargetDir_precedence fs crateDir :
  (forall v fuel,
      env !! targetDirVar = Some v ->
      getTargetDir' fuel fs crateDir = Some (Ret (VStr v)))
  /\ (env !! targetDirVar = None ->
      (forall k r fuel,
          (forall j, j < k ->
             walkable (ancestor j crateDir) = true
             /\ cargoConfigAt' fs (ancestor j crateDir) = None) ->
          walkable (ancestor k crateDir) = true ->
          cargoConfigAt' fs (ancestor k crateDir) = Some r ->
          k < fuel ->
          getTargetDir' fuel fs crateDir = Some r)
      /\ (forall fuel,
            Path.isAbsolute crateDir = true ->
            String.length crateDir + 2 < fuel ->
            (forall k, cargoConfigAt' fs (ancestor k crateDir) = None) ->
            getTargetDir' fuel fs crateDir
            = Some (Ret (VStr (Path.join [crateDir; "target"]))))).
Proof.
  split.
  - intros v fuel Hset. apply getTargetDir_env_set. assumption.
  - intros Hunset. split.
    + intros k r fuel Hbefore Hwalk Hcfg Hfuel.
      rewrite getTargetDir_env_unset by assumption.
      eapply targetDirLoop_nearest; eassumption.
    + intros fuel Habs Hfuel Hnone.
      rewrite getTargetDir_env_unset by assumption.
      destruct (targetDirLoop_total fs (Path.join [crateDir; "target"])
                  crateDir fuel Habs Hfuel) as [r Hr].
      rewrite Hr.
      destruct (targetDirLoop_result _ _ _ _ _ Hr) as [-> | [k Hk]];
        [reflexivity |].
      rewrite Hnone in Hk. discriminate.
Qed.

End TargetDirFacts.

(** C1 fails as stated: with build.target-dir = /from/config in the crate's
    .cargo/config.toml and CARGO_TARGET_DIR = /from/env, getTargetDir
    answers /from/env. *)
Lemma getTargetDir_local_config_does_not_win :
  cargoConfigAt "/" Ref.parseToml TargetDirExample.fs TargetDirExample.crateDir
  = Some (Ret (VStr "/from/config"))
  /\ getTargetDir "/" TargetDirExample.env Ref.parseToml 1
       TargetDirExample.fs TargetDirExample.crateDir
     = Some (Ret (VStr "/from/env"))
  /\ ~ local_config_wins "/" TargetDirExample.env Ref.parseToml
         TargetDirExample.fs TargetDirExample.crateDir.
Proof.
  split; [vm_compute; reflexivity |].
  split; [vm_compute; reflexivity |].
  intros H.
  specialize (H (VStr "/from/config") 0).
  assert (getTargetDir "/" TargetDirExample.env Ref.parseToml 1
            TargetDirExample.fs TargetDirExample.crateDir
          = Some (Ret (VStr "/from/config"))) as Hbad.
  { apply H; [vm_compute; reflexivity | vm_compute; reflexivity |].
    exists "/from/env". vm_compute. reflexivity. }
  vm_compute in Hbad. discriminate Hbad.
Qed.

Lemma getTargetDir_precedence_witness :
  getTargetDir "/" TargetDirExample.env Ref.parseToml 0
    TargetDirExample.fs TargetDirExample.crateDir
  = Some (Ret (VStr "/from/env"))
  /\ getTargetDir "/" ∅ Ref.parseToml 1
       TargetDirExample.fs TargetDirExample.crateDir
     = Some (Ret (VStr "/from/config"))
  /\ getTargetDir "/" ∅ Ref.parseToml 18 ∅ TargetDirExample.crateDir
     = Some (Ret (VStr "/repo/src-tauri/target")).
Proof.
  split; [| split].
  - apply (proj1 (getTargetDir_precedence "/" TargetDirExample.env
                    Ref.parseToml TargetDirExample.fs
                    TargetDirExample.crateDir)).
    vm_compute. reflexivity.
  - destruct (getTargetDir_precedence "/" ∅ Ref.parseToml
                TargetDirExample.fs TargetDirExample.crateDir) as [_ H].
    apply (proj1 (H ltac:(vm_compute; reflexivity)) 0).
    + intros j Hj. lia.
    + vm_compute. reflexivity.
    + vm_compute. reflexivity.
    + lia.
  - destruct (getTargetDir_precedence "/" ∅ Ref.parseToml ∅
                TargetDirExample.crateDir) as [_ H].
    apply (proj2 (H ltac:(vm_compute; reflexivity))).
    + reflexivity.
    + vm_compute. lia.
    + intros k. unfold cargoConfigAt, existsSync.
      rewrite !lookup_empty. reflexivity.
Defined.

(* --------------------------------------------------------------------- *)
(* Reading the config                                                    *)
(* --------------------------------------------------------------------- *)

Section ConfigFacts.

Variable cwd : string.
Variable JSON_parse JSON5_parse : string -> error + value.

#[local] Abbreviation getConfig' := (getConfig cwd JSON_parse JSON5_parse).
#[local] Abbreviation relaxed := (_getJson5Config JSON5_parse).

Lemma getConfig_strict path fs contents config :
  readFileSync cwd fs path = Ret contents ->
  JSON_parse contents = inr config ->
  getConfig' path fs = Ret config.
Proof.
  intros Hread Hparse. unfold getConfig.
  rewrite Hread, bind_Ret, Hparse. reflexivity.
Qed.

Lemma getConfig_relaxed path fs contents e :
  readFileSync cwd fs path = Ret contents ->
  JSON_parse contents = inl e ->
  relaxed contents <> VNull ->
  getConfig' path fs =
    if Js.truthy (relaxed contents) then Ret (relaxed contents) else Throw e.
Proof.
  intros Hread Hparse Hrelaxed. unfold getConfig.
  rewrite Hread, bind_Ret, Hparse.
  destruct (relaxed contents); try reflexivity. congruence.
Qed.

(* with a readable sibling the chain ends in the sibling's value or in
   the error of the strict parse *)
Lemma getConfig_sibling path fs contents e sibling :
  readFileSync cwd fs path = Ret contents ->
  JSON_parse contents = inl e ->
  relaxed contents = VNull ->
  readFileSync cwd fs (json5Sibling path) = Ret sibling ->
  getConfig' path fs =
    if Js.truthy (relaxed sibling) then Ret (relaxed sibling) else Throw e.
Proof.
  intros Hread Hparse Hrelaxed Hsibling. unfold getConfig.
  rewrite Hread, bind_Ret, Hparse, Hrelaxed.
  fold (json5Sibling path). rewrite Hsibling. reflexivity.
Qed.

(** C3 (where the code departs from it). When the strict and the relaxed
    parse of the contents both fail and the sibling tauri.conf.json5
    cannot be read, getConfig throws the error of that read, and the
    error of the strict parse is lost. *)
Theorem getConfig_unreadable_sibling path fs contents e readError :
  readFileSync cwd fs path = Ret contents ->
  JSON_parse contents = inl e ->
  relaxed contents = VNull ->
  readFileSync cwd fs (json5Sibling path) = Throw readError ->
  getConfig' path fs = Throw readError.
Proof.
  intros Hread Hparse Hrelaxed Hsibling. unfold getConfig.
  rewrite Hread, bind_Ret, Hparse, Hrelaxed.
  fold (json5Sibling path). rewrite Hsibling. reflexivity.
Qed.

Lemma getConfig_reads_file path fs config :
  getConfig' path fs = Ret config ->
  exists contents, fs !! fsKey cwd path = Some (File contents).
Proof.
  unfold getConfig, readFileSync.
  destruct (fs !! fsKey cwd path) as [[c|]|]; try discriminate. eauto.
Qed.

End ConfigFacts.

Lemma getConfig_unreadable_sibling_witness :
  Ref.parseJson "{" = inl (SyntaxError "Unexpected token in JSON")
  /\ getConfig "/" Ref.parseJson Ref.parseJson5
       ConfigExample.path ConfigExample.fs
     = Throw (SystemError "ENOENT" "/repo/src-tauri/tauri.conf.json5").
Proof.
  split; [vm_compute; reflexivity |].
  apply (getConfig_unreadable_sibling "/" Ref.parseJson Ref.parseJson5
           ConfigExample.path ConfigExample.fs "{"
           (SyntaxError "Unexpected token in JSON")).
  - vm_compute. reflexivity.
  - vm_compute. reflexivity.
  - vm_compute. reflexivity.
  - vm_compute. reflexivity.
Defined.

(* --------------------------------------------------------------------- *)
(* Object literals with a spread                                         *)
(* --------------------------------------------------------------------- *)

Section SpreadFacts.

Lemma lookup_setProp_eq k v ps : Js.lookup k (Js.setProp k v ps) = v.
Proof.
  induction ps as [|[k' v'] rest IH]; simpl.
  - unfold Str.eqb. rewrite String.eqb_refl. reflexivity.
  - destruct (Str.eqb k' k) eqn:E; simpl.
    + unfold Str.eqb. rewrite String.eqb_refl. reflexivity.
    + rewrite E. exact IH.
Qed.

Lemma lookup_setProp_ne k k' v ps :
  k <> k' -> Js.lookup k' (Js.setProp k v ps) = Js.lookup k' ps.
Proof.
  intros Hne. induction ps as [|[k0 v0] rest IH]; simpl.
  - rewrite (neq_eqb_false _ _ Hne). reflexivity.
  - destruct (Str.eqb k0 k) eqn:E; simpl.
    + apply String.eqb_eq in E. subst k0.
      rewrite (neq_eqb_false _ _ Hne). reflexivity.
    + destruct (Str.eqb k0 k'); [reflexivity | exact IH].
Qed.

Lemma digit_isDigit n : n < 10 -> Ref.isDigit (Js.digit n) = true.
Proof.
  intros H. do 10 (destruct n as [|n]; [reflexivity |]). lia.
Qed.

Lemma decimalAux_S fuel n acc :
  Js.decimalAux (S fuel) n acc
  = if (n / 10 =? 0)%nat then String (Js.digit (n mod 10)) acc
    else Js.decimalAux fuel (n / 10) (String (Js.digit (n mod 10)) acc).
Proof. reflexivity. Qed.

Lemma decimalAux_leading fuel : forall n acc,
  leadingDigit (Js.decimalAux (S fuel) n acc) = true.
Proof.
  induction fuel as [|fuel IH]; intros n acc; rewrite decimalAux_S.
  - change (Js.decimalAux 0 (n / 10) (String (Js.digit (n mod 10)) acc))
      with (String (Js.digit (n mod 10)) acc).
    destruct (n / 10 =? 0)%nat; unfold leadingDigit;
      apply digit_isDigit, Nat.mod_upper_bound; lia.
  - destruct (n / 10 =? 0)%nat; [| apply IH].
    unfold leadingDigit. apply digit_isDigit, Nat.mod_upper_bound. lia.
Qed.

(* the index properties of a spread string never answer a name *)
Lemma lookup_indexed k s : forall i,
  leadingDigit k = false -> Js.lookup k (Js.indexed i s) = VUndef.
Proof.
  induction s as [|c r IH]; intros i Hk; simpl; [reflexivity |].
  destruct (Str.eqb (Js.decimal i) k) eqn:E; [| apply IH; assumption].
  apply String.eqb_eq in E. subst k.
  unfold Js.decimal in Hk. rewrite decimalAux_leading in Hk. discriminate.
Qed.

(* o?.k reads the same as the copy of k made by { ...o } *)
Lemma optGet_spread k o :
  leadingDigit k = false -> Js.optGet k o = Js.lookup k (Js.spread o).
Proof.
  intros Hk. destruct o; simpl; try reflexivity.
  symmetry. apply lookup_indexed. assumption.
Qed.

End SpreadFacts.

(* --------------------------------------------------------------------- *)
(* Project initialisation                                                *)
(* --------------------------------------------------------------------- *)

Section InitFacts.

Variable cwd : string.
Variable JSON_parse JSON5_parse : string -> error + value.
Variable JSON_stringify : value -> string.
Variable globSync : fsT -> string -> string -> list string -> list string.
Variable execa :
  string -> list value -> ExecaOptions -> fsT -> outcome unit * fsT.

#[local] Abbreviation getTauriDir' := (getTauriDir cwd globSync).
#[local] Abbreviation getPackageJson' := (getPackageJson cwd JSON_parse).
#[local] Abbreviation getConfig' := (getConfig cwd JSON_parse JSON5_parse).
#[local] Abbreviation execCommand' := (execCommand execa).
#[local] Abbreviation initProject' :=
  (initProject cwd JSON_parse JSON5_parse JSON_stringify globSync execa).

(* mergePackage leaves config.tauri alone *)
Lemma mergePackage_tauri info packageJson config config1 :
  mergePackage info packageJson config = Ret config1 ->
  Js.get "tauri" config1 = Js.get "tauri" config
  /\ exists isArray props, config1 = VObj isArray props.
Proof.
  unfold mergePackage, member, assign.
  destruct config as [| | | | | isArray props]; simpl; try discriminate.
  intros [= <-]. split; [| eauto].
  simpl. apply lookup_setProp_ne. discriminate.
Qed.

(** C8. Setting bundle.identifier is a merge: on every config object the
    update succeeds, the new bundle carries the identifier, every other
    property of the old bundle is copied unchanged, and
    bundle.windows.wix.language reads the same before and after. *)
Theorem mergeIdentifier_preserves_bundle identifier isArray props :
  Str.isEmpty identifier = false ->
  exists merged,
    mergeIdentifier (Some identifier) (VObj isArray props) = Ret merged
    /\ Js.get "identifier" (bundleOf merged) = VStr identifier
    /\ (forall k,
          k <> "identifier" ->
          Js.get k (bundleOf merged)
          = Js.lookup k (Js.spread (bundleOf (VObj isArray props))))
    /\ wixLanguageOf merged = wixLanguageOf (VObj isArray props).
Proof.
  intros Hid. unfold mergeIdentifier. rewrite Hid.
  rewrite member_object, bind_Ret. cbv beta.
  eexists. split; [reflexivity |].
  set (tauri := Js.lookup "tauri" props).
  assert (forall bundle',
             bundleOf (VObj isArray
                         (Js.setProp "tauri"
                            (VObj false
                               (Js.setProp "bundle" bundle' (Js.spread tauri)))
                            props))
             = bundle') as Hbundle.
  { intros bundle'. unfold bundleOf. simpl Js.get.
    rewrite lookup_setProp_eq. simpl. apply lookup_setProp_eq. }
  split; [| split].
  - rewrite Hbundle. simpl. apply lookup_setProp_eq.
  - intros k Hk. rewrite Hbundle. simpl Js.get.
    rewrite lookup_setProp_ne by congruence. reflexivity.
  - unfold wixLanguageOf. rewrite !member_object, !bind_Ret.
    rewrite lookup_setProp_eq. fold tauri.
    change (Js.optGet "bundle"
              (VObj false
                 (Js.setProp "bundle"
                    (VObj false
                       (Js.setProp "identifier" (VStr identifier)
                          (Js.spread (Js.optGet "bundle" tauri))))
                    (Js.spread tauri))))
      with (Js.lookup "bundle"
              (Js.setProp "bundle"
                 (VObj false
                    (Js.setProp "identifier" (VStr identifier)
                       (Js.spread (Js.optGet "bundle" tauri))))
                 (Js.spread tauri))).
    rewrite lookup_setProp_eq.
    change (Js.optGet "windows"
              (VObj false
                 (Js.setProp "identifier" (VStr identifier)
                    (Js.spread (Js.optGet "bundle" tauri)))))
      with (Js.lookup "windows"
              (Js.setProp "identifier" (VStr identifier)
                 (Js.spread (Js.optGet "bundle" tauri)))).
    rewrite lookup_setProp_ne by discriminate.
    rewrite <- optGet_spread by reflexivity. reflexivity.
Qed.

(* initProject once the init command has run, lines 25-80 *)
Lemma initProject_after_init root runner info options fs fs1
    packageJson tauriPath config config1 merged :
  getPackageJson' root fs = Ret packageJson ->
  getTauriDir' root fs = Ret (Some tauriPath) ->
  execCommand' (runnerCommand runner) (initArgs runner info) (Some root) fs
    = (Ret tt, fs1) ->
  getConfig' (configPathOf tauriPath) fs1 = Ret config ->
  mergePackage info packageJson config = Ret config1 ->
  mergeIdentifier (bundleIdentifier options) config1 = Ret merged ->
  initProject' root runner info options fs =
    let fs2 :=
      <[fsKey cwd (configPathOf tauriPath) := File (JSON_stringify merged)]>
        fs1 in
    match iconPath options with
    | Some icon =>
        if Str.isEmpty icon
        then (Ret (applicationOf tauriPath runner info), fs2)
        else
          match execCommand' (runnerCommand runner)
                  (iconArgs runner root icon) (Some root) fs2 with
          | (Ret _, fs3) => (Ret (applicationOf tauriPath runner info), fs3)
          | (Throw e, fs3) => (Throw e, fs3)
          | (Exit c, fs3) => (Exit c, fs3)
          end
    | None => (Ret (applicationOf tauriPath runner info), fs2)
    end.
Proof.
  intros Hpkg Hdir Hinit Hcfg Hmerge1 Hmerge2.
  destruct (getConfig_reads_file _ _ _ _ _ _ Hcfg) as [old Hold].
  unfold initProject, ioBind, ioRead, ioPure, ioRet.
  rewrite Hpkg, Hdir. fold (initArgs runner info). rewrite Hinit.
  fold (configPathOf tauriPath). rewrite Hcfg, Hmerge1, Hmerge2.
  unfold writeFileSync. rewrite Hold. cbv zeta.
  destruct (iconPath options) as [icon |]; [| reflexivity].
  destruct (Str.isEmpty icon); [reflexivity |].
  fold (iconArgs runner root icon).
  destruct (execCommand' (runnerCommand runner) (iconArgs runner root icon)
              (Some root) _) as [[[] | e | c] fs3]; reflexivity.
Qed.

(** C9. The merged config is written before the icon command runs and
    nothing is rolled back: when the write succeeds and the icon command
    then fails, initProject fails with that error, in the file system the
    icon command left behind, and the file system that command was
    started in already holds the rewritten tauri.conf.json. *)
Theorem initProject_icon_failure_keeps_rewrite
    root runner info options fs fs1 fs3
    packageJson tauriPath config config1 merged icon e :
  getPackageJson' root fs = Ret packageJson ->
  getTauriDir' root fs = Ret (Some tauriPath) ->
  execCommand' (runnerCommand runner) (initArgs runner info) (Some root) fs
    = (Ret tt, fs1) ->
  getConfig' (configPathOf tauriPath) fs1 = Ret config ->
  mergePackage info packageJson config = Ret config1 ->
  mergeIdentifier (bundleIdentifier options) config1 = Ret merged ->
  iconPath options = Some icon ->
  Str.isEmpty icon = false ->
  let fs2 :=
    <[fsKey cwd (configPathOf tauriPath) := File (JSON_stringify merged)]>
      fs1 in
  execCommand' (runnerCommand runner) (iconArgs runner root icon)
    (Some root) fs2 = (Throw e, fs3) ->
  writeFileSync cwd (configPathOf tauriPath) (JSON_stringify merged) fs1
    = (Ret tt, fs2)
  /\ readFileSync cwd fs2 (configPathOf tauriPath)
     = Ret (JSON_stringify merged)
  /\ initProject' root runner info options fs = (Throw e, fs3)
  /\ (fs3 !! fsKey cwd (configPathOf tauriPath)
        = fs2 !! fsKey cwd (configPathOf tauriPath) ->
      readFileSync cwd fs3 (configPathOf tauriPath)
      = Ret (JSON_stringify merged)).
Proof.
  intros Hpkg Hdir Hinit Hcfg Hmerge1 Hmerge2 Hicon Hne fs2 Hfail.
  assert (readFileSync cwd fs2 (configPathOf tauriPath)
          = Ret (JSON_stringify merged)) as Hread.
  { unfold readFileSync, fs2. rewrite lookup_insert_eq. reflexivity. }
  split; [| split; [exact Hread | split]].
  - destruct (getConfig_reads_file _ _ _ _ _ _ Hcfg) as [old Hold].
    unfold writeFileSync. rewrite Hold. reflexivity.
  - rewrite (initProject_after_init _ _ _ _ _ _ _ _ _ _ _
               Hpkg Hdir Hinit Hcfg Hmerge1 Hmerge2).
    cbv zeta. rewrite Hicon, Hne. fold fs2. rewrite Hfail. reflexivity.
  - intros Hsame. unfold readFileSync in *. rewrite Hsame. exact Hread.
Qed.

(** C2 (where the code departs from it). The native-project directory is
    looked up before the init command runs: when it is absent then,
    initProject exits with status 1 once the init command has finished,
    whatever that command created. *)
Theorem initProject_resolves_before_init
    root runner info options fs fs1 packageJson :
  getPackageJson' root fs = Ret packageJson ->
  getTauriDir' root fs = Ret None ->
  execCommand' (runnerCommand runner) (initArgs runner info) (Some root) fs
    = (Ret tt, fs1) ->
  initProject' root runner info options fs = (Exit 1, fs1).
Proof.
  intros Hpkg Hdir Hinit.
  unfold initProject, ioBind, ioRead, ioPure.
  rewrite Hpkg, Hdir. fold (initArgs runner info). rewrite Hinit.
  reflexivity.
Qed.

End InitFacts.

(* --------------------------------------------------------------------- *)
(* The theorems on the sample inputs                                     *)
(* --------------------------------------------------------------------- *)



(** C10 fails as stated: a package.json that holds null is present and
    declares neither displayName nor name, and getInfo returns the "app"
    default instead of throwing. *)
Lemma getInfo_default_with_manifest_present :
  existsSync "/" More.fsNullManifest (packageJsonPath Sample.root) = true
  /\ getInfo "/" Ref.parseJson Ref.parseJson5 Ref.parseToml Ref.globSync
       Sample.root None More.fsNullManifest
     = Ret defaultInfo
  /\ ~ nameless_manifest_throws "/" Ref.parseJson Ref.parseJson5 Ref.parseToml
         Ref.globSync Sample.root More.fsNullManifest.
Proof.
  split; [vm_compute; reflexivity |].
  split; [vm_compute; reflexivity |].
  intros H.
  destruct (H "null" VNull
              ltac:(vm_compute; reflexivity) ltac:(vm_compute; reflexivity)
              ltac:(vm_compute; reflexivity) eq_refl eq_refl) as [e He].
  vm_compute in He. discriminate He.
Qed.

Lemma getInfo_manifest_without_name_throws_witness :
  getInfo "/" Ref.parseJson Ref.parseJson5 Ref.parseToml Ref.globSync
    Sample.root None Sample.fsNameless
  = Throw (TypeError "Cannot read properties")
  /\ getInfo "/" Ref.parseJson Ref.parseJson5 Ref.parseToml Ref.globSync
       Sample.root None More.fsNullManifest
     = Ret defaultInfo.
Proof.
  split.
  - destruct (getInfo_manifest_without_name_throws "/" Ref.parseJson
                Ref.parseJson5 Ref.parseToml Ref.globSync Sample.root None
                Sample.fsNameless
                (Ref.dq "{'version': '1.2.3'}")
                (VObj false [("version", VStr "1.2.3")])
                ltac:(run) ltac:(run) ltac:(run)) as (Hthrows & _ & _).
    apply Hthrows; reflexivity.
  - destruct (getInfo_manifest_without_name_throws "/" Ref.parseJson
                Ref.parseJson5 Ref.parseToml Ref.globSync Sample.root None
                More.fsNullManifest "null" VNull
                ltac:(run) ltac:(run) ltac:(run)) as (_ & _ & Hfalsy).
    apply Hfalsy. reflexivity.
Defined.

Lemma getInfo_precedence_witness :
  getInfo "/" Ref.parseJson Ref.parseJson5 Ref.parseToml Ref.globSync
    Sample.root None Sample.fsVersionOnly
  = Ret {| tauriPath := Some Sample.tauriDir; name := VStr "demo";
           version := VStr "1.0.0"; wixLanguage := VStr "en-US" |}.
Proof.
  apply (proj1 (getInfo_precedence "/" Ref.parseJson Ref.parseJson5
                  Ref.parseToml Ref.globSync Sample.root None
                  Sample.fsVersionOnly Sample.tauriDir
                  (VObj false [("package", VObj false [("version", VStr "1.0.0")])])
                  ltac:(run) ltac:(run))
           "1.0.0" Sample.cargoToml
           (VObj false
              [("package",
                VObj false [("name", VStr "demo"); ("version", VStr "0.9.0")])])
           (VStr "demo") (VStr "0.9.0")); run.
Defined.

Lemma getInfo_version_pointer_witness :
  getInfo "/" Ref.parseJson Ref.parseJson5 Ref.parseToml Ref.globSync
    Sample.root None Sample.fsPointer
  = Ret {| tauriPath := Some Sample.tauriDir; name := VStr "demo";
           version := VStr "2.3.4"; wixLanguage := VStr "en-US" |}.
Proof.
  apply (proj2 (getInfo_version_pointer "/" Ref.parseJson Ref.parseJson5
                  Ref.parseToml Ref.globSync Sample.root None Sample.fsPointer
                  Sample.tauriDir
                  (VObj false
                     [("package", VObj false [("version", VStr "sub/package.json")])])
                  "sub/package.json" (Ref.dq "{'version': '2.3.4'}")
                  (VObj false [("version", VStr "2.3.4")])
                  ltac:(run) ltac:(run) ltac:(run) ltac:(run) ltac:(run)
                  ltac:(run) ltac:(run))
           (VStr "demo") (VStr "2.3.4")); run.
Defined.

Lemma mergeIdentifier_preserves_bundle_witness :
  exists merged,
    mergeIdentifier (Some "com.example.demo")
      (VObj false
         [("tauri",
           VObj false
             [("bundle",
               VObj false
                 [("identifier", VStr "com.tauri.dev");
                  ("windows",
                   VObj false
                     [("wix", VObj false [("language", VStr "fr-FR")])])])])])
    = Ret merged
    /\ wixLanguageOf merged = Ret (VStr "fr-FR").
Proof.
  destruct (mergeIdentifier_preserves_bundle "com.example.demo" false
              [("tauri",
                VObj false
                  [("bundle",
                    VObj false
                      [("identifier", VStr "com.tauri.dev");
                       ("windows",
                        VObj false
                          [("wix", VObj false [("language", VStr "fr-FR")])])])])]
              ltac:(reflexivity))
    as (merged & Hmerge & _ & _ & Hlang).
  exists merged. split; [exact Hmerge | exact Hlang].
Defined.

Lemma initProject_resolves_before_init_witness :
  let result :=
    initProject "/" Ref.parseJson Ref.parseJson5 Ref.stringify Ref.globSync
      (Ref.execa Sample.created 0)
      Sample.root Sample.runner Sample.info Sample.options Sample.fsBare in
  fst result = Exit 1
  /\ getTauriDir "/" Ref.globSync Sample.root (snd result)
     = Ret (Some Sample.tauriDir).
Proof.
  cbv zeta.
  rewrite (initProject_resolves_before_init "/" Ref.parseJson Ref.parseJson5
             Ref.stringify Ref.globSync (Ref.execa Sample.created 0)
             Sample.root Sample.runner Sample.info Sample.options Sample.fsBare
             (<["/repo/src-tauri/tauri.conf.json" := File Sample.oldConfig]>
                Sample.fsBare)
             (VObj false [("name", VStr "demo")])
             ltac:(run) ltac:(run) ltac:(run)).
  split; run.
Defined.

Lemma initProject_icon_failure_keeps_rewrite_witness :
  initProject "/" Ref.parseJson Ref.parseJson5 Ref.stringify Ref.globSync
    (Ref.execa [] 1)
    Sample.root Sample.runner Sample.info Sample.options Sample.fsProject
  = (Throw (ChildProcessError 1), Sample.fsRewritten)
  /\ readFileSync "/" Sample.fsRewritten "/repo/src-tauri/tauri.conf.json"
     = Ret (Ref.stringify Sample.merged)
  /\ Ref.stringify Sample.merged <> Sample.oldConfig.
Proof.
  pose proof (initProject_icon_failure_keeps_rewrite "/" Ref.parseJson
                Ref.parseJson5 Ref.stringify Ref.globSync (Ref.execa [] 1)
                Sample.root Sample.runner Sample.info Sample.options
                Sample.fsProject Sample.fsProject Sample.fsRewritten
                Sample.packageJson Sample.tauriDir Sample.loadedConfig
                Sample.packageMerged Sample.merged "icon.png"
                (ChildProcessError 1)
                ltac:(run) ltac:(run) ltac:(run) ltac:(run) ltac:(run)
                ltac:(run) ltac:(run) ltac:(run) ltac:(run))
    as (_ & Hread & Hrun & _).
  split; [exact Hrun |].
  split; [exact Hread |].
  vm_compute. discriminate.
Defined.

(* ===================================================================== *)
(* Further properties of the code                                        *)
(* ===================================================================== *)

(* --------------------------------------------------------------------- *)
(* Asset names are bare file names                                       *)
(* --------------------------------------------------------------------- *)
Section AssetNameShape.

Lemma includes_char s c : Str.includes s (String c "") = hasChar c s.
Proof.
  induction s as [|x r IH]; simpl; [reflexivity |].
  rewrite IH. destruct (Ascii.ascii_dec c x) as [-> | Hne].
  - rewrite Ascii.eqb_refl. destruct r; reflexivity.
  - assert (Ascii.eqb x c = false) as ->
      by (apply Ascii.eqb_neq; congruence).
    reflexivity.
Qed.

Lemma hasChar_drop c n : forall s,
  hasChar c s = false -> hasChar c (Str.drop n s) = false.
Proof.
  induction n as [|n IH]; intros s H; [exact H |].
  destruct s as [|x r]; [reflexivity |].
  simpl in *. apply orb_false_iff in H as [_ Hr]. apply IH, Hr.
Qed.

Lemma hasChar_replace c s pat :
  hasChar c s = false -> hasChar c (Str.replace s pat "") = false.
Proof.
  induction s as [|x r IH]; intros H; rewrite replace_unfold;
    destruct (String.prefix pat _).
  - apply (hasChar_drop c (String.length pat) ""). reflexivity.
  - reflexivity.
  - apply (hasChar_drop c (String.length pat) (String x r)), H.
  - simpl in *. apply orb_false_iff in H as [Hx Hr].
    rewrite Hx, IH by assumption. reflexivity.
Qed.

Lemma lastSegment_noSep segs : forall cur,
  Forall (fun t => hasChar Path.sepChar t = false) segs ->
  hasChar Path.sepChar cur = false ->
  hasChar Path.sepChar (Path.lastSegment segs cur) = false.
Proof.
  induction segs as [|s rest IH]; intros cur Hsegs Hcur; simpl; [exact Hcur |].
  inversion Hsegs; subst. apply IH; [assumption |].
  destruct (Str.isEmpty s); assumption.
Qed.

Lemma basename_noSep p : hasChar Path.sepChar (Path.basename p) = false.
Proof.
  unfold Path.basename. apply lastSegment_noSep;
    [apply split_hasChar | reflexivity].
Qed.

Lemma splitLastDot_app s : forall pre ext,
  Path.splitLastDot s = Some (pre, ext) -> s = pre +:+ ext.
Proof.
  induction s as [|c r IH]; intros pre ext H; simpl in H; [discriminate |].
  destruct (Path.splitLastDot r) as [[pre' ext'] |].
  - injection H as <- <-. rewrite (IH pre' ext' eq_refl) at 1. reflexivity.
  - destruct (Ascii.eqb c "."); [| discriminate].
    injection H as <- <-. reflexivity.
Qed.

Lemma extname_noSep p : hasChar Path.sepChar (Path.extname p) = false.
Proof.
  unfold Path.extname.
  destruct (Path.splitLastDot (Path.basename p)) as [[pre ext] |] eqn:E;
    [| reflexivity].
  destruct (Str.isEmpty pre); [reflexivity |].
  destruct (Str.eqb (Path.basename p) ".."); [reflexivity |].
  pose proof (basename_noSep p) as Hb.
  rewrite (splitLastDot_app _ _ _ E), hasChar_app in Hb.
  apply orb_false_iff in Hb as [_ Hext]. exact Hext.
Qed.

Lemma assetExt_noSep p : hasChar Path.sepChar (assetExt p) = false.
Proof.
  destruct (assetExt_first p) as [(pre & post & Heq & _) | [_ ->]];
    [| apply extname_noSep].
  assert (In (assetExt p) extensions) as Hin.
  { rewrite Heq. apply in_or_app. right. left. reflexivity. }
  revert Hin. generalize (assetExt p). intros e. unfold extensions. simpl.
  intros H; repeat (destruct H as [<- | H]; [reflexivity |]); contradiction.
Qed.

(** X1. The name getAssetName returns never contains a path separator:
    whatever path it is given, the result is a bare file name. *)
Theorem getAssetName_bare (assetPath : string) :
  Str.includes (getAssetName assetPath) Path.sep = false.
Proof.
  unfold Path.sep. rewrite includes_char.
  change "/"%char with Path.sepChar.
  assert (hasChar Path.sepChar (assetArch assetPath (assetExt assetPath))
          = false) as Harch.
  { rewrite assetArch_tag.
    destruct (isAppBundle _); [| reflexivity].
    destruct (Str.includes assetPath "universal-apple-darwin");
      [reflexivity |].
    destruct (Str.includes assetPath "aarch64-apple-darwin"); reflexivity. }
  unfold getAssetName. cbv zeta.
  destruct (Str.includes assetPath _);
    rewrite ?hasChar_app, hasChar_replace, Harch, assetExt_noSep
      by apply basename_noSep; reflexivity.
Qed.

End AssetNameShape.

(* --------------------------------------------------------------------- *)
(* Resolved directories                                                  *)
(* --------------------------------------------------------------------- *)
Section ResolveFacts.

Lemma resolveScan_absolute cwd rargs : forall acc,
  Path.isAbsolute cwd = true -> snd (Path.resolveScan cwd rargs acc) = true.
Proof.
  induction rargs as [|p rest IH]; intros acc Hcwd; simpl.
  - destruct cwd; [discriminate |]. simpl. exact Hcwd.
  - destruct (Str.isEmpty p); [apply IH, Hcwd |].
    destruct (Path.isAbsolute p); [reflexivity | apply IH, Hcwd].
Qed.

Lemma resolve_absolute cwd args :
  Path.isAbsolute cwd = true -> Path.isAbsolute (Path.resolve cwd args) = true.
Proof.
  intros Hcwd. unfold Path.resolve.
  pose proof (resolveScan_absolute cwd (rev args) "" Hcwd) as H.
  destruct (Path.resolveScan cwd (rev args) "") as [resolvedPath flag].
  simpl in H. subst flag. reflexivity.
Qed.

End ResolveFacts.

(* --------------------------------------------------------------------- *)
(* Walking upward from a relative directory                              *)
(* --------------------------------------------------------------------- *)
Section RelativeWalk.

Lemma segStack_good b segs : forall acc,
  Forall (fun s => hasChar Path.sepChar s = false) segs ->
  Forall goodSeg acc ->
  Forall goodSeg (segStack b segs acc).
Proof.
  induction segs as [|s rest IH]; intros acc Hsegs Hacc; simpl; [exact Hacc |].
  inversion Hsegs as [|? ? Hs Hrest]; subst.
  assert (goodSeg "..") as Hdots by (split; [discriminate | reflexivity]).
  destruct (Str.eqb s "") eqn:E1; simpl; [apply IH; assumption |].
  destruct (Str.eqb s "."); [apply IH; assumption |].
  destruct (Str.eqb s "..").
  - destruct acc as [|top acc'].
    + apply IH; [assumption |]. destruct b; repeat constructor; apply Hdots.
    + inversion Hacc; subst.
      destruct (Str.eqb top ".."); [| apply IH; assumption].
      apply IH; [assumption |]. destruct b; [constructor |]; assumption.
  - apply IH; [assumption |]. constructor; [| assumption].
    split; [apply eqb_false_neq, E1 | exact Hs].
Qed.

Lemma lastChar_join_good segs :
  segs <> [] -> Forall goodSeg segs ->
  exists c,
    Str.lastChar (Str.join Path.sep segs) = Some c
    /\ Ascii.eqb c Path.sepChar = false.
Proof.
  induction segs as [|p rest IH]; [congruence |].
  intros _ H. inversion H as [|? ? [Hp Hs] Hrest]; subst.
  destruct rest as [|q rest].
  - simpl. apply lastChar_noSep; assumption.
  - destruct IH as (c & Hc & Hne); [discriminate | assumption |].
    exists c. split; [| assumption].
    rewrite join_cons_cons, lastChar_app, lastChar_app; try assumption.
    + intros E. rewrite E in Hc. discriminate.
    + discriminate.
Qed.

Lemma isAbsolute_join_good p rest :
  goodSeg p -> Path.isAbsolute (Str.join Path.sep (p :: rest)) = false.
Proof.
  intros [Hne Hs]. destruct p as [|x p']; [congruence |].
  simpl in Hs. apply orb_false_iff in Hs as [Hx _].
  destruct rest; exact Hx.
Qed.

(* normalizing a relative path without a trailing separator gives a
   relative path on which the loops keep running *)
Lemma normalize_relative p :
  p <> "" ->
  Path.isAbsolute p = false ->
  Path.hasTrailingSep p = false ->
  walkable (Path.normalize p) = true
  /\ Path.isAbsolute (Path.normalize p) = false.
Proof.
  intros Hne Habs Htrail. unfold Path.normalize.
  destruct p as [|c r] eqn:Ep; [congruence |]. rewrite <- Ep in *.
  assert (Str.isEmpty p = false) as -> by (rewrite Ep; reflexivity).
  rewrite Habs, Htrail. cbv beta iota zeta. simpl negb.
  unfold Path.normalizeString. rewrite normSegs_stack.
  set (segs := rev (segStack true (Str.split Path.sepChar p) [])).
  assert (Forall goodSeg segs) as Hgood.
  { apply Forall_rev, segStack_good; [apply split_hasChar | constructor]. }
  destruct segs as [|q rest]; [split; reflexivity |].
  destruct (lastChar_join_good (q :: rest)) as (l & Hl & Hsep);
    [discriminate | assumption |].
  inversion Hgood as [|? ? Hq _]; subst.
  pose proof (isAbsolute_join_good q rest Hq) as Hrel.
  destruct (Str.join Path.sep (q :: rest)) as [|y j] eqn:Ej;
    [discriminate Hl |].
  cbv beta iota delta [Str.isEmpty]. split; [| exact Hrel].
  unfold walkable, Path.hasTrailingSep. rewrite Hl, Hsep. reflexivity.
Qed.

Lemma walkable_inv dir :
  walkable dir = true -> dir <> "" /\ Path.hasTrailingSep dir = false.
Proof.
  unfold walkable. intros H. apply andb_true_iff in H as [H1 H2].
  split.
  - intros ->. discriminate.
  - destruct (Path.hasTrailingSep dir); [discriminate | reflexivity].
Qed.

Lemma parentDir_relative dir :
  walkable dir = true ->
  Path.isAbsolute dir = false ->
  walkable (parentDir dir) = true
  /\ Path.isAbsolute (parentDir dir) = false.
Proof.
  intros Hwalk Hrel. destruct (walkable_inv dir Hwalk) as [Hne _].
  destruct dir as [|c d']; [congruence |].
  assert (Path.join [String c d'; ".."]
          = Path.normalize (String c d' +:+ "/..")) as Hjoin by reflexivity.
  destruct (normalize_relative (String c d' +:+ "/..")) as [Hw Hr].
  - discriminate.
  - exact Hrel.
  - unfold Path.hasTrailingSep. rewrite lastChar_app by discriminate.
    reflexivity.
  - unfold parentDir. rewrite Hjoin.
    destruct (walkable_inv _ Hw) as [Hne' Htrail'].
    apply normalize_relative; assumption.
Qed.

Lemma ancestor_relative k : forall dir,
  walkable dir = true ->
  Path.isAbsolute dir = false ->
  walkable (ancestor k dir) = true
  /\ Path.isAbsolute (ancestor k dir) = false.
Proof.
  induction k as [|k IH]; intros dir Hwalk Hrel; simpl; [split; assumption |].
  destruct (parentDir_relative dir Hwalk Hrel) as [Hw Hr]. apply IH; assumption.
Qed.

End RelativeWalk.

(* --------------------------------------------------------------------- *)
(* The length of the walk                                                *)
(* --------------------------------------------------------------------- *)
Section WalkLength.

(* below the root the stack is no deeper than the path has segments *)
Lemma segStack_length_segments segs : forall acc,
  length (segStack false segs acc)
  <= length (List.filter (fun s => negb (Str.isEmpty s)) segs) + length acc.
Proof.
  induction segs as [|s rest IH]; intros acc; simpl; [lia |].
  destruct s as [|c s'].
  - simpl. apply IH.
  - cbn [Str.isEmpty negb length].
    destruct (Str.eqb (String c s') "" || Str.eqb (String c s') ".").
    { specialize (IH acc). lia. }
    destruct (Str.eqb (String c s') "..").
    + destruct acc as [|top acc'].
      * specialize (IH []). simpl in *. lia.
      * destruct (Str.eqb top "..").
        -- specialize (IH (top :: acc')). simpl in *. lia.
        -- specialize (IH acc'). simpl in *. lia.
    + specialize (IH (String c s' :: acc)). simpl in *. lia.
Qed.

(* a directory the loop enters has a segment *)
Lemma walkable_segments dir :
  walkable dir = true -> 0 < length (pathSegments dir).
Proof.
  intros H. apply walkable_inv in H as [Hne Htrail].
  unfold pathSegments. revert Hne Htrail.
  induction dir as [|x r IH]; [congruence |]. intros _ Htrail.
  simpl. destruct (Ascii.eqb x Path.sepChar) eqn:Ex.
  - simpl. destruct r as [|y r'].
    + unfold Path.hasTrailingSep in Htrail. simpl in Htrail. congruence.
    + apply IH; [discriminate |].
      unfold Path.hasTrailingSep in *.
      change (Str.lastChar (String x (String y r')))
        with (Str.lastChar (String y r')) in Htrail.
      exact Htrail.
  - destruct (Str.split Path.sepChar r); simpl; lia.
Qed.

(* after the pass over [dir] itself, one pass per remaining segment *)
Lemma walk_fuel dir fuel :
  walkable dir = true ->
  length (pathSegments dir) < S fuel ->
  length (tail (segStack false (Str.split Path.sepChar dir) [])) < fuel.
Proof.
  intros Hwalk Hfuel.
  pose proof (walkable_segments dir Hwalk) as Hpos.
  pose proof (segStack_length_segments (Str.split Path.sepChar dir) []) as Hlen.
  fold (pathSegments dir) in Hlen.
  destruct (segStack false (Str.split Path.sepChar dir) []); simpl in *; lia.
Qed.

(* the walk from a normalized absolute path reaches the root, where the
   loop condition fails, after one step per segment *)
Lemma walk_ends_stack stack :
  Forall cleanSeg stack ->
  walkable (ancestor (length stack) (absOfStack stack)) = false.
Proof.
  induction stack as [|top rest IH]; intros Hclean; [reflexivity |].
  simpl length. simpl ancestor.
  rewrite parentDir_absOfStack by assumption. simpl tail.
  inversion Hclean; subst. apply IH. assumption.
Qed.

(* from any absolute path the loop condition fails after at most one pass
   per segment *)
Lemma walk_ends dir :
  Path.isAbsolute dir = true ->
  exists k,
    k <= length (pathSegments dir) /\ walkable (ancestor k dir) = false.
Proof.
  intros Habs. destruct (walkable dir) eqn:Hwalk.
  - destruct (parentDir_absolute dir Habs) as [Hparent Hclean].
    exists (S (length (tail (segStack false (Str.split Path.sepChar dir) [])))).
    split.
    + pose proof (walk_fuel dir (length (pathSegments dir)) Hwalk) as H. lia.
    + simpl ancestor. rewrite Hparent. apply walk_ends_stack, Hclean.
  - exists 0. split; [lia | exact Hwalk].
Qed.

End WalkLength.

(* --------------------------------------------------------------------- *)
(* getTargetDir at its edges                                             *)
(* --------------------------------------------------------------------- *)
Section TargetDirEdges.

Variable cwd : string.
Variable env : gmap string string.
Variable parseToml : string -> error + value.

#[local] Abbreviation cargoConfigAt' := (cargoConfigAt cwd parseToml).
#[local] Abbreviation targetDirLoop' := (targetDirLoop cwd parseToml).
#[local] Abbreviation getTargetDir' := (getTargetDir cwd env parseToml).

(** X2. With CARGO_TARGET_DIR unset, a crate directory that is empty or
    ends in a separator never has its config files consulted: the loop
    condition fails at once and the answer is the default, whatever the
    file system holds. *)
Theorem getTargetDir_trailing_separator fuel fs crateDir :
  env !! targetDirVar = None ->
  walkable crateDir = false ->
  getTargetDir' (S fuel) fs crateDir
  = Some (Ret (VStr (Path.join [crateDir; "target"]))).
Proof.
  intros Henv Hwalk.
  rewrite getTargetDir_env_unset by assumption.
  simpl. rewrite Hwalk. reflexivity.
Qed.

Lemma targetDirLoop_relative fs def fuel : forall dir r,
  walkable dir = true ->
  Path.isAbsolute dir = false ->
  targetDirLoop' fuel fs def dir = Some r ->
  exists k, cargoConfigAt' fs (ancestor k dir) = Some r.
Proof.
  induction fuel as [|fuel IH]; intros dir r Hwalk Hrel H; simpl in H;
    [discriminate |].
  rewrite Hwalk in H.
  destruct (cargoConfigAt' fs dir) as [r' |] eqn:Hcfg.
  - exists 0. simpl. congruence.
  - destruct (parentDir_relative dir Hwalk Hrel) as [Hw Hr].
    destruct (IH _ _ Hw Hr H) as [k Hk]. exists (S k). exact Hk.
Qed.

(** X3. With CARGO_TARGET_DIR unset, getTargetDir on a relative crate
    directory never reaches its default: every parent it computes is
    again a non-empty relative path without a trailing separator, so a
    result can only come from a config file on the way up, and when no
    directory on the way has one the loop is still running after any
    number of passes. *)
Theorem getTargetDir_relative_never_defaults fs crateDir :
  env !! targetDirVar = None ->
  walkable crateDir = true ->
  Path.isAbsolute crateDir = false ->
  (forall fuel r,
      getTargetDir' fuel fs crateDir = Some r ->
      exists k, cargoConfigAt' fs (ancestor k crateDir) = Some r)
  /\ ((forall k, cargoConfigAt' fs (ancestor k crateDir) = None) ->
      forall fuel, getTargetDir' fuel fs crateDir = None).
Proof.
  intros Henv Hwalk Hrel.
  assert (forall fuel r,
             getTargetDir' fuel fs crateDir = Some r ->
             exists k, cargoConfigAt' fs (ancestor k crateDir) = Some r)
    as Hfrom.
  { intros fuel r H. rewrite getTargetDir_env_unset in H by assumption.
    eapply targetDirLoop_relative; eassumption. }
  split; [exact Hfrom |].
  intros Hnone fuel.
  destruct (getTargetDir' fuel fs crateDir) as [r |] eqn:E; [| reflexivity].
  destruct (Hfrom fuel r E) as [k Hk]. rewrite Hnone in Hk. discriminate.
Qed.

(* from an absolute directory the loop ends within one pass per segment
   of the path *)
Lemma targetDirLoop_total_segments fs def dir fuel :
  Path.isAbsolute dir = true ->
  length (pathSegments dir) < fuel ->
  is_Some (targetDirLoop' fuel fs def dir).
Proof.
  intros Habs Hfuel. destruct fuel as [|fuel]; [lia |]. simpl.
  destruct (walkable dir) eqn:Hwalk; [| eauto].
  destruct (cargoConfigAt' fs dir); [eauto |].
  fold (parentDir dir).
  destruct (parentDir_absolute dir Habs) as [-> Hclean].
  apply targetDirLoop_total_stack; [assumption |].
  apply walk_fuel; assumption.
Qed.

End TargetDirEdges.

(* --------------------------------------------------------------------- *)
(* The workspace root                                                    *)
(* --------------------------------------------------------------------- *)
Section WorkspaceFacts.

Variable cwd : string.
Variable parseToml : string -> error + value.

#[local] Abbreviation someMember' := (someMember cwd).
#[local] Abbreviation workspaceAt' := (workspaceAt cwd parseToml).
#[local] Abbreviation workspaceLoop' := (workspaceLoop cwd parseToml).
#[local] Abbreviation getWorkspaceDir' := (getWorkspaceDir cwd parseToml).

Lemma someMember_true dir rootPath elems :
  someMember' dir rootPath elems = Ret true ->
  exists m,
    In (VStr m) (List.map snd elems) /\ Path.resolve cwd [dir; m] = rootPath.
Proof.
  induction elems as [|[k v] rest IH]; simpl; [discriminate |].
  destruct v; try discriminate.
  destruct (Str.eqb (Path.resolve cwd [dir; s]) rootPath) eqn:E.
  - intros _. exists s. split; [left; reflexivity |].
    apply String.eqb_eq, E.
  - intros H. destruct (IH H) as (m & Hin & Hm). exists m.
    split; [right; exact Hin | exact Hm].
Qed.


(* what a successful pass found *)
Lemma workspaceAt_sound fs rootPath dir r :
  workspaceAt' fs rootPath dir = Some (Ret r) ->
  r = Some dir
  /\ exists contents toml elems m,
       readFileSync cwd fs (Path.join [dir; "Cargo.toml"]) = Ret contents
       /\ parseToml contents = inr toml
       /\ Js.get "members" (Js.get "workspace" toml) = VObj true elems
       /\ In (VStr m) (List.map snd elems)
       /\ Path.resolve cwd [dir; m] = rootPath.
Proof.
  unfold workspaceAt.
  destruct (existsSync cwd fs (Path.join [dir; "Cargo.toml"]));
    [| discriminate].
  destruct (readFileSync cwd fs (Path.join [dir; "Cargo.toml"]))
    as [contents | |] eqn:Hread; try discriminate.
  destruct (parseToml contents) as [e | toml] eqn:Hparse; [discriminate |].
  unfold member at 1.
  destruct (Js.isNullish toml) eqn:Htoml; [discriminate |].
  destruct (Js.truthy (Js.optGet "members" (Js.get "workspace" toml)))
    eqn:Htruthy; [| discriminate].
  assert (Js.optGet "members" (Js.get "workspace" toml)
          = Js.get "members" (Js.get "workspace" toml)) as Hopt.
  { unfold Js.optGet in *.
    destruct (Js.isNullish (Js.get "workspace" toml));
      [discriminate | reflexivity]. }
  rewrite (member_get "members")
    by (eapply get_truthy_object; rewrite <- Hopt; exact Htruthy).
  rewrite bind_Ret. unfold callSome.
  destruct (Js.get "members" (Js.get "workspace" toml))
    as [| | | | | [|] elems] eqn:Hmembers; try discriminate.
  destruct (someMember' dir rootPath elems) as [[|] | |] eqn:Hsome;
    try discriminate.
  intros [= <-]. split; [reflexivity |].
  destruct (someMember_true _ _ _ Hsome) as (m & Hin & Hm).
  exists contents, toml, elems, m. auto.
Qed.


Lemma workspaceLoop_result fs rootPath fuel : forall dir r,
  workspaceLoop' fuel fs rootPath dir = Some r ->
  (r = Ret None /\ exists k, walkable (ancestor k dir) = false)
  \/ exists k,
       walkable (ancestor k dir) = true
       /\ workspaceAt' fs rootPath (ancestor k dir) = Some r.
Proof.
  induction fuel as [|fuel IH]; intros dir r H; simpl in H; [discriminate |].
  destruct (walkable dir) eqn:Hwalk.
  - destruct (workspaceAt' fs rootPath dir) as [r' |] eqn:Hat.
    + right. exists 0. simpl. split; congruence.
    + destruct (IH _ _ H) as [[-> [k Hk]] | (k & Hw & Hk)].
      * left. split; [reflexivity |]. exists (S k). exact Hk.
      * right. exists (S k). split; assumption.
  - left. split; [congruence |]. exists 0. exact Hwalk.
Qed.

Lemma workspaceLoop_total_stack fs rootPath stack : forall fuel,
  Forall cleanSeg stack ->
  length stack < fuel ->
  is_Some (workspaceLoop' fuel fs rootPath (absOfStack stack)).
Proof.
  induction stack as [|top rest IH]; intros fuel Hclean Hfuel;
    (destruct fuel as [|fuel]; [simpl in Hfuel; lia |]); simpl.
  - eexists. reflexivity.
  - destruct (walkable (absOfStack (top :: rest))); [| eauto].
    destruct (workspaceAt' fs rootPath (absOfStack (top :: rest))); [eauto |].
    fold (parentDir (absOfStack (top :: rest))).
    rewrite parentDir_absOfStack by assumption. simpl tail.
    inversion Hclean; subst.
    apply IH; [assumption | simpl in Hfuel; lia].
Qed.

(* from an absolute directory the loop ends within one pass per segment
   of the path *)
Lemma workspaceLoop_total_segments fs rootPath dir fuel :
  Path.isAbsolute dir = true ->
  length (pathSegments dir) < fuel ->
  is_Some (workspaceLoop' fuel fs rootPath dir).
Proof.
  intros Habs Hfuel. destruct fuel as [|fuel]; [lia |]. simpl.
  destruct (walkable dir) eqn:Hwalk; [| eauto].
  destruct (workspaceAt' fs rootPath dir); [eauto |].
  fold (parentDir dir).
  destruct (parentDir_absolute dir Habs) as [-> Hclean].
  apply workspaceLoop_total_stack; [assumption |].
  apply walk_fuel; assumption.
Qed.

Lemma workspaceAt_no_manifest fs rootPath dir :
  existsSync cwd fs (Path.join [dir; "Cargo.toml"]) = false ->
  workspaceAt' fs rootPath dir = None.
Proof. intros H. unfold workspaceAt. rewrite H. reflexivity. Qed.

(** X4. Whatever directory getWorkspaceDir returns is one of the
    directories on the way up from its argument, and the Cargo.toml there
    has a workspace.members array with a string entry that path.resolve
    maps, from that directory, onto the argument itself. *)
Theorem getWorkspaceDir_sound fuel fs dir found :
  getWorkspaceDir' fuel fs dir = Some (Ret (Some found)) ->
  exists k contents toml elems m,
    found = ancestor k dir
    /\ readFileSync cwd fs (Path.join [found; "Cargo.toml"]) = Ret contents
    /\ parseToml contents = inr toml
    /\ Js.get "members" (Js.get "workspace" toml) = VObj true elems
    /\ In (VStr m) (List.map snd elems)
    /\ Path.resolve cwd [found; m] = dir.
Proof.
  unfold getWorkspaceDir. intros H.
  destruct (workspaceLoop_result _ _ _ _ _ H) as [[Hnone _] | (k & _ & Hat)];
    [discriminate |].
  destruct (workspaceAt_sound _ _ _ _ Hat)
    as (Hfound & contents & toml & elems & m & Hread & Hparse & Hmem & Hin & Hm).
  injection Hfound as ->.
  exists k, contents, toml, elems, m. auto 10.
Qed.

Lemma workspaceAt_no_workspace fs rootPath dir :
  declaresNoWorkspace cwd parseToml fs dir ->
  workspaceAt' fs rootPath dir = None.
Proof.
  intros [Hex | (contents & toml & Hread & Hparse & Hobj & Hfalsy)].
  - apply workspaceAt_no_manifest, Hex.
  - unfold workspaceAt.
    rewrite (readFileSync_exists _ _ _ _ Hread), Hread, Hparse.
    rewrite (member_get "workspace" toml Hobj), Hfalsy. reflexivity.
Qed.

(** X5. From an absolute directory getWorkspaceDir ends after at most one
    pass per path segment: the loop condition fails at the k-th directory
    of the walk for some k no larger than the number of segments, and
    fuel for one test of the loop condition more than the path has
    segments always gives a result.  When no directory on the way up
    declares a workspace (each has no Cargo.toml, or one without
    workspace.members) that result is null. *)
Theorem getWorkspaceDir_absolute_total fuel fs dir :
  Path.isAbsolute dir = true ->
  length (pathSegments dir) < fuel ->
  (exists k,
      k <= length (pathSegments dir) /\ walkable (ancestor k dir) = false)
  /\ is_Some (getWorkspaceDir' fuel fs dir)
  /\ ((forall k, declaresNoWorkspace cwd parseToml fs (ancestor k dir)) ->
      getWorkspaceDir' fuel fs dir = Some (Ret None)).
Proof.
  intros Habs Hfuel. split; [exact (walk_ends dir Habs) |].
  unfold getWorkspaceDir.
  destruct (workspaceLoop_total_segments fs dir dir fuel Habs Hfuel)
    as [r Hr].
  split; [eauto |].
  intros Hnone. rewrite Hr.
  destruct (workspaceLoop_result _ _ _ _ _ Hr) as [[-> _] | (k & _ & Hat)];
    [reflexivity |].
  rewrite workspaceAt_no_workspace in Hat by apply Hnone. discriminate.
Qed.


(** X7. Called with a relative directory that is not empty and has no
    trailing separator, getWorkspaceDir never returns: path.resolve only
    produces absolute paths, which never equal the relative argument, and
    every parent the loop computes keeps the loop condition true. *)
Theorem getWorkspaceDir_relative_never_returns fuel fs dir r :
  Path.isAbsolute cwd = true ->
  walkable dir = true ->
  Path.isAbsolute dir = false ->
  getWorkspaceDir' fuel fs dir <> Some (Ret r).
Proof.
  intros Hcwd Hwalk Hrel H. unfold getWorkspaceDir in H.
  destruct (workspaceLoop_result _ _ _ _ _ H) as [[_ [k Hk]] | (k & _ & Hat)].
  - destruct (ancestor_relative k dir Hwalk Hrel) as [Hw _]. congruence.
  - destruct (workspaceAt_sound _ _ _ _ Hat)
      as (_ & contents & toml & elems & m & _ & _ & _ & _ & Hm).
    pose proof (resolve_absolute cwd [ancestor k dir; m] Hcwd) as Habs.
    rewrite Hm in Habs. congruence.
Qed.


End WorkspaceFacts.

(* --------------------------------------------------------------------- *)
(* The native-project directory                                          *)
(* --------------------------------------------------------------------- *)
Section TauriDirFacts.

Variable cwd : string.
Variable globSync : fsT -> string -> string -> list string -> list string.

(** X9. With an absolute working directory, every directory getTauriDir
    returns is absolute, so getTargetDir and getWorkspaceDir both come
    back from it within one pass per path segment, on any file system:
    the loop condition fails at the k-th directory of the walk for some k
    no larger than the number of segments, and fuel for one test of the
    loop condition more than the directory has segments gives a result. *)
Theorem getTauriDir_absolute root fs found :
  Path.isAbsolute cwd = true ->
  getTauriDir cwd globSync root fs = Ret (Some found) ->
  Path.isAbsolute found = true
  /\ (exists k,
        k <= length (pathSegments found)
        /\ walkable (ancestor k found) = false)
  /\ (forall env parseToml fs' fuel,
        length (pathSegments found) < fuel ->
        is_Some (getTargetDir cwd env parseToml fuel fs' found)
        /\ is_Some (getWorkspaceDir cwd parseToml fuel fs' found)).
Proof.
  intros Hcwd H.
  assert (Path.isAbsolute found = true) as Habs.
  { unfold getTauriDir in H.
    destruct (existsSync cwd fs (Path.join [root; ".gitignore"])).
    - destruct (readFileSync cwd fs (Path.join [root; ".gitignore"]));
        simpl in H; try discriminate.
      destruct (globSync fs "**/tauri.conf.json" root [a]) as [|t ts];
        [discriminate |].
      destruct (Str.isEmpty t); [discriminate |].
      injection H as <-. apply resolve_absolute, Hcwd.
    - simpl in H.
      destruct (globSync fs "**/tauri.conf.json" root
                  ["node_modules"; "target"]) as [|t ts]; [discriminate |].
      destruct (Str.isEmpty t); [discriminate |].
      injection H as <-. apply resolve_absolute, Hcwd. }
  split; [exact Habs |].
  split; [exact (walk_ends found Habs) |].
  intros env parseToml fs' fuel Hfuel. split.
  - unfold getTargetDir.
    destruct (bool_decide (is_Some (env !! "CARGO_TARGET_DIR"))); [eauto |].
    apply targetDirLoop_total_segments; assumption.
  - unfold getWorkspaceDir. apply workspaceLoop_total_segments; assumption.
Qed.

End TauriDirFacts.

(* --------------------------------------------------------------------- *)
(* Where a config or an error of getConfig comes from                    *)
(* --------------------------------------------------------------------- *)
Section ConfigOrigins.

Variable cwd : string.
Variable JSON_parse JSON5_parse : string -> error + value.

#[local] Abbreviation getConfig' := (getConfig cwd JSON_parse JSON5_parse).

Lemma relaxed_value contents config :
  _getJson5Config JSON5_parse contents = config ->
  Js.truthy config = true ->
  JSON5_parse contents = inr config.
Proof.
  unfold _getJson5Config.
  destruct (JSON5_parse contents) as [e | v]; intros <- H;
    [discriminate | reflexivity].
Qed.

(** X10. A config getConfig returns is the strict parse of the file, or,
    when the strict parse fails, a truthy relaxed parse of the same
    contents or of tauri.conf.json5: only the strict parse can hand back a
    falsy value. *)
Theorem getConfig_result_origin path fs config :
  getConfig' path fs = Ret config ->
  exists contents,
    readFileSync cwd fs path = Ret contents
    /\ (JSON_parse contents = inr config
        \/ (exists e, JSON_parse contents = inl e)
           /\ Js.truthy config = true
           /\ (JSON5_parse contents = inr config
               \/ exists sibling,
                    readFileSync cwd fs (json5Sibling path) = Ret sibling
                    /\ JSON5_parse sibling = inr config)).
Proof.
  unfold getConfig. fold (json5Sibling path).
  destruct (readFileSync cwd fs path) as [contents | |]; try discriminate.
  rewrite bind_Ret. intros H. exists contents. split; [reflexivity |].
  destruct (JSON_parse contents) as [e | strict]; [| left; congruence].
  right. split; [eauto |].
  destruct (_getJson5Config JSON5_parse contents) as [| | b | n | t | a ps]
    eqn:Hrelaxed.
  1, 3, 4, 5, 6:
    rewrite bind_Ret in H;
    match type of H with
    | (if ?c then _ else _) = _ => destruct c eqn:Htruthy; [| discriminate]
    end;
    injection H as <-; split; [exact Htruthy |]; left;
    apply relaxed_value; assumption.
  destruct (readFileSync cwd fs (json5Sibling path)) as [sibling | |] eqn:Hsib;
    try discriminate.
  rewrite !bind_Ret in H.
  destruct (Js.truthy (_getJson5Config JSON5_parse sibling)) eqn:Htruthy;
    [| discriminate].
  injection H as <-. split; [exact Htruthy |]. right.
  exists sibling. split; [reflexivity |].
  apply relaxed_value; [reflexivity | assumption].
Qed.

(** X11. getConfig fails at once when the file itself cannot be read,
    whatever tauri.conf.json5 holds; and an error it throws is always that
    read error, the error of the strict parse, or the error of reading
    tauri.conf.json5: an error of the relaxed parser is never surfaced. *)
Theorem getConfig_error_origin path fs err :
  (readFileSync cwd fs path = Throw err -> getConfig' path fs = Throw err)
  /\ (getConfig' path fs = Throw err ->
      readFileSync cwd fs path = Throw err
      \/ exists contents e,
           readFileSync cwd fs path = Ret contents
           /\ JSON_parse contents = inl e
           /\ (err = e
               \/ readFileSync cwd fs (json5Sibling path) = Throw err)).
Proof.
  unfold getConfig. fold (json5Sibling path). split.
  - intros ->. reflexivity.
  - destruct (readFileSync cwd fs path) as [contents | e0 |];
      [| intros [= ->]; left; reflexivity | discriminate].
    rewrite bind_Ret. intros H. right.
    destruct (JSON_parse contents) as [e | strict] eqn:Hparse;
      [| discriminate].
    exists contents, e. split; [reflexivity |]. split; [exact Hparse |].
    destruct (_getJson5Config JSON5_parse contents) as [| | b | n | t | a ps].
    1, 3, 4, 5, 6:
      rewrite bind_Ret in H;
      match type of H with
      | (if ?c then _ else _) = _ => destruct c; [discriminate |]
      end;
      injection H as <-; left; reflexivity.
    destruct (readFileSync cwd fs (json5Sibling path)) as [sibling | e1 |];
      [| injection H as <-; right; reflexivity | discriminate].
    rewrite !bind_Ret in H.
    destruct (Js.truthy (_getJson5Config JSON5_parse sibling));
      [discriminate |].
    injection H as <-. left. reflexivity.
Qed.

End ConfigOrigins.

(* --------------------------------------------------------------------- *)
(* getInfo at its edges                                                  *)
(* --------------------------------------------------------------------- *)
Section InfoEdges.

Variable cwd : string.
Variable JSON_parse JSON5_parse parseToml : string -> error + value.
Variable globSync : fsT -> string -> string -> list string -> list string.

#[local] Abbreviation getTauriDir' := (getTauriDir cwd globSync).
#[local] Abbreviation getConfig' := (getConfig cwd JSON_parse JSON5_parse).
#[local] Abbreviation configCandidates' := (configCandidates cwd JSON_parse).
#[local] Abbreviation manifestFill' := (manifestFill cwd parseToml).
#[local] Abbreviation getInfo' :=
  (getInfo cwd JSON_parse JSON5_parse parseToml globSync).

(** X12. When a native project is found, an Info that getInfo returns
    carries that directory and a truthy name, version and installer
    language: unresolved metadata never comes back as a value. *)
Theorem getInfo_native_invariant root inConfigPath fs tauriDir info :
  getTauriDir' root fs = Ret (Some tauriDir) ->
  getInfo' root inConfigPath fs = Ret info ->
  tauriPath info = Some tauriDir
  /\ Js.truthy (name info) = true
  /\ Js.truthy (version info) = true
  /\ Js.truthy (wixLanguage info) = true.
Proof.
  intros Hdir H. unfold getInfo in H. rewrite Hdir, bind_Ret in H.
  destruct (getConfig' _ fs) as [config | |]; try discriminate.
  rewrite bind_Ret in H.
  destruct (member "package" config) as [package | |]; try discriminate.
  rewrite bind_Ret in H.
  destruct (configCandidates' tauriDir package fs) as [[n0 v0] | |];
    try discriminate.
  rewrite bind_Ret in H. cbv beta iota in H.
  destruct (manifestFill' tauriDir n0 v0 fs) as [[n1 v1] | |];
    try discriminate.
  rewrite bind_Ret in H. cbv beta iota in H.
  destruct (wixLanguageOf config) as [language | |]; try discriminate.
  rewrite bind_Ret in H. cbv beta zeta in H.
  destruct (Js.truthy n1) eqn:Hn, (Js.truthy v1) eqn:Hv; try discriminate.
  injection H as <-. simpl.
  repeat split; try assumption.
  destruct (Js.truthy language) eqn:Hl; [exact Hl | reflexivity].
Qed.

(** X13. When no native project is found, an explicit config path is
    never read: getInfo answers exactly as it does without one. *)
Theorem getInfo_explicit_config_unused root configPath fs :
  getTauriDir' root fs = Ret None ->
  getInfo' root (Some configPath) fs = getInfo' root None fs.
Proof.
  intros Hdir.
  rewrite !(getInfo_fallback cwd JSON_parse JSON5_parse parseToml globSync)
    by assumption.
  reflexivity.
Qed.

Lemma getInfo_of_complete_config
    root inConfigPath fs tauriDir config productName v :
  getTauriDir' root fs = Ret (Some tauriDir) ->
  getConfig' (nativeConfigPath tauriDir inConfigPath) fs = Ret config ->
  Js.get "productName" (Js.get "package" config) = VStr productName ->
  Js.get "version" (Js.get "package" config) = VStr v ->
  Str.isEmpty productName = false ->
  Str.isEmpty v = false ->
  Str.endsWith v ".json" = false ->
  getInfo' root inConfigPath fs =
    Ret {| tauriPath := Some tauriDir;
           name := VStr productName;
           version := VStr v;
           wixLanguage := resolvedLanguage config |}.
Proof.
  intros Hdir Hcfg Hpn Hver Hne1 Hne2 Hjson.
  assert (member "package" config = Ret (Js.get "package" config)) as Hpkg.
  { apply member_get. destruct config; simpl in *; congruence. }
  rewrite (getInfo_native _ _ _ _ _ _ _ _ _ _ _ Hdir Hcfg Hpkg).
  unfold configCandidates.
  rewrite (get_truthy_truthy "version" (Js.get "package" config))
    by (rewrite Hver; simpl; rewrite Hne2; reflexivity).
  rewrite Hpn, Hver. simpl callEndsWith. rewrite Hjson. ret_steps.
  unfold manifestFill. simpl Js.truthy. rewrite Hne1, Hne2. simpl.
  rewrite Hne1, Hne2. reflexivity.
Qed.

(** X14. When the config gives both a productName and a plain version,
    getInfo returns them and Cargo.toml is not consulted: the result holds
    whether that file is missing, unreadable or malformed. *)
Theorem getInfo_config_complete
    root inConfigPath fs tauriDir config productName v :
  getTauriDir' root fs = Ret (Some tauriDir) ->
  getConfig' (nativeConfigPath tauriDir inConfigPath) fs = Ret config ->
  Js.get "productName" (Js.get "package" config) = VStr productName ->
  Js.get "version" (Js.get "package" config) = VStr v ->
  Str.isEmpty productName = false ->
  Str.isEmpty v = false ->
  Str.endsWith v ".json" = false ->
  getInfo' root inConfigPath fs =
    Ret {| tauriPath := Some tauriDir;
           name := VStr productName;
           version := VStr v;
           wixLanguage := resolvedLanguage config |}.
Proof. apply getInfo_of_complete_config. Qed.

(** X15. A config version that is set but is not a string (a number, a
    boolean, a table) makes getInfo throw a TypeError: the endsWith call
    is guarded against undefined and null only. *)
Theorem getInfo_version_not_string root inConfigPath fs tauriDir config :
  getTauriDir' root fs = Ret (Some tauriDir) ->
  getConfig' (nativeConfigPath tauriDir inConfigPath) fs = Ret config ->
  notStringLike (Js.get "version" (Js.get "package" config)) = true ->
  getInfo' root inConfigPath fs
  = Throw (TypeError "endsWith is not a function").
Proof.
  intros Hdir Hcfg Hver.
  assert (Js.get "version" (Js.get "package" config) <> VUndef) as Hdef
    by (intros E; rewrite E in Hver; discriminate).
  destruct (get_defined_object _ _ Hdef) as (pa & pprops & Hpkgv).
  assert (member "package" config = Ret (Js.get "package" config)) as Hpkg.
  { apply member_get. destruct config; simpl in *; congruence. }
  rewrite (getInfo_native _ _ _ _ _ _ _ _ _ _ _ Hdir Hcfg Hpkg).
  unfold configCandidates. rewrite Hpkgv in *. simpl Js.truthy. cbv iota.
  destruct (Js.get "version" (VObj pa pprops)); try discriminate Hver;
    reflexivity.
Qed.

(** X16. When the config has no package table, everything rests on
    Cargo.toml: if it cannot be read getInfo throws that read error, and
    if its package table lacks a name or a version getInfo ends the
    process with status 1. *)
Theorem getInfo_without_package_table root inConfigPath fs tauriDir config :
  getTauriDir' root fs = Ret (Some tauriDir) ->
  getConfig' (nativeConfigPath tauriDir inConfigPath) fs = Ret config ->
  Js.isNullish config = false ->
  Js.truthy (Js.get "package" config) = false ->
  (forall e,
      readFileSync cwd fs (Path.join [tauriDir; "Cargo.toml"]) = Throw e ->
      getInfo' root inConfigPath fs = Throw e)
  /\ (forall contents cargoManifest,
        readFileSync cwd fs (Path.join [tauriDir; "Cargo.toml"]) = Ret contents ->
        parseToml contents = inr cargoManifest ->
        Js.isNullish (Js.get "package" cargoManifest) = false ->
        Js.truthy (Js.get "name" (Js.get "package" cargoManifest))
        && Js.truthy (Js.get "version" (Js.get "package" cargoManifest))
        = false ->
        getInfo' root inConfigPath fs = Exit 1).
Proof.
  intros Hdir Hcfg Hobj Hnopkg.
  pose proof (getInfo_native cwd JSON_parse JSON5_parse parseToml globSync
                root inConfigPath fs tauriDir config _
                Hdir Hcfg (member_get "package" config Hobj)) as Heq.
  unfold configCandidates in Heq. rewrite Hnopkg, bind_Ret in Heq.
  cbv beta iota in Heq. unfold manifestFill in Heq. simpl in Heq.
  split.
  - intros e Hread. rewrite Heq, Hread. reflexivity.
  - intros contents cargo Hread Hparse Hpkg Hfalsy.
    rewrite Heq, Hread, bind_Ret, Hparse. simpl ofParse. ret_steps.
    assert (Js.isNullish cargo = false) as Hcargo.
    { destruct cargo; simpl in *; congruence. }
    rewrite (member_get "package" cargo Hcargo). ret_steps.
    rewrite !(member_get _ _ Hpkg). ret_steps.
    rewrite Hfalsy. reflexivity.
Qed.

End InfoEdges.

(* --------------------------------------------------------------------- *)
(* The merge of initProject                                              *)
(* --------------------------------------------------------------------- *)
Section MergeFacts.

Lemma setProp_idem k v ps :
  Js.setProp k v (Js.setProp k v ps) = Js.setProp k v ps.
Proof.
  induction ps as [|[k' v'] rest IH]; simpl.
  - unfold Str.eqb. rewrite String.eqb_refl. reflexivity.
  - destruct (Str.eqb k' k) eqn:E; simpl.
    + unfold Str.eqb. rewrite String.eqb_refl. reflexivity.
    + rewrite E, IH. reflexivity.
Qed.

Lemma hasKey_setProp k k' v ps :
  Ref.hasKey k (Js.setProp k' v ps) = Ref.hasKey k ps || Str.eqb k' k.
Proof.
  induction ps as [|[k0 v0] rest IH]; simpl.
  - apply orb_false_r.
  - destruct (Str.eqb k0 k') eqn:E; simpl.
    + apply String.eqb_eq in E. subst k0.
      destruct (Str.eqb k' k), (Ref.hasKey k rest); reflexivity.
    + rewrite IH.
      destruct (Str.eqb k0 k), (Ref.hasKey k rest), (Str.eqb k' k);
        reflexivity.
Qed.

(* writing the value a key already has changes nothing *)
Lemma setProp_same k v ps :
  Ref.hasKey k ps = true -> Js.lookup k ps = v -> Js.setProp k v ps = ps.
Proof.
  induction ps as [|[k0 v0] rest IH]; simpl; [discriminate |].
  destruct (Str.eqb k0 k) eqn:E; simpl.
  - intros _ ->. apply String.eqb_eq in E. subst k0. reflexivity.
  - intros Hk Hv. rewrite IH by assumption. reflexivity.
Qed.

Lemma mergePackage_object info packageJson config merged :
  mergePackage info packageJson config = Ret merged ->
  exists isArray props, config = VObj isArray props.
Proof.
  unfold mergePackage, member, assign.
  destruct config; simpl; try discriminate. eauto.
Qed.

(* the package table mergePackage builds *)
Lemma mergePackage_spec info packageJson isArray props :
  exists merged,
    mergePackage info packageJson (VObj isArray props) = Ret merged
    /\ Js.get "version" (Js.get "package" merged) = version info
    /\ Js.get "productName" (Js.get "package" merged)
       = (if Js.truthy (Js.optGet "productName" packageJson)
          then Js.optGet "productName" packageJson
          else Js.lookup "productName" (Js.spread (Js.lookup "package" props)))
    /\ (forall k,
          k <> "version" -> k <> "productName" ->
          Js.get k (Js.get "package" merged)
          = Js.lookup k (Js.spread (Js.lookup "package" props)))
    /\ (forall k, k <> "package" -> Js.get k merged = Js.lookup k props).
Proof.
  unfold mergePackage. rewrite member_object, bind_Ret. cbv beta zeta.
  unfold assign. eexists. split; [reflexivity |].
  simpl Js.get. rewrite !lookup_setProp_eq. simpl Js.get.
  destruct (Js.truthy (Js.optGet "productName" packageJson)).
  - repeat split.
    + rewrite lookup_setProp_ne by discriminate. apply lookup_setProp_eq.
    + apply lookup_setProp_eq.
    + intros k Hk1 Hk2. rewrite !lookup_setProp_ne by congruence.
      reflexivity.
    + intros k Hk. apply lookup_setProp_ne. congruence.
  - repeat split.
    + apply lookup_setProp_eq.
    + apply lookup_setProp_ne. discriminate.
    + intros k Hk1 Hk2. apply lookup_setProp_ne. congruence.
    + intros k Hk. apply lookup_setProp_ne. congruence.
Qed.


(** X17. On a config object mergePackage always succeeds: package.version
    becomes info.version; package.productName becomes the JS manifest's
    productName when that is truthy and is otherwise left as it was;
    every other package field and every other top-level field of the
    config is carried over unchanged. *)
Theorem mergePackage_effect info packageJson isArray props :
  exists merged,
    mergePackage info packageJson (VObj isArray props) = Ret merged
    /\ Js.get "version" (Js.get "package" merged) = version info
    /\ Js.get "productName" (Js.get "package" merged)
       = (if Js.truthy (Js.optGet "productName" packageJson)
          then Js.optGet "productName" packageJson
          else Js.lookup "productName" (Js.spread (Js.lookup "package" props)))
    /\ (forall k,
          k <> "version" -> k <> "productName" ->
          Js.get k (Js.get "package" merged)
          = Js.lookup k (Js.spread (Js.lookup "package" props)))
    /\ (forall k, k <> "package" -> Js.get k merged = Js.lookup k props).
Proof. apply mergePackage_spec. Qed.

(** X18. The merge is idempotent: applying mergePackage and
    mergeIdentifier again, with the same info, JS manifest and identifier,
    to the config they produced gives that same config back. *)
Theorem merge_idempotent info packageJson identifier config config1 merged :
  mergePackage info packageJson config = Ret config1 ->
  mergeIdentifier identifier config1 = Ret merged ->
  mergePackage info packageJson merged = Ret merged
  /\ mergeIdentifier identifier merged = Ret merged.
Proof.
  intros H1 H2.
  destruct (mergePackage_object _ _ _ _ H1) as (a & props & ->).
  unfold mergePackage in H1. rewrite member_object, bind_Ret in H1.
  cbv beta zeta in H1. unfold assign in H1. injection H1 as <-.
  set (S0 := Js.spread (Js.lookup "package" props)) in *.
  set (Q := Js.setProp "version" (version info) S0) in *.
  set (pn := Js.optGet "productName" packageJson) in *.
  set (P1 := if Js.truthy pn then Js.setProp "productName" pn Q else Q) in *.
  set (props1 := Js.setProp "package" (VObj false P1) props) in *.
  assert ((if Js.truthy pn
           then Js.setProp "productName" pn (Js.setProp "version" (version info) P1)
           else Js.setProp "version" (version info) P1) = P1) as HP.
  { unfold P1. destruct (Js.truthy pn).
    - rewrite (setProp_same "version" (version info)).
      + apply setProp_idem.
      + rewrite hasKey_setProp. unfold Q. rewrite hasKey_setProp.
        unfold Str.eqb. rewrite String.eqb_refl.
        rewrite orb_true_r. reflexivity.
      + rewrite lookup_setProp_ne by discriminate. apply lookup_setProp_eq.
    - apply setProp_idem. }
  assert (forall ps,
             Js.lookup "package" ps = VObj false P1 ->
             Ref.hasKey "package" ps = true ->
             mergePackage info packageJson (VObj a ps) = Ret (VObj a ps))
    as Hagain.
  { intros ps Hl Hk. unfold mergePackage.
    rewrite member_object, bind_Ret, Hl. cbv beta zeta.
    change (Js.spread (VObj false P1)) with P1. fold pn. rewrite HP.
    unfold assign. rewrite setProp_same by assumption. reflexivity. }
  assert (Js.lookup "package" props1 = VObj false P1) as Hl1
    by apply lookup_setProp_eq.
  assert (Ref.hasKey "package" props1 = true) as Hk1.
  { unfold props1. rewrite hasKey_setProp. unfold Str.eqb.
    rewrite String.eqb_refl. apply orb_true_r. }
  unfold mergeIdentifier in *.
  destruct identifier as [id |];
    [| injection H2 as <-; split; [apply Hagain; assumption | reflexivity]].
  destruct (Str.isEmpty id);
    [injection H2 as <-; split; [apply Hagain; assumption | reflexivity] |].
  rewrite member_object, bind_Ret in H2. cbv beta zeta in H2.
  unfold assign in H2. injection H2 as <-.
  set (tauri := Js.lookup "tauri" props1) in *.
  set (BB := Js.setProp "identifier" (VStr id)
               (Js.spread (Js.optGet "bundle" tauri))) in *.
  set (TT := Js.setProp "bundle" (VObj false BB) (Js.spread tauri)) in *.
  split.
  - apply Hagain.
    + rewrite lookup_setProp_ne by discriminate. exact Hl1.
    + rewrite hasKey_setProp, Hk1. reflexivity.
  - rewrite member_object, bind_Ret. cbv beta zeta.
    rewrite lookup_setProp_eq.
    change (Js.spread (VObj false TT)) with TT.
    change (Js.optGet "bundle" (VObj false TT)) with (Js.lookup "bundle" TT).
    unfold TT at 1. rewrite lookup_setProp_eq.
    change (Js.spread (VObj false BB)) with BB.
    assert (Js.setProp "identifier" (VStr id) BB = BB) as ->
      by apply setProp_idem.
    assert (Js.setProp "bundle" (VObj false BB) TT = TT) as ->
      by apply setProp_idem.
    unfold assign. rewrite setProp_idem. reflexivity.
Qed.

End MergeFacts.

(* --------------------------------------------------------------------- *)
(* Runs of initProject                                                   *)
(* --------------------------------------------------------------------- *)
Section InitRuns.

Variable cwd : string.
Variable JSON_parse JSON5_parse parseToml : string -> error + value.
Variable JSON_stringify : value -> string.
Variable globSync : fsT -> string -> string -> list string -> list string.
Variable execa :
  string -> list value -> ExecaOptions -> fsT -> outcome unit * fsT.

#[local] Abbreviation getTauriDir' := (getTauriDir cwd globSync).
#[local] Abbreviation getPackageJson' := (getPackageJson cwd JSON_parse).
#[local] Abbreviation getConfig' := (getConfig cwd JSON_parse JSON5_parse).
#[local] Abbreviation execCommand' := (execCommand execa).
#[local] Abbreviation getInfo' :=
  (getInfo cwd JSON_parse JSON5_parse parseToml globSync).
#[local] Abbreviation initProject' :=
  (initProject cwd JSON_parse JSON5_parse JSON_stringify globSync execa).

(** X19. initProject stops before it rewrites anything: a package.json
    that cannot be parsed ends it before any command is run, with the file
    system untouched; a failing init command ends it with that error in
    the file system the command left, and no config is written. *)
Theorem initProject_stops_before_rewrite root runner info options fs e :
  (getPackageJson' root fs = Throw e ->
   initProject' root runner info options fs = (Throw e, fs))
  /\ (forall packageJson tauriPath fs1,
        getPackageJson' root fs = Ret packageJson ->
        getTauriDir' root fs = Ret tauriPath ->
        execCommand' (runnerCommand runner) (initArgs runner info)
          (Some root) fs = (Throw e, fs1) ->
        initProject' root runner info options fs = (Throw e, fs1)).
Proof.
  split.
  - intros Hpkg. unfold initProject, ioBind, ioRead. rewrite Hpkg.
    reflexivity.
  - intros packageJson tauriPath fs1 Hpkg Hdir Hinit.
    unfold initProject, ioBind, ioRead. rewrite Hpkg, Hdir.
    fold (initArgs runner info). rewrite Hinit. reflexivity.
Qed.

(* the state initProject leaves on success without an icon *)
Lemma initProject_without_icon root runner info options fs fs1
    packageJson tauriPath config config1 merged :
  getPackageJson' root fs = Ret packageJson ->
  getTauriDir' root fs = Ret (Some tauriPath) ->
  execCommand' (runnerCommand runner) (initArgs runner info) (Some root) fs
    = (Ret tt, fs1) ->
  getConfig' (configPathOf tauriPath) fs1 = Ret config ->
  mergePackage info packageJson config = Ret config1 ->
  mergeIdentifier (bundleIdentifier options) config1 = Ret merged ->
  iconPath options = None ->
  initProject' root runner info options fs
  = (Ret (applicationOf tauriPath runner info),
     <[fsKey cwd (configPathOf tauriPath) := File (JSON_stringify merged)]>
       fs1).
Proof.
  intros Hpkg Hdir Hinit Hcfg Hm1 Hm2 Hicon.
  rewrite (initProject_after_init _ _ _ _ _ _ _ _ _ _ _ _ _ _ _ _ _
             Hpkg Hdir Hinit Hcfg Hm1 Hm2).
  cbv zeta. rewrite Hicon. reflexivity.
Qed.

(** X20. On success without an icon, initProject returns the Application
    made of info, the runner and the directory found before the init
    command, and the file system it leaves is the one the init command
    left except for tauri.conf.json, which now holds the stringified
    merged config: no other file is created, changed or removed. *)
Theorem initProject_writes_only_config root runner info options fs fs1
    packageJson tauriPath config config1 merged :
  getPackageJson' root fs = Ret packageJson ->
  getTauriDir' root fs = Ret (Some tauriPath) ->
  execCommand' (runnerCommand runner) (initArgs runner info) (Some root) fs
    = (Ret tt, fs1) ->
  getConfig' (configPathOf tauriPath) fs1 = Ret config ->
  mergePackage info packageJson config = Ret config1 ->
  mergeIdentifier (bundleIdentifier options) config1 = Ret merged ->
  iconPath options = None ->
  exists fs2,
    initProject' root runner info options fs
    = (Ret (applicationOf tauriPath runner info), fs2)
    /\ readFileSync cwd fs2 (configPathOf tauriPath)
       = Ret (JSON_stringify merged)
    /\ (forall key,
          key <> fsKey cwd (configPathOf tauriPath) ->
          fs2 !! key = fs1 !! key).
Proof.
  intros Hpkg Hdir Hinit Hcfg Hm1 Hm2 Hicon.
  eexists. split; [| split].
  - eapply initProject_without_icon; eassumption.
  - unfold readFileSync. rewrite lookup_insert_eq. reflexivity.
  - intros key Hkey. apply lookup_insert_ne. congruence.
Qed.

(** X21. What initProject writes, getConfig reads back: when JSON.parse
    inverts JSON.stringify on the merged config, getConfig on the file
    system left by a successful run without an icon returns exactly the
    merged config. *)
Theorem initProject_config_round_trip root runner info options fs fs1
    packageJson tauriPath config config1 merged :
  getPackageJson' root fs = Ret packageJson ->
  getTauriDir' root fs = Ret (Some tauriPath) ->
  execCommand' (runnerCommand runner) (initArgs runner info) (Some root) fs
    = (Ret tt, fs1) ->
  getConfig' (configPathOf tauriPath) fs1 = Ret config ->
  mergePackage info packageJson config = Ret config1 ->
  mergeIdentifier (bundleIdentifier options) config1 = Ret merged ->
  iconPath options = None ->
  JSON_parse (JSON_stringify merged) = inr merged ->
  getConfig' (configPathOf tauriPath)
    (snd (initProject' root runner info options fs))
  = Ret merged.
Proof.
  intros Hpkg Hdir Hinit Hcfg Hm1 Hm2 Hicon Hround.
  rewrite (initProject_without_icon _ _ _ _ _ _ _ _ _ _ _
             Hpkg Hdir Hinit Hcfg Hm1 Hm2 Hicon).
  simpl snd.
  apply (getConfig_strict _ _ _ _ _ (JSON_stringify merged));
    [| exact Hround].
  unfold readFileSync. rewrite lookup_insert_eq. reflexivity.
Qed.


End InitRuns.

(* --------------------------------------------------------------------- *)
(* The fallback name                                                     *)
(* --------------------------------------------------------------------- *)
Section FallbackName.

Variable cwd : string.
Variable JSON_parse JSON5_parse parseToml : string -> error + value.
Variable globSync : fsT -> string -> string -> list string -> list string.

Lemma replaceAllChar_gone s c d :
  Ascii.eqb d c = false -> hasChar c (Str.replaceAllChar s c d) = false.
Proof.
  intros Hd. induction s as [|x r IH]; simpl; [reflexivity |].
  rewrite IH, orb_false_r.
  destruct (Ascii.eqb x c) eqn:E; [exact Hd | exact E].
Qed.

(** X23. Without a native project, a name getInfo returns is always a
    string without a single space, whether it comes from displayName,
    from name or from the "app" default. *)
Theorem getInfo_fallback_name_has_no_space root inConfigPath fs info :
  getTauriDir cwd globSync root fs = Ret None ->
  getInfo cwd JSON_parse JSON5_parse parseToml globSync root inConfigPath fs
  = Ret info ->
  exists s, name info = VStr s /\ Str.includes s " " = false.
Proof.
  intros Hdir H.
  rewrite (getInfo_fallback cwd JSON_parse JSON5_parse parseToml globSync)
    in H by assumption.
  destruct (getPackageJson cwd JSON_parse root fs) as [packageJson | |];
    try discriminate.
  rewrite bind_Ret in H.
  destruct (Js.truthy packageJson).
  - destruct (Js.or (Js.get "displayName" packageJson)
                (Js.get "name" packageJson)) as [| | | | s |];
      try discriminate.
    simpl in H. injection H as <-. simpl.
    exists (Str.replaceAllChar s " " "-"). split; [reflexivity |].
    rewrite includes_char. apply replaceAllChar_gone. reflexivity.
  - simpl in H. injection H as <-. exists "app". split; reflexivity.
Qed.

End FallbackName.

(* --------------------------------------------------------------------- *)
(* The last segment of a resolved path                                   *)
(* --------------------------------------------------------------------- *)
Section LastSegment.

Lemma str_app_assoc a b c : (a +:+ b) +:+ c = a +:+ (b +:+ c).
Proof.
  induction a as [|x a IH]; [reflexivity |].
  change (String x ((a +:+ b) +:+ c) = String x (a +:+ (b +:+ c))).
  rewrite IH. reflexivity.
Qed.

Lemma cleanSeg_good name : cleanSeg name -> goodSeg name.
Proof. intros (H1 & _ & _ & H4). split; assumption. Qed.

Lemma split_app_name q name :
  hasChar Path.sepChar name = false ->
  Str.split Path.sepChar (q +:+ String Path.sepChar name)
  = Str.split Path.sepChar q ++ [name].
Proof. intros H. rewrite split_app_sep, (split_noSep _ _ H). reflexivity. Qed.

Lemma segStack_snoc b segs name acc :
  cleanSeg name ->
  segStack b (segs ++ [name]) acc = name :: segStack b segs acc.
Proof.
  intros (H1 & H2 & H3 & _). rewrite segStack_app. simpl.
  rewrite (neq_eqb_false _ _ H1), (neq_eqb_false _ _ H2),
    (neq_eqb_false _ _ H3). reflexivity.
Qed.

Lemma join_snoc segs x :
  segs <> [] ->
  Str.join Path.sep (segs ++ [x]) = Str.join Path.sep segs +:+ Path.sep +:+ x.
Proof.
  induction segs as [|p rest IH]; [congruence |]. intros _.
  destruct rest as [|q rest]; [reflexivity |].
  change ((p :: q :: rest) ++ [x]) with (p :: (q :: rest) ++ [x]).
  change (Str.join Path.sep (p :: (q :: rest) ++ [x]))
    with (p +:+ Path.sep +:+ Str.join Path.sep ((q :: rest) ++ [x])).
  rewrite IH by discriminate.
  rewrite join_cons_cons, !str_app_assoc. reflexivity.
Qed.

Lemma join_snoc_nonempty segs name :
  name <> "" -> Str.isEmpty (Str.join Path.sep (segs ++ [name])) = false.
Proof.
  intros Hne. destruct segs as [|p rest].
  - simpl. destruct name; [congruence | reflexivity].
  - rewrite join_snoc by discriminate.
    destruct (Str.join Path.sep (p :: rest)); reflexivity.
Qed.

Lemma lastSegment_snoc segs name cur :
  name <> "" -> Path.lastSegment (segs ++ [name]) cur = name.
Proof.
  intros Hne. revert cur. induction segs as [|s rest IH]; intros cur; simpl.
  - destruct name; [congruence | reflexivity].
  - apply IH.
Qed.

(* a path of that shape ends in its name *)
Lemma namedPath_ends name p :
  namedPath name p ->
  p = name \/ exists q, p = q +:+ String Path.sepChar name.
Proof.
  intros (pre & segs & -> & Hpre & _).
  destruct segs as [|s rest].
  - destruct Hpre as [-> | ->]; [left; reflexivity |].
    right. exists "". reflexivity.
  - right. exists (pre +:+ Str.join Path.sep (s :: rest)).
    rewrite join_snoc by discriminate. rewrite str_app_assoc. reflexivity.
Qed.

Lemma namedPath_basename name p :
  cleanSeg name -> namedPath name p -> Path.basename p = name.
Proof.
  intros Hname (pre & segs & -> & Hpre & Hgood).
  destruct Hname as (Hne & _ & _ & Hns).
  assert (Str.split Path.sepChar (Str.join Path.sep (segs ++ [name]))
          = segs ++ [name]) as Hsplit.
  { apply split_join.
    - destruct segs; discriminate.
    - apply Forall_app. split.
      + eapply Forall_impl; [exact Hgood |]. intros t Ht. apply Ht.
      + repeat constructor. exact Hns. }
  unfold Path.basename. destruct Hpre as [-> | ->].
  - change ("" +:+ Str.join Path.sep (segs ++ [name]))
      with (Str.join Path.sep (segs ++ [name])).
    rewrite Hsplit. apply lastSegment_snoc, Hne.
  - change ("/" +:+ Str.join Path.sep (segs ++ [name]))
      with ("" +:+ String Path.sepChar (Str.join Path.sep (segs ++ [name]))).
    rewrite split_app_sep, Hsplit.
    change (Str.split Path.sepChar "" ++ segs ++ [name])
      with (("" :: segs) ++ [name]).
    apply lastSegment_snoc, Hne.
Qed.

Lemma lastChar_snoc p c :
  Str.lastChar p = Some c -> exists q, p = q +:+ String c "".
Proof.
  induction p as [|x r IH]; [discriminate |].
  destruct r as [|y r'].
  - intros [= ->]. exists "". reflexivity.
  - intros H. destruct (IH H) as [q Hq]. exists (String x q).
    rewrite Hq at 1. reflexivity.
Qed.

Lemma split_named_no_trailing p segs name :
  name <> "" ->
  Str.split Path.sepChar p = segs ++ [name] ->
  Path.hasTrailingSep p = false.
Proof.
  intros Hne Hsplit. unfold Path.hasTrailingSep.
  destruct (Str.lastChar p) as [c |] eqn:Hc; [| reflexivity].
  destruct (Ascii.eqb c Path.sepChar) eqn:E; [| reflexivity].
  apply Ascii.eqb_eq in E. subst c.
  destruct (lastChar_snoc _ _ Hc) as [q ->].
  rewrite split_app_sep in Hsplit.
  change (Str.split Path.sepChar "") with [""] in Hsplit.
  apply app_inj_tail in Hsplit as [_ Hbad]. congruence.
Qed.

(* normalizing keeps a clean last segment in place *)
Lemma normalize_named p segs name :
  cleanSeg name ->
  Str.split Path.sepChar p = segs ++ [name] ->
  namedPath name (Path.normalize p).
Proof.
  intros Hname Hsplit.
  pose proof Hname as (Hne & _).
  assert (Str.isEmpty p = false) as Hp.
  { destruct p; [| reflexivity].
    simpl in Hsplit. destruct segs as [|s [|t rest]]; simpl in Hsplit;
      try discriminate. injection Hsplit as <-. congruence. }
  unfold Path.normalize. rewrite Hp.
  rewrite (split_named_no_trailing p segs name Hne Hsplit).
  cbv zeta. unfold Path.normalizeString.
  rewrite normSegs_stack, Hsplit, segStack_snoc by assumption.
  change (rev (name :: segStack (negb (Path.isAbsolute p)) segs []))
    with (rev (segStack (negb (Path.isAbsolute p)) segs []) ++ [name]).
  rewrite join_snoc_nonempty by assumption.
  assert (Forall goodSeg (rev (segStack (negb (Path.isAbsolute p)) segs [])))
    as Hgood.
  { apply Forall_rev, segStack_good; [| constructor].
    pose proof (split_hasChar Path.sepChar p) as Hall.
    rewrite Hsplit in Hall. apply Forall_app in Hall as [Hall _].
    exact Hall. }
  destruct (Path.isAbsolute p).
  - exists "/", (rev (segStack (negb true) segs [])). auto.
  - exists "", (rev (segStack (negb false) segs [])). auto.
Qed.

Lemma join_named dir name :
  cleanSeg name -> namedPath name (Path.join [dir; name]).
Proof.
  intros Hname. pose proof Hname as (Hne & _ & _ & Hns).
  unfold Path.join.
  assert (Str.isEmpty name = false) as Hn
    by (destruct name; [congruence | reflexivity]).
  destruct dir as [|c d'].
  - change (List.filter (fun a => negb (Str.isEmpty a)) [""; name])
      with (if negb (Str.isEmpty name) then [name] else []).
    rewrite Hn. simpl negb. cbv iota.
    change (Str.join Path.sep [name]) with name. rewrite Hn.
    apply (normalize_named name [] name Hname).
    apply split_noSep, Hns.
  - change (List.filter (fun a => negb (Str.isEmpty a)) [String c d'; name])
      with (String c d' :: (if negb (Str.isEmpty name) then [name] else [])).
    rewrite Hn. simpl negb. cbv iota.
    change (Str.join Path.sep [String c d'; name])
      with (String c (d' +:+ String Path.sepChar name)).
    cbv beta iota delta [Str.isEmpty].
    apply (normalize_named _ (Str.split Path.sepChar (String c d')) name Hname).
    change (String c (d' +:+ String Path.sepChar name))
      with (String c d' +:+ String Path.sepChar name).
    apply split_app_name, Hns.
Qed.

Lemma resolve_named cwd p name :
  cleanSeg name -> namedPath name p ->
  namedPath name (Path.resolve cwd [p]).
Proof.
  intros Hname Hp. pose proof Hname as (Hne & _ & _ & Hns).
  assert (Str.isEmpty p = false) as Hpne.
  { destruct (namedPath_ends _ _ Hp) as [-> | [q ->]].
    - destruct name; [congruence | reflexivity].
    - destruct q; reflexivity. }
  assert (exists R flag segs,
             Path.resolveScan cwd (rev [p]) "" = (R, flag)
             /\ Str.split Path.sepChar R = segs ++ [name] ++ [""])
    as (R & flag & segs & HR & Hsplit).
  { assert (exists segs,
               Str.split Path.sepChar (p +:+ "/") = segs ++ [name] ++ [""])
      as [segs0 H0].
    { destruct (namedPath_ends _ _ Hp) as [-> | [q ->]].
      - exists []. change (name +:+ "/") with (name +:+ String Path.sepChar "").
        rewrite split_app_sep, (split_noSep _ _ Hns). reflexivity.
      - exists (Str.split Path.sepChar q).
        rewrite str_app_assoc.
        change (String Path.sepChar name +:+ "/")
          with (String Path.sepChar (name +:+ String Path.sepChar "")).
        rewrite split_app_sep, split_app_sep, (split_noSep _ _ Hns).
        reflexivity. }
    simpl rev. simpl Path.resolveScan. rewrite Hpne.
    change (p +:+ "/" +:+ "") with (p +:+ "/").
    destruct (Path.isAbsolute p); [eauto |].
    destruct (Str.isEmpty cwd); [eauto |].
    exists (cwd +:+ "/" +:+ p +:+ "/"), (Path.isAbsolute cwd),
      (Str.split Path.sepChar cwd ++ segs0).
    split; [reflexivity |].
    change (cwd +:+ "/" +:+ p +:+ "/")
      with (cwd +:+ String Path.sepChar (p +:+ "/")).
    rewrite split_app_sep, H0, app_assoc. reflexivity. }
  unfold Path.resolve. rewrite HR. unfold Path.normalizeString.
  rewrite normSegs_stack, Hsplit, app_assoc, segStack_app.
  rewrite segStack_snoc by assumption.
  change (segStack (negb flag) [""] (name :: segStack (negb flag) segs []))
    with (name :: segStack (negb flag) segs []).
  change (rev (name :: segStack (negb flag) segs []))
    with (rev (segStack (negb flag) segs []) ++ [name]).
  assert (Forall goodSeg (rev (segStack (negb flag) segs []))) as Hgood.
  { apply Forall_rev, segStack_good; [| constructor].
    pose proof (split_hasChar Path.sepChar R) as Hall.
    rewrite Hsplit in Hall. apply Forall_app in Hall as [Hall _].
    exact Hall. }
  destruct flag.
  - exists "/", (rev (segStack (negb true) segs [])). auto.
  - rewrite join_snoc_nonempty by assumption.
    exists "", (rev (segStack (negb false) segs [])). auto.
Qed.

(* the file-system key of join(dir, name) ends in name *)
Lemma fsKey_basename cwd dir name :
  cleanSeg name -> Path.basename (fsKey cwd (Path.join [dir; name])) = name.
Proof.
  intros Hname. unfold fsKey.
  apply namedPath_basename; [assumption |].
  apply resolve_named; [assumption |]. apply join_named, Hname.
Qed.

End LastSegment.

(* --------------------------------------------------------------------- *)
(* Lock files                                                            *)
(* --------------------------------------------------------------------- *)
Section LockFiles.

Variable cwd : string.
Variable JSON_parse JSON5_parse : string -> error + value.
Variable JSON_stringify : value -> string.
Variable globSync : fsT -> string -> string -> list string -> list string.
Variable execa :
  string -> list value -> ExecaOptions -> fsT -> outcome unit * fsT.

Lemma cleanSeg_names :
  cleanSeg "tauri.conf.json" /\ cleanSeg "yarn.lock"
  /\ cleanSeg "pnpm-lock.yaml".
Proof. repeat split; discriminate || reflexivity. Qed.

(* rewriting tauri.conf.json leaves every file with another name alone *)
Lemma existsSync_after_rewrite fs tauriPath data dir name :
  cleanSeg name ->
  name <> "tauri.conf.json" ->
  existsSync cwd
    (<[fsKey cwd (configPathOf tauriPath) := File data]> fs)
    (Path.join [dir; name])
  = existsSync cwd fs (Path.join [dir; name]).
Proof.
  intros Hname Hne. unfold existsSync.
  rewrite lookup_insert_ne; [reflexivity |].
  intros Heq. apply Hne.
  rewrite <- (fsKey_basename cwd dir name Hname), <- Heq.
  unfold configPathOf. apply fsKey_basename, cleanSeg_names.
Qed.

(** X24. initProject's own write never creates or removes a lock file:
    after a successful run without an icon, usesYarn and usesPnpm answer
    on the resulting file system, for any root, exactly what they answer
    on the file system the init command left. *)
Theorem initProject_keeps_lock_files root runner info options fs fs1
    packageJson tauriPath config config1 merged anyRoot :
  getPackageJson cwd JSON_parse root fs = Ret packageJson ->
  getTauriDir cwd globSync root fs = Ret (Some tauriPath) ->
  execCommand execa (runnerCommand runner) (initArgs runner info)
    (Some root) fs = (Ret tt, fs1) ->
  getConfig cwd JSON_parse JSON5_parse (configPathOf tauriPath) fs1
    = Ret config ->
  mergePackage info packageJson config = Ret config1 ->
  mergeIdentifier (bundleIdentifier options) config1 = Ret merged ->
  iconPath options = None ->
  let fs2 :=
    snd (initProject cwd JSON_parse JSON5_parse JSON_stringify globSync execa
           root runner info options fs) in
  usesYarn cwd anyRoot fs2 = usesYarn cwd anyRoot fs1
  /\ usesPnpm cwd anyRoot fs2 = usesPnpm cwd anyRoot fs1.
Proof.
  intros Hpkg Hdir Hinit Hcfg Hm1 Hm2 Hicon fs2. unfold fs2.
  rewrite (initProject_without_icon cwd JSON_parse JSON5_parse JSON_stringify
             globSync execa _ _ _ _ _ _ _ _ _ _ _
             Hpkg Hdir Hinit Hcfg Hm1 Hm2 Hicon).
  simpl snd. unfold usesYarn, usesPnpm.
  split; apply existsSync_after_rewrite;
    solve [apply cleanSeg_names | discriminate].
Qed.

End LockFiles.

(* --------------------------------------------------------------------- *)
(* The further properties on the sample inputs                           *)
(* --------------------------------------------------------------------- *)

Lemma getTargetDir_trailing_separator_witness :
  cargoConfigAt "/" Ref.parseToml TargetDirExample.fs "/repo/src-tauri"
  = Some (Ret (VStr "/from/config"))
  /\ getTargetDir "/" More.noEnv Ref.parseToml 1 TargetDirExample.fs "/repo/src-tauri/"
     = Some (Ret (VStr "/repo/src-tauri/target")).
Proof.
  split; [run |].
  apply (getTargetDir_trailing_separator "/" More.noEnv Ref.parseToml 0
           TargetDirExample.fs "/repo/src-tauri/"); run.
Defined.

Lemma getTargetDir_relative_never_defaults_witness :
  getTargetDir "/" More.noEnv Ref.parseToml 100 More.noFiles "src-tauri"
  = None.
Proof.
  apply (proj2 (getTargetDir_relative_never_defaults "/" More.noEnv
                  Ref.parseToml More.noFiles "src-tauri"
                  ltac:(run) ltac:(run) ltac:(run))).
  intros k. unfold cargoConfigAt, existsSync, More.noFiles.
  rewrite !lookup_empty. reflexivity.
Defined.

Lemma getWorkspaceDir_sound_witness :
  exists k contents toml elems m,
    "/repo" = ancestor k "/repo/src-tauri"
    /\ readFileSync "/" More.fsWorkspace (Path.join ["/repo"; "Cargo.toml"])
       = Ret contents
    /\ RefArr.parseToml contents = inr toml
    /\ Js.get "members" (Js.get "workspace" toml) = VObj true elems
    /\ In (VStr m) (List.map snd elems)
    /\ Path.resolve "/" ["/repo"; m] = "/repo/src-tauri".
Proof.
  apply (getWorkspaceDir_sound "/" RefArr.parseToml 2 More.fsWorkspace
           "/repo/src-tauri" "/repo").
  run.
Defined.

Lemma getWorkspaceDir_absolute_total_witness :
  length (pathSegments "/repo/src-tauri") = 2
  /\ getWorkspaceDir "/" Ref.parseToml 3 More.noFiles "/repo/src-tauri"
     = Some (Ret None).
Proof.
  split; [reflexivity |].
  apply (proj2 (proj2 (getWorkspaceDir_absolute_total "/" Ref.parseToml 3
                         More.noFiles "/repo/src-tauri" ltac:(run)
                         ltac:(vm_compute; lia)))).
  intros k. left. unfold existsSync, More.noFiles. rewrite lookup_empty.
  reflexivity.
Defined.


Lemma getWorkspaceDir_relative_never_returns_witness :
  getWorkspaceDir "/" RefArr.parseToml 5 More.fsWorkspace "src-tauri"
  <> Some (Ret None).
Proof.
  apply (getWorkspaceDir_relative_never_returns "/" RefArr.parseToml 5
           More.fsWorkspace "src-tauri" None); run.
Defined.


Lemma getTauriDir_absolute_witness :
  Path.isAbsolute Sample.tauriDir = true
  /\ length (pathSegments Sample.tauriDir) = 2
  /\ is_Some (getTargetDir "/" More.noEnv Ref.parseToml 3 Sample.fsPointer
                Sample.tauriDir)
  /\ is_Some (getWorkspaceDir "/" Ref.parseToml 3 Sample.fsPointer
                Sample.tauriDir).
Proof.
  destruct (getTauriDir_absolute "/" Ref.globSync Sample.root Sample.fsPointer
              Sample.tauriDir ltac:(run) ltac:(run)) as (Habs & _ & Hruns).
  split; [exact Habs |].
  split; [reflexivity |].
  apply (Hruns More.noEnv Ref.parseToml Sample.fsPointer 3). vm_compute. lia.
Defined.

Lemma getConfig_result_origin_witness :
  exists contents,
    readFileSync "/" More.fsComplete "/repo/src-tauri/tauri.conf.json"
    = Ret contents
    /\ (Ref.parseJson contents
        = inr (VObj false
                 [("package",
                   VObj false
                     [("productName", VStr "Demo"); ("version", VStr "1.0.0")])])
        \/ (exists e, Ref.parseJson contents = inl e)
           /\ Js.truthy
                (VObj false
                   [("package",
                     VObj false
                       [("productName", VStr "Demo");
                        ("version", VStr "1.0.0")])]) = true
           /\ (Ref.parseJson5 contents
               = inr (VObj false
                        [("package",
                          VObj false
                            [("productName", VStr "Demo");
                             ("version", VStr "1.0.0")])])
               \/ exists sibling,
                    readFileSync "/" More.fsComplete
                      (json5Sibling "/repo/src-tauri/tauri.conf.json")
                    = Ret sibling
                    /\ Ref.parseJson5 sibling
                       = inr (VObj false
                                [("package",
                                  VObj false
                                    [("productName", VStr "Demo");
                                     ("version", VStr "1.0.0")])]))).
Proof.
  apply (getConfig_result_origin "/" Ref.parseJson Ref.parseJson5
           "/repo/src-tauri/tauri.conf.json" More.fsComplete).
  run.
Defined.

Lemma getConfig_error_origin_witness :
  getConfig "/" Ref.parseJson Ref.parseJson5
    "/repo/src-tauri/tauri.conf.json"
    (Ref.files [("/repo/src-tauri/tauri.conf.json5", "{}")])
  = Throw (SystemError "ENOENT" "/repo/src-tauri/tauri.conf.json").
Proof.
  apply (proj1 (getConfig_error_origin "/" Ref.parseJson Ref.parseJson5
                  "/repo/src-tauri/tauri.conf.json"
                  (Ref.files [("/repo/src-tauri/tauri.conf.json5", "{}")])
                  (SystemError "ENOENT" "/repo/src-tauri/tauri.conf.json"))).
  run.
Defined.

Lemma getInfo_native_invariant_witness :
  Js.truthy (VStr "demo") = true /\ Js.truthy (VStr "2.3.4") = true.
Proof.
  destruct (getInfo_native_invariant "/" Ref.parseJson Ref.parseJson5
              Ref.parseToml Ref.globSync Sample.root None Sample.fsPointer
              Sample.tauriDir
              {| tauriPath := Some Sample.tauriDir; name := VStr "demo";
                 version := VStr "2.3.4"; wixLanguage := VStr "en-US" |}
              ltac:(run) ltac:(run)) as (_ & Hn & Hv & _).
  split; [exact Hn | exact Hv].
Defined.

Lemma getInfo_explicit_config_unused_witness :
  getInfo "/" Ref.parseJson Ref.parseJson5 Ref.parseToml Ref.globSync
    Sample.root (Some "/elsewhere/tauri.conf.json") Sample.fsManifest
  = getInfo "/" Ref.parseJson Ref.parseJson5 Ref.parseToml Ref.globSync
      Sample.root None Sample.fsManifest.
Proof.
  apply (getInfo_explicit_config_unused "/" Ref.parseJson Ref.parseJson5
           Ref.parseToml Ref.globSync Sample.root
           "/elsewhere/tauri.conf.json" Sample.fsManifest).
  run.
Defined.

Lemma getInfo_config_complete_witness :
  getInfo "/" Ref.parseJson Ref.parseJson5 Ref.parseToml Ref.globSync
    Sample.root None More.fsComplete
  = Ret {| tauriPath := Some Sample.tauriDir; name := VStr "Demo";
           version := VStr "1.0.0"; wixLanguage := VStr "en-US" |}.
Proof.
  apply (getInfo_config_complete "/" Ref.parseJson Ref.parseJson5
           Ref.parseToml Ref.globSync Sample.root None More.fsComplete
           Sample.tauriDir
           (VObj false
              [("package",
                VObj false
                  [("productName", VStr "Demo"); ("version", VStr "1.0.0")])])
           "Demo" "1.0.0"); run.
Defined.

Lemma getInfo_version_not_string_witness :
  getInfo "/" Ref.parseJson Ref.parseJson5 Ref.parseToml Ref.globSync
    Sample.root None More.fsNumericVersion
  = Throw (TypeError "endsWith is not a function").
Proof.
  apply (getInfo_version_not_string "/" Ref.parseJson Ref.parseJson5
           Ref.parseToml Ref.globSync Sample.root None More.fsNumericVersion
           Sample.tauriDir
           (VObj false [("package", VObj false [("version", VNum 1)])])); run.
Defined.

Lemma getInfo_without_package_table_witness :
  getInfo "/" Ref.parseJson Ref.parseJson5 Ref.parseToml Ref.globSync
    Sample.root None More.fsEmptyConfig
  = Throw (SystemError "ENOENT" "/repo/src-tauri/Cargo.toml")
  /\ getInfo "/" Ref.parseJson Ref.parseJson5 Ref.parseToml Ref.globSync
       Sample.root None More.fsNoVersion
     = Exit 1.
Proof.
  split.
  - apply (proj1 (getInfo_without_package_table "/" Ref.parseJson
                    Ref.parseJson5 Ref.parseToml Ref.globSync Sample.root None
                    More.fsEmptyConfig Sample.tauriDir (VObj false [])
                    ltac:(run) ltac:(run) ltac:(run) ltac:(run))).
    run.
  - apply (proj2 (getInfo_without_package_table "/" Ref.parseJson
                    Ref.parseJson5 Ref.parseToml Ref.globSync Sample.root None
                    More.fsNoVersion Sample.tauriDir (VObj false [])
                    ltac:(run) ltac:(run) ltac:(run) ltac:(run))
             (Ref.dq "[package]
name = 'demo'
")
             (VObj false [("package", VObj false [("name", VStr "demo")])]));
      run.
Defined.

Lemma merge_idempotent_witness :
  mergePackage Sample.info More.productJson More.merged = Ret More.merged
  /\ mergeIdentifier (Some "com.example.demo") More.merged = Ret More.merged.
Proof.
  apply (merge_idempotent Sample.info More.productJson
           (Some "com.example.demo") Sample.loadedConfig More.packageMerged
           More.merged); run.
Defined.

Lemma initProject_stops_before_rewrite_witness :
  initProject "/" Ref.parseJson Ref.parseJson5 Ref.stringify Ref.globSync
    (Ref.execa Sample.created 0)
    Sample.root Sample.runner Sample.info Sample.options More.fsBrokenManifest
  = (Throw (SyntaxError "Unexpected token in JSON"), More.fsBrokenManifest)
  /\ initProject "/" Ref.parseJson Ref.parseJson5 Ref.stringify Ref.globSync
       (RefArr.failing 1)
       Sample.root Sample.runner Sample.info Sample.options Sample.fsProject
     = (Throw (ChildProcessError 1), Sample.fsProject).
Proof.
  split.
  - apply (proj1 (initProject_stops_before_rewrite "/" Ref.parseJson
                    Ref.parseJson5 Ref.stringify Ref.globSync
                    (Ref.execa Sample.created 0) Sample.root Sample.runner
                    Sample.info Sample.options More.fsBrokenManifest
                    (SyntaxError "Unexpected token in JSON"))).
    run.
  - apply (proj2 (initProject_stops_before_rewrite "/" Ref.parseJson
                    Ref.parseJson5 Ref.stringify Ref.globSync
                    (RefArr.failing 1) Sample.root Sample.runner
                    Sample.info Sample.options Sample.fsProject
                    (ChildProcessError 1))
             Sample.packageJson (Some Sample.tauriDir) Sample.fsProject);
      run.
Defined.

Lemma initProject_writes_only_config_witness :
  exists fs2,
    initProject "/" Ref.parseJson Ref.parseJson5 Ref.stringify Ref.globSync
      (Ref.execa [] 0)
      Sample.root Sample.runner Sample.info More.optionsNoIcon More.fsProduct
    = (Ret (applicationOf Sample.tauriDir Sample.runner Sample.info), fs2)
    /\ readFileSync "/" fs2 (configPathOf Sample.tauriDir)
       = Ret (Ref.stringify More.merged)
    /\ (forall key,
          key <> fsKey "/" (configPathOf Sample.tauriDir) ->
          fs2 !! key = More.fsProduct !! key).
Proof.
  apply (initProject_writes_only_config "/" Ref.parseJson Ref.parseJson5
           Ref.stringify Ref.globSync (Ref.execa [] 0)
           Sample.root Sample.runner Sample.info More.optionsNoIcon
           More.fsProduct More.fsProduct More.productJson Sample.tauriDir
           Sample.loadedConfig More.packageMerged More.merged); run.
Defined.

Lemma initProject_config_round_trip_witness :
  getConfig "/" Ref.parseJson Ref.parseJson5 (configPathOf Sample.tauriDir)
    (snd (initProject "/" Ref.parseJson Ref.parseJson5 Ref.stringify
            Ref.globSync (Ref.execa [] 0)
            Sample.root Sample.runner Sample.info More.optionsNoIcon
            More.fsProduct))
  = Ret More.merged.
Proof.
  apply (initProject_config_round_trip "/" Ref.parseJson Ref.parseJson5
           Ref.stringify Ref.globSync (Ref.execa [] 0)
           Sample.root Sample.runner Sample.info More.optionsNoIcon
           More.fsProduct More.fsProduct More.productJson Sample.tauriDir
           Sample.loadedConfig More.packageMerged More.merged); run.
Defined.


Lemma getInfo_fallback_name_has_no_space_witness :
  exists s, VStr "my-app" = VStr s /\ Str.includes s " " = false.
Proof.
  apply (getInfo_fallback_name_has_no_space "/" Ref.parseJson Ref.parseJson5
           Ref.parseToml Ref.globSync Sample.root None Sample.fsManifest
           {| tauriPath := None; name := VStr "my-app";
              version := VStr "1.2.3"; wixLanguage := VStr "en-US" |}); run.
Defined.

Lemma initProject_keeps_lock_files_witness :
  usesYarn "/" Sample.root
    (snd (initProject "/" Ref.parseJson Ref.parseJson5 Ref.stringify
            Ref.globSync (Ref.execa [] 0)
            Sample.root Sample.runner Sample.info More.optionsNoIcon
            More.fsProduct))
  = usesYarn "/" Sample.root More.fsProduct.
Proof.
  apply (initProject_keeps_lock_files "/" Ref.parseJson Ref.parseJson5
           Ref.stringify Ref.globSync (Ref.execa [] 0)
           Sample.root Sample.runner Sample.info More.optionsNoIcon
           More.fsProduct More.fsProduct More.productJson Sample.tauriDir
           Sample.loadedConfig More.packageMerged More.merged Sample.root);
    run.
Defined.
